(** * OpenAPI-SpecMaster: a shallow embedding of the specification parser
      ([src/utils/openapi-parser.ts]) and of the analysis handlers of the
      MCP server ([src/mcp/server.ts]) that the claims are about.

    The TypeScript code manipulates untyped JavaScript values ([any]) coming
    from [JSON.parse] / [yaml.load].  They are modelled as the inductive type
    [jv] below; an object is an association list in insertion order (the
    reordering of integer-like keys by JavaScript engines and the prototype
    chain are not modelled).  Numbers are modelled as integers.  An exception
    is the [Throw] case of the result monad [res]. *)

From Stdlib Require Import String Ascii ZArith QArith Qround List Permutation Bool Lia Lqa Sorted.
Import ListNotations.

Open Scope string_scope.

(** ** JavaScript values *)

Set Warnings "-register-all".

Inductive jv : Type :=
| JUndef
| JNull
| JBool (b : bool)
| JNum (n : Z)
| JStr (s : string)
| JArr (xs : list jv)
| JObj (fs : list (string * jv)).

(** Nested induction principle for [jv]. *)
Section jv_rect_nested.
Variable P : jv -> Prop.
Hypothesis HUndef : P JUndef.
Hypothesis HNull : P JNull.
Hypothesis HBool : forall b, P (JBool b).
Hypothesis HNum : forall n, P (JNum n).
Hypothesis HStr : forall s, P (JStr s).
Hypothesis HArr : forall xs, Forall P xs -> P (JArr xs).
Hypothesis HObj : forall fs, Forall (fun kv => P (snd kv)) fs -> P (JObj fs).

Fixpoint jv_ind_nested (v : jv) : P v :=
  match v with
  | JUndef => HUndef
  | JNull => HNull
  | JBool b => HBool b
  | JNum n => HNum n
  | JStr s => HStr s
  | JArr xs =>
      HArr xs ((fix go (l : list jv) : Forall P l :=
                  match l with
                  | [] => Forall_nil _
                  | x :: r => Forall_cons _ (jv_ind_nested x) (go r)
                  end) xs)
  | JObj fs =>
      HObj fs ((fix go (l : list (string * jv)) : Forall (fun kv => P (snd kv)) l :=
                  match l with
                  | [] => Forall_nil _
                  | kv :: r => Forall_cons _ (jv_ind_nested (snd kv)) (go r)
                  end) fs)
  end.
End jv_rect_nested.

(** ** Exceptions *)

Inductive js_error : Type :=
| TypeError
| RangeError
| SyntaxError
| Error (msg : string).

Inductive res (A : Type) : Type :=
| Ok (a : A)
| Throw (e : js_error).
Arguments Ok {A} a.
Arguments Throw {A} e.

Definition bind {A B} (m : res A) (k : A -> res B) : res B :=
  match m with
  | Ok a => k a
  | Throw e => Throw e
  end.

Notation "'let*' x ':=' m 'in' k" := (bind m (fun x => k))
  (at level 200, x name, m at level 100, k at level 200).

(** [xs.forEach] / [xs.map] with a callback that may throw. *)
Fixpoint mapM {A B} (f : A -> res B) (l : list A) : res (list B) :=
  match l with
  | [] => Ok []
  | x :: r => let* y := f x in let* ys := mapM f r in Ok (y :: ys)
  end.

Fixpoint foldM {A S} (f : S -> A -> res S) (s : S) (l : list A) : res S :=
  match l with
  | [] => Ok s
  | x :: r => let* s' := f s x in foldM f s' r
  end.

(** ** Strings (ASCII) *)

Definition ascii_lower (c : ascii) : ascii :=
  let n := nat_of_ascii c in
  if (65 <=? n)%nat && (n <=? 90)%nat then ascii_of_nat (n + 32) else c.

Definition ascii_upper (c : ascii) : ascii :=
  let n := nat_of_ascii c in
  if (97 <=? n)%nat && (n <=? 122)%nat then ascii_of_nat (n - 32) else c.

Fixpoint str_map (f : ascii -> ascii) (s : string) : string :=
  match s with
  | EmptyString => EmptyString
  | String c r => String (f c) (str_map f r)
  end.

(** [s.toLowerCase()] and [s.toUpperCase()] *)
Definition toLowerCase (s : string) : string := str_map ascii_lower s.
Definition toUpperCase (s : string) : string := str_map ascii_upper s.

(** [s.includes(w)] *)
Fixpoint includes (s w : string) : bool :=
  match s with
  | EmptyString => String.eqb w ""
  | String _ r => String.prefix w s || includes r w
  end.

(** [s.startsWith(w)] *)
Definition startsWith (s w : string) : bool := String.prefix w s.

(** [/[a-zA-Z0-9]/] on one character *)
Definition is_alnum (c : ascii) : bool :=
  let n := nat_of_ascii c in
  ((48 <=? n)%nat && (n <=? 57)%nat) || ((65 <=? n)%nat && (n <=? 90)%nat)
  || ((97 <=? n)%nat && (n <=? 122)%nat).

(** [path.replace(/[^a-zA-Z0-9]/g, '_')] *)
Definition sanitize (s : string) : string :=
  str_map (fun c => if is_alnum c then c else "_"%char) s.

(** [s.replace(w, r)] with a string pattern: the first occurrence only. *)
Fixpoint replace_first (s w r : string) : string :=
  if String.prefix w s then r ++ substring (String.length w) (String.length s - String.length w) s
  else match s with
       | EmptyString => EmptyString
       | String c t => String c (replace_first t w r)
       end.

(** [s.split(sep).pop()] for a one-character separator: the last segment. *)
Fixpoint last_segment (sep : ascii) (s : string) (acc : string) : string :=
  match s with
  | EmptyString => acc
  | String c r => if Ascii.eqb c sep then last_segment sep r "" else last_segment sep r (acc ++ String c "")
  end.

Fixpoint nat_to_string_aux (fuel n : nat) (acc : string) : string :=
  match fuel with
  | O => acc
  | S f =>
      let acc' := String (ascii_of_nat (48 + n mod 10)) acc in
      if (n <? 10)%nat then acc' else nat_to_string_aux f (n / 10) acc'
  end.

(** Decimal rendering of a natural number. *)
Definition nat_to_string (n : nat) : string := nat_to_string_aux (S n) n "".

Definition Z_to_string (z : Z) : string :=
  if (z <? 0)%Z then "-" ++ nat_to_string (Z.to_nat (Z.abs z)) else nat_to_string (Z.to_nat z).

Fixpoint concat_sep (sep : string) (l : list string) : string :=
  match l with
  | [] => ""
  | [x] => x
  | x :: r => x ++ sep ++ concat_sep sep r
  end.

(** ** Operations on JavaScript values *)

(** JavaScript truthiness ([!!v]). *)
Definition truthy (v : jv) : bool :=
  match v with
  | JUndef | JNull => false
  | JBool b => b
  | JNum n => negb (Z.eqb n 0)
  | JStr s => negb (String.eqb s "")
  | JArr _ | JObj _ => true
  end.

Fixpoint lookup (fs : list (string * jv)) (k : string) : option jv :=
  match fs with
  | [] => None
  | (k', v) :: r => if String.eqb k k' then Some v else lookup r k
  end.

(** [o[k] = v] on an object: overwrite in place or append. *)
Fixpoint set_field (fs : list (string * jv)) (k : string) (v : jv) : list (string * jv) :=
  match fs with
  | [] => [(k, v)]
  | (k', v') :: r => if String.eqb k k' then (k', v) :: r else (k', v') :: set_field r k v
  end.

(** The element of [xs] whose index, rendered in decimal, is [k]. *)
Fixpoint index_lookup {A} (xs : list A) (k : string) (i : nat) : option A :=
  match xs with
  | [] => None
  | x :: r => if String.eqb (nat_to_string i) k then Some x else index_lookup r k (S i)
  end.

Fixpoint indexed {A} (xs : list A) (i : nat) : list (string * A) :=
  match xs with
  | [] => []
  | x :: r => (nat_to_string i, x) :: indexed r (S i)
  end.

Fixpoint chars (s : string) : list jv :=
  match s with
  | EmptyString => []
  | String c r => JStr (String c "") :: chars r
  end.

(** Property access [v[k]] / [v.k]: a [TypeError] on [undefined] and [null]. *)
Definition get (v : jv) (k : string) : res jv :=
  match v with
  | JUndef | JNull => Throw TypeError
  | JObj fs => Ok (match lookup fs k with Some x => x | None => JUndef end)
  | JArr xs =>
      if String.eqb k "length" then Ok (JNum (Z.of_nat (List.length xs)))
      else Ok (match index_lookup xs k 0 with Some x => x | None => JUndef end)
  | JStr s =>
      if String.eqb k "length" then Ok (JNum (Z.of_nat (String.length s)))
      else Ok (match index_lookup (chars s) k 0 with Some x => x | None => JUndef end)
  | JBool _ | JNum _ => Ok JUndef
  end.

(** Optional chaining [v?.k]. *)
Definition opt_get (v : jv) (k : string) : res jv :=
  match v with
  | JUndef | JNull => Ok JUndef
  | _ => get v k
  end.

(** [Object.entries(v)]: a [TypeError] on [undefined] and [null]. *)
Definition entries (v : jv) : res (list (string * jv)) :=
  match v with
  | JUndef | JNull => Throw TypeError
  | JObj fs => Ok fs
  | JArr xs => Ok (indexed xs 0)
  | JStr s => Ok (indexed (chars s) 0)
  | JBool _ | JNum _ => Ok []
  end.

(** [a || b] *)
Definition js_or (a b : jv) : jv := if truthy a then a else b.

(** [Array.isArray(v) ? 'array' : typeof v] *)
Definition type_name (v : jv) : string :=
  match v with
  | JUndef => "undefined"
  | JNull => "object"
  | JBool _ => "boolean"
  | JNum _ => "number"
  | JStr _ => "string"
  | JArr _ => "array"
  | JObj _ => "object"
  end.

(** The string [String(v)] gives when it does not throw (see [to_string]). *)
Fixpoint to_str (v : jv) : string :=
  match v with
  | JUndef => "undefined"
  | JNull => "null"
  | JBool b => if b then "true" else "false"
  | JNum n => Z_to_string n
  | JStr s => s
  | JArr xs =>
      concat_sep "," (map (fun x => match x with JUndef | JNull => "" | _ => to_str x end) xs)
  | JObj _ => "[object Object]"
  end.

(** [String(v)] as JavaScript computes it on a parsed value: an object whose
    own key ["toString"] holds a (never callable) value has no usable
    [toString] and no primitive [valueOf], so the conversion throws a
    [TypeError]; an array joins its converted elements with [","]
    ([undefined] and [null] give [""]). *)
Fixpoint to_string (v : jv) : res string :=
  match v with
  | JArr xs =>
      let* ss := mapM (fun x => match x with JUndef | JNull => Ok "" | _ => to_string x end) xs in
      Ok (concat_sep "," ss)
  | JObj kvs =>
      if existsb (fun kv => String.eqb (fst kv) "toString") kvs then Throw TypeError
      else Ok "[object Object]"
  | _ => Ok (to_str v)
  end.

(** [a === b] on primitive values; two objects are never the same reference
    here, as all values come from one parse. *)
Definition strict_eq (a b : jv) : bool :=
  match a, b with
  | JUndef, JUndef | JNull, JNull => true
  | JBool x, JBool y => Bool.eqb x y
  | JNum x, JNum y => Z.eqb x y
  | JStr x, JStr y => String.eqb x y
  | _, _ => false
  end.

Definition is_str (v : jv) (s : string) : bool :=
  match v with JStr t => String.eqb t s | _ => false end.

(** [xs.length] for an array. *)
Definition arr_length (v : jv) : option nat :=
  match v with JArr xs => Some (List.length xs) | _ => None end.

(** [v?.toLowerCase().includes(w)]: [undefined] (falsy) on a missing value,
    a [TypeError] on a value without [toLowerCase]. *)
Definition opt_lower_includes (v : jv) (w : string) : res bool :=
  match v with
  | JUndef | JNull => Ok false
  | JStr s => Ok (includes (toLowerCase s) w)
  | _ => Throw TypeError
  end.

(** [o.k] on the fields of an object literal ([undefined] when absent). *)
Definition field (fs : list (string * jv)) (k : string) : jv :=
  match lookup fs k with Some v => v | None => JUndef end.

(** [o.p1.p2...pn[k] = v]: every step of the chain is a property read; the
    write is on an object (the chains used below only reach objects built
    by the code itself, or [undefined]). *)
Fixpoint set_in (o : jv) (path : list string) (k : string) (v : jv) : res jv :=
  match path with
  | [] =>
      match o with
      | JObj fs => Ok (JObj (set_field fs k v))
      | _ => Throw TypeError
      end
  | p :: ps =>
      let* child := get o p in
      let* child' := set_in child ps k v in
      match o with
      | JObj fs => Ok (JObj (set_field fs p child'))
      | _ => Throw TypeError
      end
  end.

(** * The parser: [src/utils/openapi-parser.ts] *)

(** ** [convertSwagger2Schema] (the unused [definitions] argument is dropped) *)

(** The converted form of a truthy value that is not an object: every field
    read on it is [undefined]. *)
Definition converted_base (fs : list (string * jv)) : list (string * jv) :=
  [("type", field fs "type"); ("format", field fs "format");
   ("description", field fs "description"); ("enum", field fs "enum");
   ("default", field fs "default"); ("example", field fs "example")].

Definition convert_ref (ref : jv) : res jv :=
  match ref with
  | JStr r => Ok (JObj [("$ref", JStr ("#/components/schemas/" ++ replace_first r "#/definitions/" ""))])
  | _ => Throw TypeError
  end.

(** The recursive calls of [convertSwagger2Schema] on the parts of an object
    [schema], through [f] (these helpers let the recursion be structural).

    [conv_field_with f fs k] is [f(schema[k])] when [schema[k]] is present
    (and [{}], the conversion of [undefined], otherwise). *)
Fixpoint conv_field_with (f : jv -> res jv) (fs : list (string * jv)) (k : string) : res jv :=
  match fs with
  | [] => Ok (JObj [])
  | (k', v) :: r => if String.eqb k k' then f v else conv_field_with f r k
  end.

(** [Object.entries(props).forEach(([key, prop]) => converted.properties[key] = f(prop))]
    on the list of entries, accumulating [converted.properties]. *)
Fixpoint conv_entries_with (f : jv -> res jv) (acc : list (string * jv)) (es : list (string * jv))
  : res (list (string * jv)) :=
  match es with
  | [] => Ok acc
  | (key, prop) :: r => let* c := f prop in conv_entries_with f (set_field acc key c) r
  end.

(** The same loop over the entries of an array, [(String(i), xs[i])]. *)
Fixpoint conv_items_with (f : jv -> res jv) (acc : list (string * jv)) (i : nat) (xs : list jv)
  : res (list (string * jv)) :=
  match xs with
  | [] => Ok acc
  | prop :: r => let* c := f prop in conv_items_with f (set_field acc (nat_to_string i) c) (S i) r
  end.

(** The converted [properties] of [schema] (whose [properties] is truthy). *)
Fixpoint conv_props_with (f : jv -> res jv) (fs : list (string * jv)) : res (list (string * jv)) :=
  match fs with
  | [] => Ok []
  | (k', v) :: r =>
      if String.eqb "properties" k' then
        match v with
        | JObj pfs => conv_entries_with f [] pfs
        | JArr xs => conv_items_with f [] 0%nat xs
        | JStr s => Ok (map (fun kv => (fst kv, JObj (converted_base []))) (indexed (chars s) 0))
        | _ => Ok []
        end
      else conv_props_with f r
  end.

(** [schema.allOf.map(f)]: only arrays have [map]. *)
Fixpoint conv_allOf_with (f : jv -> res jv) (fs : list (string * jv)) : res jv :=
  match fs with
  | [] => Ok JUndef
  | (k', v) :: r =>
      if String.eqb "allOf" k' then
        match v with
        | JArr xs => let* cs := mapM f xs in Ok (JArr cs)
        | _ => Throw TypeError
        end
      else conv_allOf_with f r
  end.

Fixpoint convertSwagger2Schema (schema : jv) : res jv :=
  match schema with
  | JUndef | JNull => Ok (JObj [])
  | JBool false | JNum 0 => Ok (JObj [])
  | JStr EmptyString => Ok (JObj [])
  | JBool _ | JNum _ | JStr _ | JArr _ => Ok (JObj (converted_base []))
  | JObj fs =>
      let ref := field fs "$ref" in
      if truthy ref then convert_ref ref else
      let converted := converted_base fs in
      let* converted :=
        if truthy (field fs "items") then
          let* ci := conv_field_with convertSwagger2Schema fs "items" in
          Ok (set_field converted "items" ci)
        else Ok converted in
      let* converted :=
        if truthy (field fs "properties") then
          let* ps := conv_props_with convertSwagger2Schema fs in
          Ok (set_field converted "properties" (JObj ps))
        else Ok converted in
      let converted :=
        if truthy (field fs "required") then set_field converted "required" (field fs "required")
        else converted in
      let* converted :=
        if truthy (field fs "allOf") then
          let* ca := conv_allOf_with convertSwagger2Schema fs in
          Ok (set_field converted "allOf" ca)
        else Ok converted in
      Ok (JObj converted)
  end.

(** ** [convertSwagger2Parameter] *)
Definition convertSwagger2Parameter (param : jv) : res jv :=
  let* name := get param "name" in
  let* in_ := get param "in" in
  let* description := get param "description" in
  let* required := get param "required" in
  let* deprecated := get param "deprecated" in
  let converted := [("name", name); ("in", in_); ("description", description);
                    ("required", required); ("deprecated", deprecated)] in
  let* schema := get param "schema" in
  if truthy schema then
    let* s := convertSwagger2Schema schema in
    Ok (JObj (app converted [("schema", s)]))
  else
    let* ty := get param "type" in
    let* fmt := get param "format" in
    let* en := get param "enum" in
    let* df := get param "default" in
    Ok (JObj (app converted [("schema", JObj [("type", ty); ("format", fmt); ("enum", en); ("default", df)])])).

(** ** [convertSwagger2Response] *)
Definition convertSwagger2Response (response : jv) : res jv :=
  let* description := get response "description" in
  let converted := [("description", js_or description (JStr "Response"))] in
  let* schema := get response "schema" in
  let* converted :=
    if truthy schema then
      let* s := convertSwagger2Schema schema in
      Ok (app converted [("content", JObj [("application/json", JObj [("schema", s)])])])
    else Ok converted in
  let* headers := get response "headers" in
  Ok (JObj (if truthy headers then app converted [("headers", headers)] else converted)).

(** ** [convertSwagger2Operation] *)

(** The [requestBody] built for a formData parameter when none exists yet. *)
Definition form_request_body : jv :=
  JObj [("content", JObj [("application/x-www-form-urlencoded",
          JObj [("schema", JObj [("type", JStr "object"); ("properties", JObj [])])])])].

(** One iteration of [operation.parameters.forEach(param => ...)]: the state
    is the pair ([convertedParams], [requestBody]); [requestBody] starts as
    [null]. *)
Definition convert_param_step (st : list jv * jv) (param : jv) : res (list jv * jv) :=
  let '(convertedParams, requestBody) := st in
  let* in_ := get param "in" in
  if is_str in_ "body" then
    let* description := get param "description" in
    let* required := get param "required" in
    let* schema := get param "schema" in
    let* s := convertSwagger2Schema schema in
    Ok (convertedParams,
        JObj [("description", description); ("required", required);
              ("content", JObj [("application/json", JObj [("schema", s)])])])
  else if is_str in_ "formData" then
    let requestBody := if truthy requestBody then requestBody else form_request_body in
    let* name := get param "name" in
    let* ty := get param "type" in
    let* description := get param "description" in
    let* key := to_string name in
    let* rb := set_in requestBody ["content"; "application/x-www-form-urlencoded"; "schema"; "properties"]
                 key (JObj [("type", ty); ("description", description)]) in
    Ok (convertedParams, rb)
  else
    let* p := convertSwagger2Parameter param in
    Ok (app convertedParams [p], requestBody).

(** [xs.forEach(f)]: only arrays have [forEach]. *)
Definition forEach_array {S} (xs : jv) (f : S -> jv -> res S) (s : S) : res S :=
  match xs with
  | JArr l => foldM f s l
  | _ => Throw TypeError
  end.

Definition convertSwagger2Operation (operation : jv) : res jv :=
  let* summary := get operation "summary" in
  let* description := get operation "description" in
  let* operationId := get operation "operationId" in
  let* tags := get operation "tags" in
  let* deprecated := get operation "deprecated" in
  let head := [("summary", summary); ("description", description); ("operationId", operationId);
               ("tags", tags); ("deprecated", deprecated)] in
  let* parameters := get operation "parameters" in
  let* tail :=
    if truthy parameters then
      let* st := forEach_array parameters convert_param_step ([], JNull) in
      let '(convertedParams, requestBody) := st in
      Ok (app (if (0 <? List.length convertedParams)%nat then [("parameters", JArr convertedParams)] else [])
              (if truthy requestBody then [("requestBody", requestBody)] else []))
    else Ok [] in
  let* responses := get operation "responses" in
  let* converted_responses :=
    if truthy responses then
      let* es := entries responses in
      foldM (fun acc '(code, response) =>
               let* r := convertSwagger2Response response in Ok (set_field acc code r)) [] es
    else Ok [] in
  Ok (JObj (app head (("responses", JObj converted_responses) :: tail))).

(** ** [convertSwagger2Definitions] *)
Definition convertSwagger2Definitions (definitions : jv) : res jv :=
  let* es := entries definitions in
  let* fs := foldM (fun acc '(key, definition) =>
                      let* c := convertSwagger2Schema definition in Ok (set_field acc key c)) [] es in
  Ok (JObj fs).

Definition swagger2_methods : list string := ["get"; "post"; "put"; "delete"; "patch"; "options"; "head"].

(** The body of [Object.entries(swagger2.paths).forEach(([path, pathItem]) => ...)]. *)
Definition convert_path_item (pathItem : jv) : res jv :=
  let* ops := foldM (fun acc method =>
                       let* op := get pathItem method in
                       if truthy op then
                         let* c := convertSwagger2Operation op in Ok (set_field acc method c)
                       else Ok acc) [] swagger2_methods in
  let* params := get pathItem "parameters" in
  if truthy params then
    match params with
    | JArr ps => let* cs := mapM convertSwagger2Parameter ps in Ok (JObj (set_field ops "parameters" (JArr cs)))
    | _ => Throw TypeError
    end
  else Ok (JObj ops).

(** ** [convertSwagger2ToOpenAPI3] *)
Definition convertSwagger2ToOpenAPI3 (swagger2 : jv) : res jv :=
  let* info := opt_get swagger2 "info" in
  let* title := opt_get info "title" in
  let* version := opt_get info "version" in
  let* description := opt_get info "description" in
  let* termsOfService := opt_get info "termsOfService" in
  let* contact := opt_get info "contact" in
  let* license := opt_get info "license" in
  let info3 := JObj [("title", js_or title (JStr "API")); ("version", js_or version (JStr "1.0.0"));
                     ("description", description); ("termsOfService", termsOfService);
                     ("contact", contact); ("license", license)] in
  (* converted paths *)
  let* paths := get swagger2 "paths" in
  let* paths3 :=
    if truthy paths then
      let* es := entries paths in
      foldM (fun acc '(path, pathItem) =>
               let* c := convert_path_item pathItem in Ok (set_field acc path c)) [] es
    else Ok [] in
  let openapi3 := [("openapi", JStr "3.0.0"); ("info", info3); ("paths", JObj paths3)] in
  (* servers *)
  let* host := get swagger2 "host" in
  let* basePath := get swagger2 "basePath" in
  let* openapi3 :=
    if truthy host || truthy basePath then
      let* schemes := opt_get swagger2 "schemes" in
      let* scheme0 := opt_get schemes "0" in
      let protocol := js_or scheme0 (JStr "https") in
      let host' := js_or host (JStr "localhost") in
      let basePath' := js_or basePath (JStr "") in
      let* protocol_s := to_string protocol in
      let* host_s := to_string host' in
      let* basePath_s := to_string basePath' in
      Ok (set_field openapi3 "servers"
            (JArr [JObj [("url", JStr (protocol_s ++ "://" ++ host_s ++ basePath_s));
                         ("description", JStr "Converted from Swagger 2.0")]]))
    else Ok openapi3 in
  (* tags *)
  let* tags := get swagger2 "tags" in
  let openapi3 := if truthy tags then set_field openapi3 "tags" tags else openapi3 in
  (* definitions -> components.schemas *)
  let* definitions := get swagger2 "definitions" in
  let* openapi3 :=
    if truthy definitions then
      let* schemas := convertSwagger2Definitions definitions in
      Ok (set_field openapi3 "components" (JObj [("schemas", schemas)]))
    else Ok openapi3 in
  Ok (JObj openapi3).

(** ** [parseFromText]

    [JSON.parse] and [yaml.load] are library functions: they are parameters,
    [None] standing for a thrown exception.  The parser object's field
    [this.spec] is the state threaded through; [parseFromText] returns the
    new value of [this.spec] together with its outcome. *)

Section Parse.
Variable json_parse : string -> option jv.
Variable yaml_load : string -> option jv.

(** [(spec.swagger && spec.swagger.startsWith('2.'))] *)
Definition is_swagger2 (spec : jv) : res bool :=
  let* sw := get spec "swagger" in
  if truthy sw then
    match sw with
    | JStr s => Ok (startsWith s "2.")
    | _ => Throw TypeError
    end
  else Ok false.

Definition parseFromText (this_spec : jv) (content : string) : jv * res jv :=
  let parsed := match json_parse content with
                | Some v => Some v
                | None => yaml_load content
                end in
  match parsed with
  | None => (this_spec, Throw (Error "Invalid OpenAPI specification format. Please provide valid JSON or YAML."))
  | Some spec =>
      (* [this.spec] has been assigned [spec] *)
      if negb (truthy spec) then (spec, Throw (Error "Invalid specification format."))
      else
        match is_swagger2 spec with
        | Throw e => (spec, Throw e)
        | Ok true =>
            match convertSwagger2ToOpenAPI3 spec with
            | Ok converted => (converted, Ok converted)
            | Throw e => (spec, Throw e)
            end
        | Ok false =>
            match get spec "openapi" with
            | Ok o =>
                if truthy o then (spec, Ok spec)
                else (spec, Throw (Error "Invalid OpenAPI specification. Missing openapi version."))
            | Throw e => (spec, Throw e)
            end
        end
  end.
End Parse.

Example scenario_b_convert :
  convertSwagger2ToOpenAPI3
    (JObj [("swagger", JStr "2.0"); ("info", JObj [("title", JStr "T"); ("version", JStr "1")]);
           ("paths", JObj [("/x", JObj [("get", JObj [("responses", JObj [("200", JObj [("description", JStr "ok")])])])])])])
  = Ok (JObj [("openapi", JStr "3.0.0");
              ("info", JObj [("title", JStr "T"); ("version", JStr "1"); ("description", JUndef);
                             ("termsOfService", JUndef); ("contact", JUndef); ("license", JUndef)]);
              ("paths", JObj [("/x", JObj [("get", JObj [("summary", JUndef); ("description", JUndef);
                  ("operationId", JUndef); ("tags", JUndef); ("deprecated", JUndef);
                  ("responses", JObj [("200", JObj [("description", JStr "ok")])])])])])]).
Proof. reflexivity. Qed.

(** ** Derived endpoint metrics *)

Inductive complexity_level := Low | Medium | High.
Inductive response_time := Fast | MediumTime | Slow.

(** [xs.some(f)] with a callback that may throw; short-circuits. *)
Fixpoint someM (f : jv -> res bool) (l : list jv) : res bool :=
  match l with
  | [] => Ok false
  | x :: r => let* b := f x in if b then Ok true else someM f r
  end.

(** [x.length > k] for a truthy value [x] (lengths are numbers here). *)
Definition length_gt (x : jv) (k : Z) : res bool :=
  let* len := get x "length" in
  Ok (match len with JNum n => (k <? n)%Z | _ => false end).

(** [Object.keys(operation.responses || {}).length] *)
Definition responseCount (operation : jv) : res nat :=
  let* responses := get operation "responses" in
  let* es := entries (js_or responses (JObj [])) in
  Ok (List.length es).

(** [calculateComplexity]: the running score, step by step. Scores are exact
    rationals. *)
Definition complexity_score (operation : jv) (parameters : list jv) (hasRequestBody : bool) : res Q :=
  let score := 0%Q in
  let score := (score + inject_Z (Z.of_nat (List.length parameters)) * (1#2))%Q in
  let score := if hasRequestBody then (score + 2)%Q else score in
  let* rc := responseCount operation in
  let score := (score + inject_Z (Z.of_nat rc) * (3#10))%Q in
  let* security := get operation "security" in
  let* sec := if truthy security then length_gt security 0 else Ok false in
  let score := if sec then (score + 1)%Q else score in
  let* tags := get operation "tags" in
  let* tg := if truthy tags then length_gt tags 1 else Ok false in
  let score := if tg then (score + (1#2))%Q else score in
  Ok score.

Definition classify_complexity (score : Q) : complexity_level :=
  if Qle_bool score 2 then Low
  else if Qle_bool score 5 then Medium
  else High.

Definition calculateComplexity (operation : jv) (parameters : list jv) (hasRequestBody : bool)
  : res complexity_level :=
  let* score := complexity_score operation parameters hasRequestBody in
  Ok (classify_complexity score).

(** [p.name.toLowerCase().includes(w)]: a [TypeError] when [p] has no
    string [name]. *)
Definition name_includes (p : jv) (w : string) : res bool :=
  let* name := get p "name" in
  match name with
  | JStr s => Ok (includes (toLowerCase s) w)
  | _ => Throw TypeError
  end.

(** [estimateResponseTime]: the running score, step by step. *)
Definition response_time_score (operation : jv) (parameters : list jv) (hasRequestBody : bool) : res Z :=
  let score := 0%Z in
  let* operationId := get operation "operationId" in
  let* summary := get operation "summary" in
  let* fast :=
    let* a := opt_lower_includes operationId "get" in
    if a then Ok true else
    let* b := opt_lower_includes summary "get" in
    if b then Ok true else
    opt_lower_includes summary "list" in
  let score := if fast then (score - 1)%Z else score in
  let score := if hasRequestBody then (score + 1)%Z else score in
  let score := if (5 <? List.length parameters)%nat then (score + 1)%Z else score in
  let* slow :=
    let* a := opt_lower_includes summary "search" in
    if a then Ok true else
    let* b := opt_lower_includes summary "filter" in
    if b then Ok true else
    someM (fun p => let* x := name_includes p "search" in
                    if x then Ok true else name_includes p "filter") parameters in
  let score := if slow then (score + 1)%Z else score in
  Ok score.

Definition classify_response_time (score : Z) : response_time :=
  if (score <=? 0)%Z then Fast
  else if (score <=? 1)%Z then MediumTime
  else Slow.

Definition estimateResponseTime (operation : jv) (parameters : list jv) (hasRequestBody : bool)
  : res response_time :=
  let* score := response_time_score operation parameters hasRequestBody in
  Ok (classify_response_time score).

(** [xs.join(sep)] on an array. *)
Definition join (xs : jv) (sep : string) : res string :=
  match xs with
  | JArr l =>
      let* ss := mapM (fun x => match x with JUndef | JNull => Ok "" | _ => to_string x end) l in
      Ok (concat_sep sep ss)
  | _ => Throw TypeError
  end.

(** [generateBusinessContext] *)
Definition generateBusinessContext (operation : jv) : res string :=
  let* tags0 := get operation "tags" in
  let* tags := match tags0 with
               | JUndef | JNull => Ok JUndef
               | _ => let* j := join tags0 ", " in Ok (JStr j)
               end in
  let tags := to_str (js_or tags (JStr "General")) in
  let* summary0 := get operation "summary" in
  let summary := js_or summary0 (JStr "No summary available") in
  let mentions w := opt_lower_includes summary0 w in
  let* c1 := let* a := mentions "create" in if a then Ok true else mentions "add" in
  if c1 then Ok ("Business Impact: Creates new " ++ toLowerCase tags ++ " resources. Use this endpoint to add new data to the system.") else
  let* c2 := let* a := mentions "get" in if a then Ok true else
             let* b := mentions "list" in if b then Ok true else mentions "fetch" in
  if c2 then Ok ("Business Impact: Retrieves " ++ toLowerCase tags ++ " information. Use this endpoint to access and display data to users.") else
  let* c3 := let* a := mentions "update" in if a then Ok true else mentions "modify" in
  if c3 then Ok ("Business Impact: Updates existing " ++ toLowerCase tags ++ " resources. Use this endpoint to modify data based on user actions.") else
  let* c4 := let* a := mentions "delete" in if a then Ok true else mentions "remove" in
  if c4 then Ok ("Business Impact: Removes " ++ toLowerCase tags ++ " resources. Use this endpoint to clean up or delete data as requested by users.") else
  (* [summary] is a string: [mentions] threw on any other truthy [operation.summary] *)
  Ok ("Business Impact: " ++ to_str summary ++ " - Part of " ++ tags ++ " functionality.").

(** [operation.parameters?.some(p => p.name?.toLowerCase().includes(w))] *)
Definition params_mention (operation : jv) (w : string) : res bool :=
  let* ps := get operation "parameters" in
  match ps with
  | JUndef | JNull => Ok false
  | JArr l => someM (fun p => let* name := get p "name" in opt_lower_includes name w) l
  | _ => Throw TypeError
  end.

(** [generateAISuggestions] *)
Definition generateAISuggestions (operation : jv) (path method : string) : res (list string) :=
  let m := toLowerCase method in
  let has_id := includes path "{id}" in
  let suggestions :=
    if String.eqb m "get" && has_id then
      ["💡 Perfect for fetching specific record details in your app";
       "🔍 Can be used for detail views, edit forms, or data validation"]
    else if String.eqb m "get" && negb has_id then
      ["📋 Ideal for listing data in tables, dropdowns, or search results";
       "🔄 Consider implementing pagination if not already present"]
    else if String.eqb m "post" then
      ["✨ Use for creating new records from user forms";
       "💾 Remember to validate input data before submission"]
    else if String.eqb m "put" || String.eqb m "patch" then
      ["✏️ Perfect for edit forms and data updates";
       "🔒 Ensure proper authorization before allowing updates"]
    else if String.eqb m "delete" then
      ["🗑️ Implement confirmation dialogs for better UX";
       "⚠️ Consider soft deletes for important business data"]
    else [] in
  let* lim := params_mention operation "limit" in
  let suggestions := if lim then app suggestions ["⚡ Supports pagination - great for performance"] else suggestions in
  let* fil := params_mention operation "filter" in
  let suggestions := if fil then app suggestions ["🎯 Supports filtering - perfect for search functionality"] else suggestions in
  Ok suggestions.

(** ** [extractEndpoints] *)

Record EndpointData := {
  ep_id : string;
  ep_path : string;
  ep_method : string;
  ep_operation : jv;
  ep_tags : jv;
  ep_summary : jv;
  ep_description : jv;
  ep_parameters : list jv;
  ep_requestBody : jv;
  ep_responses : list (string * jv);
  ep_deprecated : jv;
  ep_businessContext : string;
  ep_aiSuggestions : list string;
  ep_complexity : complexity_level;
  ep_security : jv;
  ep_pathSegments : list string;
  ep_hasPathParams : bool;
  ep_hasQueryParams : bool;
  ep_hasRequestBody : bool;
  ep_responseTypes : list string;
  ep_estimatedResponseTime : response_time
}.

Definition endpoint_methods : list string :=
  ["get"; "post"; "put"; "delete"; "patch"; "options"; "head"; "trace"].

(** [[...xs]]: arrays and strings are iterable. *)
Definition spread (xs : jv) : res (list jv) :=
  match xs with
  | JArr l => Ok l
  | JStr s => Ok (chars s)
  | _ => Throw TypeError
  end.

(** [extractParameters(operationParams, pathParams)]: path-level first; the
    [map] reads [param.$ref] and returns [param] either way. *)
Definition extractParameters (operationParams pathParams : jv) : res (list jv) :=
  let* a := spread pathParams in
  let* b := spread operationParams in
  mapM (fun param => let* _ := get param "$ref" in Ok param) (app a b).

(** [extractResponses] *)
Definition extractResponses (responses : jv) : res (list (string * jv)) :=
  let* es := entries responses in
  foldM (fun acc '(code, response) =>
           let* _ := get response "$ref" in Ok (set_field acc code response)) [] es.

(** [path.split('/').filter(Boolean)] *)
Fixpoint split_slash (s : string) (acc : string) : list string :=
  match s with
  | EmptyString => [acc]
  | String c r => if Ascii.eqb c "/"%char then acc :: split_slash r "" else split_slash r (acc ++ String c "")
  end.

Definition pathSegments_of (path : string) : list string :=
  filter (fun seg => negb (String.eqb seg "")) (split_slash path "").

(** [`${method.toUpperCase()}_${path.replace(/[^a-zA-Z0-9]/g, '_')}`] *)
Definition endpoint_id (method path : string) : string :=
  toUpperCase method ++ "_" ++ sanitize path.

Definition extract_endpoint (path : string) (pathItem operation : jv) (method : string) : res EndpointData :=
  let* op_params := get operation "parameters" in
  let* path_params := get pathItem "parameters" in
  let* parameters := extractParameters (js_or op_params (JArr [])) (js_or path_params (JArr [])) in
  let hasPathParams := includes path "{" in
  let* hasQueryParams := someM (fun p => let* i := get p "in" in Ok (is_str i "query")) parameters in
  let* requestBody := get operation "requestBody" in
  let hasRequestBody := truthy requestBody in
  let* responses0 := get operation "responses" in
  let* responseTypes := entries (js_or responses0 (JObj [])) in
  let* tags := get operation "tags" in
  let* summary := get operation "summary" in
  let* description := get operation "description" in
  let* responses := extractResponses responses0 in
  let* deprecated := get operation "deprecated" in
  let* businessContext := generateBusinessContext operation in
  let* aiSuggestions := generateAISuggestions operation path method in
  let* complexity := calculateComplexity operation parameters hasRequestBody in
  let* security := get operation "security" in
  let* estimatedResponseTime := estimateResponseTime operation parameters hasRequestBody in
  Ok {| ep_id := endpoint_id method path;
        ep_path := path;
        ep_method := toUpperCase method;
        ep_operation := operation;
        ep_tags := js_or tags (JArr []);
        ep_summary := summary;
        ep_description := description;
        ep_parameters := parameters;
        ep_requestBody := requestBody;
        ep_responses := responses;
        ep_deprecated := js_or deprecated (JBool false);
        ep_businessContext := businessContext;
        ep_aiSuggestions := aiSuggestions;
        ep_complexity := complexity;
        ep_security := security;
        ep_pathSegments := pathSegments_of path;
        ep_hasPathParams := hasPathParams;
        ep_hasQueryParams := hasQueryParams;
        ep_hasRequestBody := hasRequestBody;
        ep_responseTypes := map fst responseTypes;
        ep_estimatedResponseTime := estimatedResponseTime |}.

(** The endpoints of one path item, in the fixed method order. *)
Definition extract_path_item (path : string) (pathItem : jv) : res (list EndpointData) :=
  foldM (fun acc method =>
           let* operation := get pathItem method in
           if truthy operation then
             let* e := extract_endpoint path pathItem operation method in Ok (app acc [e])
           else Ok acc) [] endpoint_methods.

Definition extractEndpoints (this_spec : jv) : res (list EndpointData) :=
  if negb (truthy this_spec) then Ok [] else
  let* paths := get this_spec "paths" in
  let* es := entries paths in
  foldM (fun acc '(path, pathItem) =>
           let* eps := extract_path_item path pathItem in Ok (app acc eps)) [] es.

(** ** [getAllTags]

    The values added to the [Set] in the order the code adds them; the
    [Set] and the final [.sort()] change neither which values are listed
    nor (for the statements below) anything but their order and
    multiplicity, so the list is kept as collected. *)
Definition getAllTags_collected (this_spec : jv) : res (list jv) :=
  if negb (truthy this_spec) then Ok [] else
  let* spec_tags := get this_spec "tags" in
  let* acc := match spec_tags with
              | JUndef | JNull => Ok []
              | _ => forEach_array spec_tags (fun acc tag => let* n := get tag "name" in Ok (app acc [n])) []
              end in
  let* paths := get this_spec "paths" in
  let* es := entries paths in
  foldM (fun acc '(_, pathItem) =>
           foldM (fun acc method =>
                    let* operation := get pathItem method in
                    let* tags := opt_get operation "tags" in
                    if truthy tags then forEach_array tags (fun acc tag => Ok (app acc [tag])) acc
                    else Ok acc) acc endpoint_methods) acc es.

(** * The MCP server: [src/mcp/server.ts] *)

(** The fields of [OpenAPIExplorerMCPServer] that hold the session:
    [currentSpec], [currentEndpoints], and the parser's own [spec]. *)
Record Session := {
  currentSpec : jv;
  currentEndpoints : list EndpointData;
  parser_spec : jv
}.

Definition initial_session : Session :=
  {| currentSpec := JNull; currentEndpoints := []; parser_spec := JNull |}.

(** ** [validateRequestExamples]: the local function [validateExample]

    [validateExample] is a closure over [this.currentSpec] and [strictMode].
    The relational operators [<] / [>] of JavaScript (which never throw on
    parsed JSON values) and [new RegExp(p).test(x)] (whose constructor throws
    a [SyntaxError] on an invalid pattern, [None] here) are parameters.  The
    [fuel] is the call-stack budget: exhausting it is a [RangeError], as a
    stack overflow is in JavaScript. *)

Inductive violation_kind :=
| TypeMismatch (expected : jv) (actual : string)
| StringTooShort
| StringTooLong
| PatternMismatch
| NotInEnum
| NumberTooSmall
| NumberTooLarge
| RequiredMissing
| AdditionalProperty.

Record violation := { v_path : string; v_kind : violation_kind }.

(** [key in obj]: a [TypeError] when [obj] is not an object, then the
    conversion of [key] to a property key. *)
Definition js_in (key obj : jv) : res bool :=
  match obj with
  | JObj fs => let* k := to_string key in Ok (existsb (fun kv => String.eqb (fst kv) k) fs)
  | JArr xs =>
      let* k := to_string key in
      Ok (String.eqb k "length" || existsb (fun kv => String.eqb (fst kv) k) (indexed xs 0))
  | _ => Throw TypeError
  end.

(** [xs.includes(x)] *)
Definition js_includes (xs x : jv) : res bool :=
  match xs with
  | JArr l => Ok (existsb (strict_eq x) l)
  | JStr s => let* t := to_string x in Ok (includes s t)
  | _ => Throw TypeError
  end.

Section ValidateExample.
Variable currentSpec : jv.
Variable strictMode : bool.
Variable js_lt : jv -> jv -> bool.
Variable regex_test : jv -> jv -> option bool.

Fixpoint validateExample (fuel : nat) (example schema : jv) (path : string) : res (list violation) :=
  match fuel with
  | O => Throw RangeError
  | S fuel' =>
    if negb (truthy schema) || negb (truthy example) then Ok [] else
    let* ref := get schema "$ref" in
    if truthy ref then
      match ref with
      | JStr r =>
          let refName := last_segment "/"%char r "" in
          let* components := opt_get currentSpec "components" in
          let* schemas := opt_get components "schemas" in
          let* target := opt_get schemas refName in
          if truthy target then validateExample fuel' example target path else Ok []
      | _ => Throw TypeError
      end
    else
    let* ty := get schema "type" in
    if negb (truthy ty) then Ok [] else
    let actualType := type_name example in
    let expectedType := if is_str ty "integer" then JStr "number" else ty in
    let errors := if is_str expectedType actualType then []
                  else [{| v_path := path; v_kind := TypeMismatch expectedType actualType |}] in
    let push errs k := app errs [{| v_path := path; v_kind := k |}] in
    (* strings *)
    let* errors :=
      if is_str ty "string" then
        let* len := get example "length" in
        let* minLength := get schema "minLength" in
        let errors := if truthy minLength && js_lt len minLength then push errors StringTooShort else errors in
        let* maxLength := get schema "maxLength" in
        let errors := if truthy maxLength && js_lt maxLength len then push errors StringTooLong else errors in
        let* pattern := get schema "pattern" in
        let* errors :=
          if truthy pattern then
            match regex_test pattern example with
            | None => Throw SyntaxError
            | Some true => Ok errors
            | Some false => Ok (push errors PatternMismatch)
            end
          else Ok errors in
        let* en := get schema "enum" in
        if truthy en then
          let* included := js_includes en example in
          if included then Ok errors else let* _ := join en ", " in Ok (push errors NotInEnum)
        else Ok errors
      else Ok errors in
    (* numbers *)
    let* errors :=
      if is_str ty "number" || is_str ty "integer" then
        let* minimum := get schema "minimum" in
        let errors := if negb (strict_eq minimum JUndef) && js_lt example minimum
                      then push errors NumberTooSmall else errors in
        let* maximum := get schema "maximum" in
        let errors := if negb (strict_eq maximum JUndef) && js_lt maximum example
                      then push errors NumberTooLarge else errors in
        Ok errors
      else Ok errors in
    (* objects *)
    let* properties := get schema "properties" in
    let* errors :=
      if is_str ty "object" && truthy properties then
        let* required := get schema "required" in
        let* errors :=
          if truthy required then
            forEach_array required
              (fun errs reqProp =>
                 let* present := js_in reqProp example in
                 (* [js_in] has converted [reqProp]: [to_str] is that string *)
                 Ok (if present then errs
                     else app errs [{| v_path := path ++ "." ++ to_str reqProp; v_kind := RequiredMissing |}]))
              errors
          else Ok errors in
        let* es := entries example in
        foldM (fun errs '(prop, value) =>
                 let* sub := get properties prop in
                 if truthy sub then
                   let* more := validateExample fuel' value sub (path ++ "." ++ prop) in Ok (app errs more)
                 else if strictMode then
                   Ok (app errs [{| v_path := path ++ "." ++ prop; v_kind := AdditionalProperty |}])
                 else Ok errs) errors es
      else Ok errors in
    (* arrays *)
    let* items := get schema "items" in
    if is_str ty "array" && truthy items then
      match example with
      | JArr xs =>
          foldM (fun errs '(index, item) =>
                   let* more := validateExample fuel' item items (path ++ "[" ++ index ++ "]") in
                   Ok (app errs more)) errors (indexed xs 0)
      | _ => Throw TypeError
      end
    else Ok errors
  end.
End ValidateExample.

(** ** [findUnusedSchemas] *)

(** [usedSchemas.add(name)] on a [Set] kept as a duplicate-free list in
    insertion order. *)
Definition set_add (name : string) (used : list string) : list string :=
  if existsb (String.eqb name) used then used else app used [name].

(** The local function [findRefs], adding to [usedSchemas]. *)
Fixpoint findRefs (obj : jv) (used : list string) : list string :=
  match obj with
  | JArr xs =>
      (fix go (l : list jv) (u : list string) : list string :=
         match l with [] => u | x :: r => go r (findRefs x u) end) xs used
  | JObj fs =>
      let used :=
        match field fs "$ref" with
        | JStr r =>
            let refName := last_segment "/"%char r "" in
            if negb (String.eqb r "") && negb (String.eqb refName "") then set_add refName used else used
        | _ => used
        end in
      (fix go (l : list (string * jv)) (u : list string) : list string :=
         match l with [] => u | (_, v) :: r => go r (findRefs v u) end) fs used
  | _ => used
  end.

(** One pass of the [while] body: [Array.from(usedSchemas).forEach(...)]
    over a snapshot of the set. *)
Definition rescan (schemas : jv) (used : list string) : list string :=
  fold_left (fun u schemaName =>
               match get schemas schemaName with
               | Ok s => if truthy s then findRefs s u else u
               | Throw _ => u
               end) used used.

(** [while (usedSchemas.size !== previousSize) { previousSize = usedSchemas.size; ... }] *)
Fixpoint indirect_loop (fuel : nat) (schemas : jv) (previousSize : nat) (used : list string) : list string :=
  match fuel with
  | O => used
  | S f =>
      if Nat.eqb (List.length used) previousSize then used
      else indirect_loop f schemas (List.length used) (rescan schemas used)
  end.

(** Insertion sort with the default (code-unit) order of [Array.prototype.sort]. *)
Fixpoint insert_sorted (x : string) (l : list string) : list string :=
  match l with
  | [] => [x]
  | y :: r => if String.leb x y then x :: y :: r else y :: insert_sorted x r
  end.

Fixpoint sort_strings (l : list string) : list string :=
  match l with
  | [] => []
  | x :: r => insert_sorted x (sort_strings r)
  end.

(** ** IEEE 754 binary64 arithmetic on non-negative values *)

(** [a / b] rounded to the nearest integer, ties to even ([b > 0]). *)
Definition round_half_even (a b : Z) : Z :=
  let q := (a / b)%Z in
  let r := (a mod b)%Z in
  match Z.compare (2 * r) b with
  | Lt => q
  | Gt => (q + 1)%Z
  | Eq => if Z.even q then q else (q + 1)%Z
  end.

(** The double nearest to a non-negative rational [x] (ties to even): with
    [2^E <= x < 2^(E+1)], [x] is rounded to a multiple of [2^(E-52)] (53
    significant bits).  The values here stay in the normal range, far from
    underflow and overflow. *)
Definition dbl (x : Q) : Q :=
  let n := Qnum x in
  let d := Zpos (Qden x) in
  if (n <=? 0)%Z then 0%Q else
  let k := (Z.log2 n - Z.log2 d)%Z in
  let ge_2k := if (0 <=? k)%Z then (Z.shiftl d k <=? n)%Z else (d <=? Z.shiftl n (- k))%Z in
  let E := if ge_2k then k else (k - 1)%Z in
  let e := (E - 52)%Z in
  if (e <=? 0)%Z then
    Qmake (round_half_even (Z.shiftl n (- e)) d) (Z.to_pos (Z.shiftl 1 (- e)))
  else inject_Z (Z.shiftl (round_half_even n (Z.shiftl d e)) e).

(** [a / b] and [a * b] on doubles. *)
Definition fdiv (a b : Q) : Q := dbl (a / b).
Definition fmul (a b : Q) : Q := dbl (a * b).

(** [Math.round(x)]: the integer nearest to [x], ties towards +infinity. *)
Definition math_round (x : Q) : Z := Qfloor (x + (1 # 2)).

(** [Math.round((used / total) * 100)], both operations on doubles;
    [NaN] (from [0 / 0] on an empty schema set) is [None], shown as [null]
    by [JSON.stringify]. *)
Definition usage_percentage (used total : nat) : option Z :=
  if Nat.eqb total 0 then None
  else Some (math_round (fmul (fdiv (inject_Z (Z.of_nat used)) (inject_Z (Z.of_nat total))) (inject_Z 100))).


Record UnusedReport := {
  totalSchemas : nat;
  usedSchemas : list string;
  unusedSchemas : list string;
  unusedCount : nat;
  usagePercentage : option Z
}.

(** The schema names, [Object.keys(schemas)]. *)
Definition schema_keys (schemas : jv) : list string :=
  match entries schemas with Ok es => map fst es | Throw _ => [] end.

(** The reachable set the handler computes. *)
Definition used_schemas (spec : jv) (includeIndirectReferences : bool) : list string :=
  let paths := match get spec "paths" with Ok p => p | Throw _ => JUndef end in
  let components := match opt_get spec "components" with Ok c => c | Throw _ => JUndef end in
  let schemas := match opt_get components "schemas" with Ok s => s | Throw _ => JUndef end in
  let used := findRefs paths [] in
  let used := if truthy components then findRefs components used else used in
  if includeIndirectReferences
  then indirect_loop (S (List.length (schema_keys schemas))) schemas 0 used
  else used.

(** [findUnusedSchemas(args)] on the current document; [None] is the
    "No OpenAPI specification or schemas loaded." answer. *)
Definition findUnusedSchemas (spec : jv) (includeIndirectReferences : bool) : option UnusedReport :=
  if negb (truthy spec) then None else
  match opt_get spec "components" with
  | Throw _ => None
  | Ok components =>
  match opt_get components "schemas" with
  | Throw _ => None
  | Ok schemas =>
    if negb (truthy schemas) then None else
    let used := used_schemas spec includeIndirectReferences in
    let allSchemas := schema_keys schemas in
    let unused := filter (fun name => negb (existsb (String.eqb name) used)) allSchemas in
    Some {| totalSchemas := List.length allSchemas;
            usedSchemas := sort_strings used;
            unusedSchemas := sort_strings unused;
            unusedCount := List.length unused;
            usagePercentage := usage_percentage (List.length used) (List.length allSchemas) |}
  end
  end.

Example scenario_e_indirect :
  option_map unusedSchemas
    (findUnusedSchemas
       (JObj [("openapi", JStr "3.0.0");
              ("paths", JObj [("/a", JObj [("get", JObj [("responses", JObj [("200", JObj [("content",
                  JObj [("application/json", JObj [("schema", JObj [("$ref", JStr "#/components/schemas/A")])])])])])])])]);
              ("components", JObj [("schemas", JObj [
                  ("A", JObj [("type", JStr "object"); ("properties", JObj [("b", JObj [("$ref", JStr "#/components/schemas/B")])])]);
                  ("B", JObj [("type", JStr "string")])])])]) true)
  = Some [].
Proof. reflexivity. Qed.

(** * Auxiliary definitions for the properties *)

Definition collision_doc : jv :=
  JObj [("openapi", JStr "3.0.0");
        ("paths", JObj [("/a-b", JObj [("get", JObj [("responses", JObj [])])]);
                        ("/a_b", JObj [("get", JObj [("responses", JObj [])])])])].

Definition id_shaped (e : EndpointData) : Prop :=
  exists m, In m endpoint_methods /\ ep_method e = toUpperCase m /\ ep_id e = endpoint_id m (ep_path e).

(** The shapes the OpenAPI data model gives to [responses] (an object),
    [security] and [tags] (arrays), each possibly absent. *)
Definition object_or_absent (v : jv) : Prop := v = JUndef \/ exists fs, v = JObj fs.
Definition array_or_absent (v : jv) : Prop := v = JUndef \/ exists l, v = JArr l.

Definition object_keys (v : jv) : list string :=
  match v with JObj fs => map fst fs | _ => [] end.
Definition array_elems (v : jv) : list jv :=
  match v with JArr l => l | _ => [] end.

(** The closed form of the complexity heuristic, as the claim states it. *)
Definition complexity_formula (parameterCount : nat) (hasRequestBody : bool)
  (responseCodeCount : nat) (anySecurity manyTags : bool) : Q :=
  (1#2) * inject_Z (Z.of_nat parameterCount) + (if hasRequestBody then 2 else 0)
  + (3#10) * inject_Z (Z.of_nat responseCodeCount) + (if anySecurity then 1 else 0)
  + (if manyTags then (1#2) else 0).

Definition scenario_a_operation : list (string * jv) :=
  [("parameters", JArr (repeat (JObj [("name", JStr "p"); ("in", JStr "query")]) 6));
   ("requestBody", JObj [("content", JObj [])]);
   ("responses", JObj [("200", JObj [("description", JStr "ok")])])].

Definition obj_field (v : jv) (k : string) : jv :=
  match v with JObj fs => field fs k | _ => JUndef end.

(** [v] mentions [w]: a string whose lower-cased form contains [w]. *)
Definition mentions (v : jv) (w : string) : bool :=
  match v with JStr s => includes (toLowerCase s) w | _ => false end.

(** The response-time heuristic read from the claim's words: the operation
    id or the summary mentioning "get" or "list" decrements the score. *)
Definition spec_response_time_score (operation : jv) (parameters : list jv)
  (hasRequestBody : bool) : Z :=
  let opId := obj_field operation "operationId" in
  let summary := obj_field operation "summary" in
  (if mentions opId "get" || mentions opId "list" || mentions summary "get"
      || mentions summary "list" then -1 else 0)
  + (if hasRequestBody then 1 else 0)
  + (if (5 <? List.length parameters)%nat then 1 else 0)
  + (if mentions summary "search" || mentions summary "filter"
        || existsb (fun p => mentions (obj_field p "name") "search"
                             || mentions (obj_field p "name") "filter") parameters
     then 1 else 0).

Definition string_or_absent (v : jv) : Prop :=
  v = JUndef \/ v = JNull \/ exists s, v = JStr s.

Definition named_parameter (p : jv) : Prop :=
  exists pfs s, p = JObj pfs /\ field pfs "name" = JStr s.

Definition is_form (p : jv) : bool := is_str (obj_field p "in") "formData".
Definition form_key (p : jv) : string := to_str (obj_field p "name").
Definition form_value (p : jv) : jv :=
  JObj [("type", obj_field p "type"); ("description", obj_field p "description")].

(** The [requestBody] holding the form fields [props]. *)
Definition form_body (props : list (string * jv)) : jv :=
  JObj [("content", JObj [("application/x-www-form-urlencoded",
          JObj [("schema", JObj [("type", JStr "object"); ("properties", JObj props)])])])].

(** The form fields collected so far ([None] before the first one). *)
Definition form_fold (acc : option (list (string * jv))) (p : jv) : option (list (string * jv)) :=
  if is_form p then Some (set_field (match acc with Some f => f | None => [] end) (form_key p) (form_value p))
  else acc.

Definition rb_of (acc : option (list (string * jv))) : jv :=
  match acc with Some f => form_body f | None => JNull end.

(** The value given by the last formData entry named [k], if any. *)
Definition last_form_value (ps : list jv) (k : string) : option jv :=
  fold_left (fun acc p => if is_form p && String.eqb (form_key p) k then Some (form_value p) else acc)
    ps None.

Definition form_properties (r : jv) : jv :=
  obj_field (obj_field (obj_field (obj_field (obj_field r "requestBody") "content")
    "application/x-www-form-urlencoded") "schema") "properties".

Definition body_param : jv :=
  JObj [("in", JStr "body"); ("name", JStr "payload"); ("schema", JObj [("type", JStr "object")])].
Definition form_param : jv :=
  JObj [("in", JStr "formData"); ("name", JStr "file"); ("type", JStr "string")].

Definition form_operation : list (string * jv) :=
  [("parameters", JArr [form_param;
                        JObj [("in", JStr "query"); ("name", JStr "q"); ("type", JStr "string")];
                        JObj [("in", JStr "formData"); ("name", JStr "file"); ("type", JStr "file")]]);
   ("responses", JObj [("200", JObj [("description", JStr "ok")])])].

(** The paths of a converted Swagger 2.0 document [C] against the source's
    paths [pfs]: the same path keys, at each path the same methods, and
    every response description kept (a falsy one becoming ["Response"]). *)
Definition paths_preserved (pfs : list (string * jv)) (C : jv) : Prop :=
  exists paths3, obj_field C "paths" = JObj paths3 /\
    (forall path, In path (map fst paths3) <-> In path (map fst pfs)) /\
    (forall path ifs, In (path, JObj ifs) pfs ->
       exists ops, obj_field (obj_field C "paths") path = JObj ops /\
       forall m, In m swagger2_methods ->
         (truthy (field ifs m) = true <-> lookup ops m <> None) /\
         (forall ofs rfs, field ifs m = JObj ofs -> field ofs "responses" = JObj rfs ->
            NoDup (map fst rfs) ->
            forall code rs, In (code, JObj rs) rfs ->
              obj_field (obj_field (obj_field (obj_field (JObj ops) m) "responses") code) "description"
              = js_or (field rs "description") (JStr "Response"))).

Definition scenario_b_doc (description : string) : list (string * jv) :=
  [("swagger", JStr "2.0"); ("info", JObj [("title", JStr "T"); ("version", JStr "1")]);
   ("paths", JObj [("/x", JObj [("get", JObj [("responses",
       JObj [("200", JObj [("description", JStr description)])])])])])].

Definition dual_doc : list (string * jv) :=
  [("openapi", JStr "3.1.0"); ("swagger", JStr "2.0"); ("info", JObj [("title", JStr "T"); ("version", JStr "1")]);
   ("paths", JObj [])].

(** The schema name a [$ref] string designates: its last ['/'] segment. *)
Definition ref_name (r : string) : string := last_segment "/"%char r "".

(** [RefIn o x]: a [$ref] naming [x] appears somewhere in [o]. *)
Inductive RefIn : jv -> string -> Prop :=
| RefIn_here fs r : field fs "$ref" = JStr r -> r <> "" -> ref_name r <> "" ->
    RefIn (JObj fs) (ref_name r)
| RefIn_field fs kv x : In kv fs -> RefIn (snd kv) x -> RefIn (JObj fs) x
| RefIn_elem xs v x : In v xs -> RefIn v x -> RefIn (JArr xs) x.

(** The reachable set of the claim: the [$ref] targets under [paths] and
    [components], closed, when [include] holds, under the targets found in
    the body of each reachable schema. *)
Inductive Reachable (include : bool) (paths components : jv) (schemas : list (string * jv))
  : string -> Prop :=
| reach_paths x : RefIn paths x -> Reachable include paths components schemas x
| reach_components x : RefIn components x -> Reachable include paths components schemas x
| reach_indirect n x : include = true -> Reachable include paths components schemas n ->
    RefIn (field schemas n) x -> Reachable include paths components schemas x.

Definition RefHere (fs : list (string * jv)) (x : string) : Prop :=
  exists r, field fs "$ref" = JStr r /\ r <> "" /\ ref_name r <> "" /\ x = ref_name r.

Definition findRefs_facts (o : jv) : Prop :=
  forall u, (NoDup u -> NoDup (findRefs o u)) /\
            (forall x, In x (findRefs o u) <-> In x u \/ RefIn o x) /\
            ((forall x, RefIn o x -> In x u) -> findRefs o u = u).

Definition scenario_e_schemas (a_refs_b : bool) : list (string * jv) :=
  [("A", JObj (("type", JStr "object") ::
               if a_refs_b then [("properties", JObj [("b", JObj [("$ref", JStr "#/components/schemas/B")])])]
               else []));
   ("B", JObj [("type", JStr "string")])].

Definition scenario_e_components (a_refs_b : bool) : list (string * jv) :=
  [("schemas", JObj (scenario_e_schemas a_refs_b))].

Definition scenario_e_doc (a_refs_b : bool) : list (string * jv) :=
  [("openapi", JStr "3.0.0");
   ("paths", JObj [("/a", JObj [("get", JObj [("responses", JObj [("200", JObj [("content",
       JObj [("application/json", JObj [("schema", JObj [("$ref", JStr "#/components/schemas/A")])])])])])])])]);
   ("components", JObj (scenario_e_components a_refs_b))].

(** A document with the 40 schemas [S0] ... [S39], the first 23 of them
    referenced from its one operation. *)
Definition pct_schema_name (i : nat) : string := "S" ++ Z_to_string (Z.of_nat i).

Definition pct_doc : list (string * jv) :=
  [("openapi", JStr "3.0.0");
   ("paths", JObj [("/x", JObj [("get", JObj [("responses", JObj [("200", JObj [("description", JStr "ok");
       ("x-refs", JArr (map (fun i => JObj [("$ref", JStr ("#/components/schemas/" ++ pct_schema_name i))])
                           (seq 0 23)))])])])])]);
   ("components", JObj [("schemas", JObj (map (fun i => (pct_schema_name i, JObj [("type", JStr "object")]))
                                             (seq 0 40)))])].

(** [wf_schema]: a Swagger 2.0 schema as the conversion expects it: a
    present [$ref] is a string; otherwise [items] is a well-formed schema,
    a present [properties] is an object with distinct keys mapping to
    well-formed schemas, and a present [allOf] is an array of well-formed
    schemas.  The helpers reach the parts through [f], keeping the recursion
    structural. *)
Fixpoint wf_field_with (f : jv -> Prop) (fs : list (string * jv)) (k : string) : Prop :=
  match fs with
  | [] => True
  | (k', v) :: r => if String.eqb k k' then f v else wf_field_with f r k
  end.

Fixpoint wf_entries_with (f : jv -> Prop) (pfs : list (string * jv)) : Prop :=
  match pfs with
  | [] => True
  | (_, v) :: r => f v /\ wf_entries_with f r
  end.

Fixpoint wf_list_with (f : jv -> Prop) (xs : list jv) : Prop :=
  match xs with
  | [] => True
  | x :: r => f x /\ wf_list_with f r
  end.

Fixpoint wf_props_with (f : jv -> Prop) (fs : list (string * jv)) : Prop :=
  match fs with
  | [] => True
  | (k', v) :: r =>
      if String.eqb "properties" k' then
        match v with
        | JObj pfs => NoDup (map fst pfs) /\ wf_entries_with f pfs
        | _ => False
        end
      else wf_props_with f r
  end.

Fixpoint wf_allOf_with (f : jv -> Prop) (fs : list (string * jv)) : Prop :=
  match fs with
  | [] => True
  | (k', v) :: r =>
      if String.eqb "allOf" k' then
        match v with JArr xs => wf_list_with f xs | _ => False end
      else wf_allOf_with f r
  end.

Fixpoint wf_schema (s : jv) : Prop :=
  match s with
  | JObj fs =>
      if truthy (field fs "$ref") then exists r, field fs "$ref" = JStr r
      else wf_field_with wf_schema fs "items" /\
           (truthy (field fs "properties") = true -> wf_props_with wf_schema fs) /\
           (truthy (field fs "allOf") = true -> wf_allOf_with wf_schema fs)
  | _ => True
  end.

(** [shape_ok orig conv]: [conv] has the structure of [orig]: a reference
    stays a reference; otherwise the [type] is the same, a present
    [required] list is copied, the [items] and the [properties] (same keys,
    in the same order) are related recursively; a schema that is not an
    object has no [type], [properties] or [required], nor has its
    conversion. *)
Fixpoint shape_field_with (f : jv -> jv -> Prop) (fs : list (string * jv)) (k : string) (c : jv) : Prop :=
  match fs with
  | [] => True
  | (k', v) :: r => if String.eqb k k' then f v c else shape_field_with f r k c
  end.

Fixpoint shape_entries_with (f : jv -> jv -> Prop) (pfs : list (string * jv)) (cps : list (string * jv))
  : Prop :=
  match pfs with
  | [] => True
  | (k, v) :: r => f v (field cps k) /\ shape_entries_with f r cps
  end.

Fixpoint shape_props_with (f : jv -> jv -> Prop) (fs : list (string * jv)) (c : jv) : Prop :=
  match fs with
  | [] => True
  | (k', v) :: r =>
      if String.eqb "properties" k' then
        match v with
        | JObj pfs => exists cps, c = JObj cps /\ map fst cps = map fst pfs /\ shape_entries_with f pfs cps
        | _ => True
        end
      else shape_props_with f r c
  end.

Fixpoint shape_ok (orig conv : jv) : Prop :=
  match orig with
  | JObj fs =>
      if truthy (field fs "$ref") then exists r, conv = JObj [("$ref", JStr r)]
      else exists cfs, conv = JObj cfs /\ field cfs "type" = field fs "type" /\
           (truthy (field fs "required") = true -> field cfs "required" = field fs "required") /\
           (truthy (field fs "items") = true -> shape_field_with shape_ok fs "items" (field cfs "items")) /\
           (truthy (field fs "properties") = true -> shape_props_with shape_ok fs (field cfs "properties"))
  | _ => obj_field conv "type" = JUndef /\ obj_field conv "properties" = JUndef /\
         obj_field conv "required" = JUndef
  end.

(** The size of a value, for induction through nested parts. *)
Fixpoint jv_size (v : jv) : nat :=
  match v with
  | JArr xs => S ((fix go (l : list jv) : nat :=
                     match l with [] => 0%nat | x :: r => (jv_size x + go r)%nat end) xs)
  | JObj fs => S ((fix go (l : list (string * jv)) : nat :=
                     match l with [] => 0%nat | (_, x) :: r => (jv_size x + go r)%nat end) fs)
  | _ => 1%nat
  end.

(** The requestBody built from a body parameter [bfs] whose schema converts to [s]. *)
Definition body_request_body (bfs : list (string * jv)) (s : jv) : jv :=
  JObj [("description", field bfs "description"); ("required", field bfs "required");
        ("content", JObj [("application/json", JObj [("schema", s)])])].

(** A Swagger 2.0 operation with a query parameter and a body parameter
    whose schema is an object with a required nested object. *)
Definition query_param : jv :=
  JObj [("name", JStr "limit"); ("in", JStr "query"); ("type", JStr "integer")].

Definition body_schema : jv :=
  JObj [("type", JStr "object"); ("required", JArr [JStr "pet"]);
        ("properties", JObj [("pet", JObj [("type", JStr "object"); ("required", JArr [JStr "id"]);
                                            ("properties", JObj [("id", JObj [("type", JStr "string")])])]);
                             ("tag", JObj [("$ref", JStr "#/definitions/Tag")])])].

Definition body_param_fields : list (string * jv) :=
  [("name", JStr "payload"); ("in", JStr "body"); ("required", JBool true); ("schema", body_schema)].

Definition body_operation : list (string * jv) :=
  [("operationId", JStr "createPet");
   ("parameters", JArr [query_param; JObj body_param_fields]);
   ("responses", JObj [("201", JObj [("description", JStr "created")])])].

(** A document loaded first, and a document without [openapi] and
    [swagger] loaded after it, read from text by a JSON parser that knows
    both. *)
Definition loaded_doc : jv :=
  JObj [("openapi", JStr "3.0.0"); ("info", JObj [("title", JStr "Pets"); ("version", JStr "1")]);
        ("tags", JArr [JObj [("name", JStr "pets")]]); ("paths", JObj [])].

Definition rejected_doc : jv :=
  JObj [("paths", JObj [("/x", JObj [("get", JObj [("tags", JArr [JStr "evil"])])])])].

Definition demo_json_parse (s : string) : option jv :=
  if String.eqb s "loaded" then Some loaded_doc
  else if String.eqb s "rejected" then Some rejected_doc
  else None.

Definition demo_yaml_load (_ : string) : option jv := None.

(** ** [getAllMethods], [getAllStatusCodes], [getAllTags] *)

(** [Object.values(v)] *)
Definition values (v : jv) : res (list jv) :=
  let* es := entries v in Ok (map snd es).

(** [getAllMethods]: the [Set] of upper-cased methods, then [.sort()]. *)
Definition getAllMethods (this_spec : jv) : res (list string) :=
  if negb (truthy this_spec) then Ok [] else
  let* paths := get this_spec "paths" in
  let* items := values paths in
  let* methods :=
    foldM (fun acc pathItem =>
             foldM (fun acc method =>
                      let* operation := get pathItem method in
                      Ok (if truthy operation then set_add (toUpperCase method) acc else acc))
                   acc endpoint_methods) [] items in
  Ok (sort_strings methods).

(** [getAllStatusCodes]: the [Set] of response codes, then [.sort()]. *)
Definition getAllStatusCodes (this_spec : jv) : res (list string) :=
  if negb (truthy this_spec) then Ok [] else
  let* paths := get this_spec "paths" in
  let* items := values paths in
  let* codes :=
    foldM (fun acc pathItem =>
             foldM (fun acc method =>
                      let* operation := get pathItem method in
                      let* responses := opt_get operation "responses" in
                      if truthy responses then
                        let* es := entries responses in
                        Ok (fold_left (fun a kv => set_add (fst kv) a) es acc)
                      else Ok acc)
                   acc endpoint_methods) [] items in
  Ok (sort_strings codes).

(** [tags.add(v)] on a [Set] of values: same-value equality on primitives;
    two objects are distinct references (see [strict_eq]). *)
Definition set_add_jv (v : jv) (s : list jv) : list jv :=
  if existsb (strict_eq v) s then s else app s [v].

Definition is_undefined (v : jv) : bool := match v with JUndef => true | _ => false end.

(** [Array.prototype.sort()] without comparator: [undefined] elements last,
    the others ordered by [String(v)] (code units), stably. *)
Fixpoint insert_by_string (x : jv) (l : list jv) : list jv :=
  match l with
  | [] => [x]
  | y :: r => if String.leb (to_str x) (to_str y) then x :: y :: r else y :: insert_by_string x r
  end.

Definition js_sort (l : list jv) : list jv :=
  app (fold_right insert_by_string [] (filter (fun v => negb (is_undefined v)) l))
      (filter is_undefined l).

(** The comparisons of [sort()] convert both elements with [String].  With
    two or more elements other than [undefined], each of them takes part in
    some comparison, so the sort throws exactly when one of them does not
    convert; with fewer there is no comparison. *)
Definition sort_converts (l : list jv) : bool :=
  let d := filter (fun v => negb (is_undefined v)) l in
  (List.length d <? 2)%nat || forallb (fun v => match to_string v with Ok _ => true | Throw _ => false end) d.

(** [getAllTags]: the collected values in a [Set], then [.sort()]. *)
Definition getAllTags (this_spec : jv) : res (list jv) :=
  let* collected := getAllTags_collected this_spec in
  let tags := fold_left (fun s v => set_add_jv v s) collected [] in
  if sort_converts tags then Ok (js_sort tags) else Throw TypeError.


(** ** [generateAnalytics] ([src/utils/analytics.ts]) *)

Definition complexity_string (c : complexity_level) : string :=
  match c with Low => "low" | Medium => "medium" | High => "high" end.

(** [d[k] = (d[k] || 0) + 1] on a counting object: overwrite in place or
    append.  The keys counted this way are HTTP method names and complexity
    levels, never names of [Object.prototype] members. *)
Fixpoint incr (d : list (string * nat)) (k : string) : list (string * nat) :=
  match d with
  | [] => [(k, 1%nat)]
  | (k', n) :: r => if String.eqb k k' then (k', S n) :: r else (k', n) :: incr r k
  end.

(** After a ['{']: what follows the first ['}'], provided at least one
    character precedes it ([[^}]+\}]). *)
Fixpoint close_brace (s : string) (seen : bool) : option string :=
  match s with
  | EmptyString => None
  | String c r => if Ascii.eqb c "}"%char then (if seen then Some r else None) else close_brace r true
  end.

Fixpoint replace_params_fuel (fuel : nat) (s : string) : string :=
  match fuel with
  | O => s
  | S f =>
      match s with
      | EmptyString => EmptyString
      | String c r =>
          if Ascii.eqb c "{"%char then
            match close_brace r false with
            | Some rest => "{id}" ++ replace_params_fuel f rest
            | None => String c (replace_params_fuel f r)
            end
          else String c (replace_params_fuel f r)
      end
  end.

(** [path.replace(/\{[^}]+\}/g, '{id}')]: every step consumes a character,
    so [String.length path] steps suffice. *)
Definition replace_path_params (path : string) : string :=
  replace_params_fuel (String.length path) path.

(** The analytics object.  [tagDistribution] and [responseCodeDistribution]
    (objects keyed by arbitrary strings) are not kept; the loop over
    [endpoint.tags] is, as it throws when the tags are not an array or a tag
    does not convert to a property key. *)
Record Analytics := {
  totalEndpoints : nat;
  methodDistribution : list (string * nat);
  complexityDistribution : list (string * nat);
  deprecatedCount : nat;
  securitySchemes : list string;
  averageParametersPerEndpoint : Q;
  pathPatterns : list string
}.

(** The variables of the loop. *)
Record AnalyticsAcc := {
  acc_methods : list (string * nat);
  acc_complexity : list (string * nat);
  acc_schemes : list string;
  acc_patterns : list string;
  acc_deprecated : nat;
  acc_parameters : nat
}.

Definition analytics_init : AnalyticsAcc :=
  {| acc_methods := []; acc_complexity := []; acc_schemes := []; acc_patterns := [];
     acc_deprecated := 0; acc_parameters := 0 |}.

(** [sec => Object.keys(sec).forEach(scheme => securitySchemes.add(scheme))] *)
Definition add_scheme_names (s : list string) (sec : jv) : res (list string) :=
  let* es := entries sec in Ok (fold_left (fun a kv => set_add (fst kv) a) es s).

(** The body of [endpoints.forEach(endpoint => ...)]. *)
Definition analytics_step (acc : AnalyticsAcc) (endpoint : EndpointData) : res AnalyticsAcc :=
  let methods := incr (acc_methods acc) (ep_method endpoint) in
  let* _ := forEach_array (ep_tags endpoint) (fun u tag => let* _ := to_string tag in Ok u) tt in
  let complexity := incr (acc_complexity acc) (complexity_string (ep_complexity endpoint)) in
  let* schemes :=
    if truthy (ep_security endpoint) then
      forEach_array (ep_security endpoint) add_scheme_names (acc_schemes acc)
    else Ok (acc_schemes acc) in
  let patterns :=
    match pathSegments_of (ep_path endpoint) with
    | seg0 :: _ => set_add (replace_path_params (ep_path endpoint)) (set_add ("/" ++ seg0) (acc_patterns acc))
    | [] => acc_patterns acc
    end in
  let deprecated := if truthy (ep_deprecated endpoint) then S (acc_deprecated acc) else acc_deprecated acc in
  Ok {| acc_methods := methods; acc_complexity := complexity; acc_schemes := schemes;
        acc_patterns := patterns; acc_deprecated := deprecated;
        acc_parameters := acc_parameters acc + List.length (ep_parameters endpoint) |}.

Definition generateAnalytics (endpoints : list EndpointData) : res Analytics :=
  let* acc := foldM analytics_step analytics_init endpoints in
  let n := List.length endpoints in
  Ok {| totalEndpoints := n;
        methodDistribution := acc_methods acc;
        complexityDistribution := acc_complexity acc;
        deprecatedCount := acc_deprecated acc;
        securitySchemes := acc_schemes acc;
        averageParametersPerEndpoint :=
          if (0 <? n)%nat then fdiv (inject_Z (Z.of_nat (acc_parameters acc))) (inject_Z (Z.of_nat n)) else 0%Q;
        pathPatterns := firstn 20 (acc_patterns acc) |}.

(** ** [loadOpenAPISpec] ([src/mcp/server.ts]) *)

Section Load.
Variable json_parse : string -> option jv.
Variable yaml_load : string -> option jv.

(** The success message of [loadOpenAPISpec], built after the two
    assignments: it calls [generateAnalytics], reads [spec.info.title],
    [spec.info.version], [spec.info.description] and [spec.openapi], and
    converts them to strings in a template literal; any of these can
    throw. *)
Definition load_message (spec : jv) (endpoints : list EndpointData) : res unit :=
  let* _ := generateAnalytics endpoints in
  let* info := get spec "info" in
  let* title := get info "title" in
  let* _ := to_string title in
  let* version := get info "version" in
  let* _ := to_string version in
  let* description := get info "description" in
  let* _ := to_string (js_or description (JStr "No description provided")) in
  let* openapi := get spec "openapi" in
  let* _ := to_string openapi in
  Ok tt.

(** [loadOpenAPISpec] with [sourceType = 'text'].  Every failure is caught
    and rethrown as [Error("Failed to load OpenAPI spec: " + message)]; the
    model keeps the prefix of that message only. *)
Definition loadOpenAPISpec (st : Session) (source : string) : Session * res unit :=
  let '(pspec, r) := parseFromText json_parse yaml_load (parser_spec st) source in
  match r with
  | Throw e => ({| currentSpec := currentSpec st; currentEndpoints := currentEndpoints st;
                   parser_spec := pspec |}, Throw (Error "Failed to load OpenAPI spec"))
  | Ok spec =>
      match extractEndpoints pspec with
      | Throw e => ({| currentSpec := spec; currentEndpoints := currentEndpoints st;
                       parser_spec := pspec |}, Throw (Error "Failed to load OpenAPI spec"))
      | Ok eps =>
          ({| currentSpec := spec; currentEndpoints := eps; parser_spec := pspec |},
           match load_message spec eps with
           | Ok _ => Ok tt
           | Throw _ => Throw (Error "Failed to load OpenAPI spec")
           end)
      end
  end.
End Load.

(** A small document with three operations, used to exercise the listings. *)
Definition ok_response : jv := JObj [("description", JStr "ok")].

Definition users_doc : jv :=
  JObj [("openapi", JStr "3.0.0"); ("info", JObj [("title", JStr "Users"); ("version", JStr "1")]);
        ("tags", JArr [JObj [("name", JStr "users")]]);
        ("paths", JObj [
           ("/users", JObj [
              ("get", JObj [("summary", JStr "List users"); ("tags", JArr [JStr "users"]);
                            ("security", JArr [JObj [("oauth", JArr [JStr "read"])]; JObj [("apiKey", JArr [])]]);
                            ("responses", JObj [("200", ok_response)])]);
              ("post", JObj [("summary", JStr "Create user"); ("tags", JArr [JStr "users"; JStr "admin"]);
                             ("requestBody", JObj [("content", JObj [])]); ("deprecated", JBool true);
                             ("responses", JObj [("201", ok_response); ("400", ok_response)])])]);
           ("/users/{userId}/posts/{postId}", JObj [
              ("parameters", JArr [JObj [("name", JStr "userId"); ("in", JStr "path")]]);
              ("get", JObj [("summary", JStr "Get a post");
                            ("parameters", JArr [JObj [("name", JStr "postId"); ("in", JStr "path")];
                                                 JObj [("name", JStr "limit"); ("in", JStr "query")]]);
                            ("responses", JObj [("200", ok_response); ("404", ok_response)])])])])].

Definition users_endpoints : list EndpointData :=
  match extractEndpoints users_doc with Ok l => l | Throw _ => [] end.

Definition empty_analytics : Analytics :=
  {| totalEndpoints := 0; methodDistribution := []; complexityDistribution := []; deprecatedCount := 0;
     securitySchemes := []; averageParametersPerEndpoint := 0%Q; pathPatterns := [] |}.

Definition users_analytics : Analytics :=
  match generateAnalytics users_endpoints with Ok a => a | Throw _ => empty_analytics end.


(** ** [searchEndpoints] ([src/mcp/server.ts])

    The arguments as the tool's input schema declares them: [None] for an
    absent argument. *)
Record SearchArgs := {
  sa_query : option string;
  sa_methods : option (list string);
  sa_tags : option (list string);
  sa_complexity : option (list string);
  sa_deprecated : option bool;
  sa_hasParameters : option bool;
  sa_hasRequestBody : option bool
}.

(** [xs.filter(p)] with a predicate that may throw. *)
Fixpoint filterM {A} (p : A -> res bool) (l : list A) : res (list A) :=
  match l with
  | [] => Ok []
  | x :: r => let* b := p x in let* r' := filterM p r in Ok (if b then x :: r' else r')
  end.

Definition no_spec_loaded : js_error :=
  Error "No OpenAPI specification loaded. Please load a spec first.".

(** The [query] filter: path, summary, description, then tags. *)
Definition query_match (searchTerm : string) (endpoint : EndpointData) : res bool :=
  if includes (toLowerCase (ep_path endpoint)) searchTerm then Ok true else
  let* a := opt_lower_includes (ep_summary endpoint) searchTerm in if a then Ok true else
  let* b := opt_lower_includes (ep_description endpoint) searchTerm in if b then Ok true else
  match ep_tags endpoint with
  | JArr ts => someM (fun tag => match tag with
                                 | JStr t => Ok (includes (toLowerCase t) searchTerm)
                                 | _ => Throw TypeError
                                 end) ts
  | _ => Throw TypeError
  end.

(** [endpoint.tags.some(tag => tags.includes(tag))] *)
Definition tags_match (tags : list string) (endpoint : EndpointData) : res bool :=
  match ep_tags endpoint with
  | JArr ts => Ok (existsb (fun tag => match tag with JStr t => existsb (String.eqb t) tags | _ => false end) ts)
  | _ => Throw TypeError
  end.

(** The text of one result: its conversions that can throw are
    [${endpoint.summary || 'No summary'}], [${endpoint.tags.join(', ') || 'None'}]
    and, for a truthy description, [${endpoint.description}]; the method, the
    path and the complexity are strings, the other fields numbers or fixed
    words. *)
Definition render_result (endpoint : EndpointData) : res unit :=
  let* _ := to_string (js_or (ep_summary endpoint) (JStr "No summary")) in
  let* _ := join (ep_tags endpoint) ", " in
  let* _ := if truthy (ep_description endpoint) then to_string (ep_description endpoint) else Ok "" in
  Ok tt.

(** The number of matching endpoints and the (at most 20) endpoints shown. *)
Definition searchEndpoints (st : Session) (args : SearchArgs) : res (nat * list EndpointData) :=
  if Nat.eqb (List.length (currentEndpoints st)) 0 then Throw no_spec_loaded else
  let filteredEndpoints := currentEndpoints st in
  let* filteredEndpoints :=
    match sa_query args with
    | Some query => if negb (String.eqb query "")
                    then filterM (query_match (toLowerCase query)) filteredEndpoints
                    else Ok filteredEndpoints
    | None => Ok filteredEndpoints
    end in
  let* filteredEndpoints :=
    match sa_methods args with
    | Some ((_ :: _) as methods) =>
        filterM (fun endpoint => Ok (existsb (String.eqb (ep_method endpoint)) methods)) filteredEndpoints
    | _ => Ok filteredEndpoints
    end in
  let* filteredEndpoints :=
    match sa_tags args with
    | Some ((_ :: _) as tags) => filterM (tags_match tags) filteredEndpoints
    | _ => Ok filteredEndpoints
    end in
  let* filteredEndpoints :=
    match sa_complexity args with
    | Some ((_ :: _) as complexity) =>
        filterM (fun endpoint => Ok (existsb (String.eqb (complexity_string (ep_complexity endpoint))) complexity))
                filteredEndpoints
    | _ => Ok filteredEndpoints
    end in
  let* filteredEndpoints :=
    match sa_deprecated args with
    | Some deprecated => filterM (fun endpoint => Ok (strict_eq (ep_deprecated endpoint) (JBool deprecated))) filteredEndpoints
    | None => Ok filteredEndpoints
    end in
  let* filteredEndpoints :=
    match sa_hasParameters args with
    | Some hasParameters =>
        filterM (fun endpoint => Ok (Bool.eqb (0 <? List.length (ep_parameters endpoint))%nat hasParameters))
                filteredEndpoints
    | None => Ok filteredEndpoints
    end in
  let* filteredEndpoints :=
    match sa_hasRequestBody args with
    | Some hasRequestBody =>
        filterM (fun endpoint => Ok (Bool.eqb (truthy (ep_requestBody endpoint)) hasRequestBody)) filteredEndpoints
    | None => Ok filteredEndpoints
    end in
  let results := firstn 20 filteredEndpoints in
  let* _ := mapM render_result results in
  Ok (List.length filteredEndpoints, results).

(** The values a result prints convert to strings. *)
Definition printable (v : jv) : Prop := exists s, to_string v = Ok s.

(** The summary, the tags (an array) and the description of an endpoint
    are printable. *)
Definition renderable (e : EndpointData) : Prop :=
  printable (ep_summary e) /\ (exists ts, ep_tags e = JArr ts /\ Forall printable ts) /\
  printable (ep_description e).

Definition no_filters : SearchArgs :=
  {| sa_query := None; sa_methods := None; sa_tags := None; sa_complexity := None;
     sa_deprecated := None; sa_hasParameters := None; sa_hasRequestBody := None |}.


(** ** Schema dependencies ([src/mcp/server.ts]) *)

(** [[...new Set(refs)]]: the first occurrence of each name, in order. *)
Definition dedup (l : list string) : list string := fold_left (fun acc x => set_add x acc) l [].

(** The [$ref] of an object: [obj.$ref && typeof obj.$ref === 'string'],
    then [refName = obj.$ref.split('/').pop()] when it is non-empty. *)
Definition own_ref (fs : list (string * jv)) : list string :=
  match field fs "$ref" with
  | JStr r => if negb (String.eqb r "") && negb (String.eqb (ref_name r) "") then [ref_name r] else []
  | _ => []
  end.

(** [extractDirectRefs] *)
Fixpoint extractDirectRefs (obj : jv) : list string :=
  match obj with
  | JArr xs =>
      dedup ((fix go (l : list jv) : list string :=
                match l with [] => [] | x :: r => app (extractDirectRefs x) (go r) end) xs)
  | JObj fs =>
      dedup (app (own_ref fs)
                 ((fix go (l : list (string * jv)) : list string :=
                     match l with [] => [] | (_, v) :: r => app (extractDirectRefs v) (go r) end) fs))
  | _ => []
  end.

(** The object [buildDependencyTree] returns: [{name, circular}] or
    [{name, dependencies}]. *)
Inductive dep_tree : Type :=
| DepLeaf (name : string) (circular : bool)
| DepNode (name : string) (dependencies : list dep_tree).

(** [buildDependencyTree(schemaName, schemas, maxDepth, visited, depth)] with
    [fuel = maxDepth - depth]; [visited] is the set of the names above. *)
Fixpoint buildDependencyTree_fuel (schemas : jv) (fuel : nat) (visited : list string) (schemaName : string)
  : res dep_tree :=
  let circular := existsb (String.eqb schemaName) visited in
  match fuel with
  | O => Ok (DepLeaf schemaName circular)
  | S f =>
      if circular then Ok (DepLeaf schemaName circular) else
      let* schema := get schemas schemaName in
      if negb (truthy schema) then Ok (DepLeaf schemaName circular) else
      let refs := extractDirectRefs schema in
      let* dependencies := mapM (buildDependencyTree_fuel schemas f (set_add schemaName visited)) refs in
      Ok (DepNode schemaName dependencies)
  end.

(** [this.buildDependencyTree(schemaName, schemas, depth)], with an
    integer [depth] ([depth >= maxDepth] holds at once when [maxDepth <= 0]). *)
Definition buildDependencyTree (schemaName : string) (schemas : jv) (maxDepth : Z) : res dep_tree :=
  buildDependencyTree_fuel schemas (Z.to_nat maxDepth) [] schemaName.

Definition dep_tree_name (t : dep_tree) : string :=
  match t with DepLeaf n _ => n | DepNode n _ => n end.

Fixpoint dep_tree_height (t : dep_tree) : nat :=
  match t with
  | DepLeaf _ _ => 0%nat
  | DepNode _ ds =>
      S ((fix go (l : list dep_tree) : nat :=
            match l with [] => 0%nat | d :: r => Nat.max (dep_tree_height d) (go r) end) ds)
  end.


(** One step of [obj.forEach(item => refs.push(...findRefs(item, visited, currentDepth)))]:
    [acc] is [(refs, visited)]. *)
Definition push_refs {A} (go : A -> list string -> res (list string * list string))
    (acc : list string * list string) (x : A) : res (list string * list string) :=
  let* p := go x (snd acc) in Ok (app (fst acc) (fst p), snd p).

(** The local [findRefs] of [findSchemaDependencies], with its shared
    [visited] set threaded through; [fuel = depth - currentDepth]. *)
Fixpoint findRefs_visited (schemas : jv) (fuel : nat) (obj : jv) (visited : list string) {struct fuel}
  : res (list string * list string) :=
  match fuel with
  | O => Ok ([], visited)
  | S f =>
      (fix go (obj : jv) (visited : list string) {struct obj} : res (list string * list string) :=
         match obj with
         | JArr xs =>
             let* p := foldM (push_refs go) ([], visited) xs in
             Ok (dedup (fst p), snd p)
         | JObj fs =>
             let* p :=
               match field fs "$ref" with
               | JStr r =>
                   let refName := ref_name r in
                   if negb (String.eqb r "") && negb (String.eqb refName "")
                      && negb (existsb (String.eqb refName) visited) then
                     let visited := set_add refName visited in
                     let* target := get schemas refName in
                     if truthy target then
                       let* q := findRefs_visited schemas f target visited in
                       Ok (refName :: fst q, snd q)
                     else Ok ([refName], visited)
                   else Ok ([], visited)
               | _ => Ok ([], visited)
               end in
             let* p := foldM (push_refs (fun kv => go (snd kv))) p fs in
             Ok (dedup (fst p), snd p)
         | _ => Ok ([], visited)
         end) obj visited
  end.

(** What [findSchemaDependencies] reports: an error text ([isError]), or
    the fields of the JSON object it prints (an empty list is printed as
    an absent field). *)
Inductive deps_result : Type :=
| DepsError (text : string)
| DepsFound (dependencies dependents : list string) (dependencyTree : option dep_tree).

(** [findSchemaDependencies({schemaName, direction = 'both', depth = 5})]
    with an integer [depth]. *)
Definition findSchemaDependencies (currentSpec : jv) (schemaName direction : string) (depth : Z)
  : res deps_result :=
  let* schemas :=
    if truthy currentSpec then let* components := get currentSpec "components" in opt_get components "schemas"
    else Ok JUndef in
  if negb (truthy currentSpec) || negb (truthy schemas) then
    Ok (DepsError "No OpenAPI specification or schemas loaded.") else
  let* schema := get schemas schemaName in
  if negb (truthy schema) then Ok (DepsError ("Schema '" ++ schemaName ++ "' not found.")) else
  let fuel := Z.to_nat depth in
  let* dependencies :=
    if String.eqb direction "dependents" then Ok []
    else let* p := findRefs_visited schemas fuel schema [] in Ok (fst p) in
  let* dependents :=
    if String.eqb direction "dependencies" then Ok []
    else
      let* es := entries schemas in
      let* kept := filterM (fun kv => let* p := findRefs_visited schemas fuel (snd kv) [] in
                                      Ok (existsb (String.eqb schemaName) (fst p)))
                           (filter (fun kv => negb (String.eqb (fst kv) schemaName)) es) in
      Ok (map fst kept) in
  let* dependencyTree :=
    if negb (String.eqb direction "dependents") then
      let* t := buildDependencyTree schemaName schemas depth in Ok (Some t)
    else Ok None in
  Ok (DepsFound dependencies dependents dependencyTree).


(** ** Sample documents *)

Definition users_paths : jv := obj_field users_doc "paths".
Definition users_path_items : list jv := match values users_paths with Ok l => l | Throw _ => [] end.
Definition users_path_entries : list (string * jv) :=
  match entries users_paths with Ok l => l | Throw _ => [] end.
Definition users_session : Session :=
  {| currentSpec := users_doc; currentEndpoints := users_endpoints; parser_spec := users_doc |}.
Definition posts_path : string := "/users/{userId}/posts/{postId}".
Definition posts_item : jv := obj_field users_paths posts_path.
Definition posts_get : jv := obj_field posts_item "get".

(** A document with a version and nothing else. *)
Definition bare_doc : jv := JObj [("openapi", JStr "3.0.0")].

(** An operation without [responses]. *)
Definition no_responses_doc : jv :=
  JObj [("openapi", JStr "3.0.0");
        ("paths", JObj [("/x", JObj [("get", JObj [("summary", JStr "X")])])])].

(** An operation whose [security] is an object, not an array of requirements. *)
Definition security_object_doc : jv :=
  JObj [("openapi", JStr "3.0.0");
        ("paths", JObj [("/x", JObj [("get", JObj [("security", JObj [("apiKey", JArr [])]);
                                                   ("responses", JObj [("200", ok_response)])])])])].
Definition security_object_endpoints : list EndpointData :=
  match extractEndpoints security_object_doc with Ok l => l | Throw _ => [] end.

(** A search for ["post"] among the GET endpoints. *)
Definition post_get_search : SearchArgs :=
  {| sa_query := Some "post"; sa_methods := Some ["GET"]; sa_tags := None; sa_complexity := None;
     sa_deprecated := None; sa_hasParameters := None; sa_hasRequestBody := None |}.

Definition schema_ref (n : string) : jv := JObj [("$ref", JStr ("#/components/schemas/" ++ n))].

(** [Pet] refers to [User] and [Tag], [User] back to [Pet]. *)
Definition pet_schemas : jv :=
  JObj [("Pet", JObj [("type", JStr "object");
                      ("properties", JObj [("owner", schema_ref "User");
                                           ("tags", JObj [("type", JStr "array"); ("items", schema_ref "Tag")])])]);
        ("User", JObj [("properties", JObj [("pets", JObj [("type", JStr "array"); ("items", schema_ref "Pet")])])]);
        ("Tag", JObj [("type", JStr "object")])].
Definition pet_components : jv := JObj [("schemas", pet_schemas)].
Definition pet_doc : jv := JObj [("openapi", JStr "3.0.0"); ("components", pet_components)].
Definition pet_schema : jv := obj_field pet_schemas "Pet".
Definition pet_tree : dep_tree :=
  DepNode "Pet" [DepNode "User" [DepLeaf "Pet" true]; DepNode "Tag" []].

(** The text reader of a load: always the same parse, or none. *)
Definition parses_to (v : jv) (source : string) : option jv := Some v.
Definition parses_to_nothing (source : string) : option jv := None.

Definition str_le (a b : string) : Prop := String.leb a b = true.

Definition is_jstr (v : jv) : bool := match v with JStr _ => true | _ => false end.

Definition str_image_le (a b : jv) : Prop := str_le (to_str a) (to_str b).

(** The [parameters] of an operation or path item as [extractEndpoints]
    accepts them: absent (or falsy), or an array of non-null values. *)
Definition params_ok (x : jv) : Prop :=
  exists p, get x "parameters" = Ok p /\
    (truthy p = false \/ exists ps, p = JArr ps /\ Forall (fun q => q <> JUndef /\ q <> JNull) ps).

(** [d[k] || 0] on a counting object. *)
Fixpoint dist_lookup (d : list (string * nat)) (k : string) : nat :=
  match d with
  | [] => 0
  | (k', n) :: r => if String.eqb k k' then n else dist_lookup r k
  end.

(** The security requirement objects of [e] name the scheme [s]. *)
Definition names_scheme (e : EndpointData) (s : string) : Prop :=
  exists reqs sec es, ep_security e = JArr reqs /\ In sec reqs /\ entries sec = Ok es /\ In s (map fst es).

(** [p] is one of the two patterns recorded for [e]. *)
Definition path_pattern_of (e : EndpointData) (p : string) : Prop :=
  exists seg0 rest, pathSegments_of (ep_path e) = seg0 :: rest /\
    (p = "/" ++ seg0 \/ p = replace_path_params (ep_path e)).

Definition ok_true (r : res bool) : bool := match r with Ok true => true | _ => false end.

(** What the filters ask of a listed endpoint. *)
Definition search_selects (args : SearchArgs) (e : EndpointData) : Prop :=
  (forall q, sa_query args = Some q -> q <> "" -> query_match (toLowerCase q) e = Ok true) /\
  (forall ms, sa_methods args = Some ms -> ms <> [] -> In (ep_method e) ms) /\
  (forall ts, sa_tags args = Some ts -> ts <> [] -> exists l t, ep_tags e = JArr l /\ In (JStr t) l /\ In t ts) /\
  (forall cs, sa_complexity args = Some cs -> cs <> [] -> In (complexity_string (ep_complexity e)) cs) /\
  (forall d, sa_deprecated args = Some d -> ep_deprecated e = JBool d) /\
  (forall h, sa_hasParameters args = Some h -> ((0 < List.length (ep_parameters e))%nat <-> h = true)) /\
  (forall h, sa_hasRequestBody args = Some h -> truthy (ep_requestBody e) = h).

(** A dependency tree built below the names [visited]: a leaf is circular
    exactly when its name is above it; a node's name is not above it, the
    node's schema is present, and its children are named by the schema's
    direct references, in order. *)
Fixpoint dep_tree_ok (schemas : jv) (visited : list string) (t : dep_tree) : Prop :=
  match t with
  | DepLeaf n c => c = existsb (String.eqb n) visited
  | DepNode n ds =>
      ~ In n visited /\
      (exists s, get schemas n = Ok s /\ truthy s = true /\ map dep_tree_name ds = extractDirectRefs s) /\
      (fix go (l : list dep_tree) : Prop :=
         match l with [] => True | d :: r => dep_tree_ok schemas (set_add n visited) d /\ go r end) ds
  end.

(** [x] is reached from [o] through references: a [$ref] in [o], or one in
    the schema named by a reached name. *)
Inductive DepReach (schemas o : jv) : string -> Prop :=
| dep_direct x : RefIn o x -> DepReach schemas o x
| dep_step n t x : DepReach schemas o n -> get schemas n = Ok t -> RefIn t x -> DepReach schemas o x.

(** * Properties *)

(** ** The result monad *)

Lemma bind_Ok {A B} (m : res A) (k : A -> res B) (b : B) :
  bind m k = Ok b -> exists a, m = Ok a /\ k a = Ok b.
Proof. destruct m as [a|e]; simpl; [eauto | discriminate]. Qed.

Ltac inv_bind :=
  repeat match goal with
  | H : bind ?m ?k = Ok _ |- _ =>
      let a := fresh "a" in let Ha := fresh "Ha" in
      apply bind_Ok in H; destruct H as [a [Ha H]]
  end.

Lemma foldM_invariant {A S} (I : S -> Prop) (f : S -> A -> res S) (l : list A) :
  forall s r, I s ->
  (forall s x s', I s -> In x l -> f s x = Ok s' -> I s') ->
  foldM f s l = Ok r -> I r.
Proof.
  induction l as [|x l IH]; simpl; intros s r Hs Hstep H.
  - injection H as ->; exact Hs.
  - inv_bind. apply (IH a); eauto.
Qed.

(** ** Example validation *)

(** A falsy value: [0], [""], [false], [null] or [undefined]. *)
Example falsy_values :
  forallb (fun v => negb (truthy v)) [JNum 0; JStr ""; JBool false; JNull; JUndef] = true.
Proof. reflexivity. Qed.

(** C10: for every schema, an example that is falsy at runtime ([0], [""],
    [false], [null]) validates to the empty violation list, whatever the
    schema's constraints. *)
Theorem validateExample_falsy_example :
  forall currentSpec strictMode js_lt regex_test fuel example schema path,
  truthy example = false ->
  validateExample currentSpec strictMode js_lt regex_test (S fuel) example schema path = Ok [].
Proof.
  intros currentSpec strictMode js_lt regex_test fuel example schema path H.
  simpl. rewrite H, orb_true_r. reflexivity.
Qed.

Lemma validateExample_falsy_example_witness :
  truthy (JNum 0) = false /\
  validateExample JNull false (fun _ _ => true) (fun _ _ => Some false) 1 (JNum 0)
    (JObj [("type", JStr "string"); ("minLength", JNum 3); ("enum", JArr [JStr "a"])]) "requestBody" = Ok [].
Proof.
  split; [reflexivity |].
  apply validateExample_falsy_example. reflexivity.
Defined.

(** C2: example validation does not run to completion on a truthy example
    whose shape mismatches the schema: a number against an array schema with
    [items] ([example.forEach] is not a function), and a number against an
    object schema with [properties] and [required] ([reqProp in example] on a
    primitive); both throw a [TypeError]. *)
Theorem validateExample_throws_on_shape_mismatch :
  forall currentSpec strictMode js_lt regex_test fuel,
  validateExample currentSpec strictMode js_lt regex_test (S fuel) (JNum 5)
    (JObj [("type", JStr "array"); ("items", JObj [("type", JStr "string")])]) "requestBody"
    = Throw TypeError /\
  validateExample currentSpec strictMode js_lt regex_test (S fuel) (JNum 5)
    (JObj [("type", JStr "object"); ("properties", JObj [("id", JObj [("type", JStr "string")])]);
           ("required", JArr [JStr "id"])]) "requestBody"
    = Throw TypeError.
Proof. intros. split; reflexivity. Qed.

(** ** Endpoint identifiers *)

(** C3 (counterexample): two paths that differ only in a non-alphanumeric
    character, [/a-b] and [/a_b], give two GET records with the same [id]
    [GET__a_b]. *)
Lemma extractEndpoints_id_collision :
  match extractEndpoints collision_doc with
  | Ok [e1; e2] =>
      ep_id e1 = ep_id e2 /\ ep_id e1 = "GET__a_b" /\ ep_method e1 = ep_method e2 /\ ep_path e1 <> ep_path e2
  | _ => False
  end.
Proof. vm_compute. repeat split; discriminate. Qed.

Lemma upper_method_prefix_inj (m1 m2 s1 s2 : string) :
  In m1 endpoint_methods -> In m2 endpoint_methods ->
  toUpperCase m1 ++ "_" ++ s1 = toUpperCase m2 ++ "_" ++ s2 -> m1 = m2 /\ s1 = s2.
Proof.
  intros H1 H2 H.
  destruct H1 as [<-|[<-|[<-|[<-|[<-|[<-|[<-|[<-|[]]]]]]]]];
  destruct H2 as [<-|[<-|[<-|[<-|[<-|[<-|[<-|[<-|[]]]]]]]]];
  vm_compute in H;
  first [ discriminate H | (injection H as ->; split; reflexivity) ].
Qed.

Lemma extract_endpoint_fields path pathItem operation method e :
  extract_endpoint path pathItem operation method = Ok e ->
  ep_id e = endpoint_id method path /\ ep_path e = path /\ ep_method e = toUpperCase method.
Proof.
  unfold extract_endpoint. intros H.
  repeat (apply bind_Ok in H; destruct H as [? [_ H]]; cbv beta zeta in H).
  injection H as <-. simpl. auto.
Qed.

Lemma extract_path_item_shaped path pathItem eps :
  extract_path_item path pathItem = Ok eps -> Forall id_shaped eps.
Proof.
  unfold extract_path_item. apply foldM_invariant; [constructor |].
  intros acc method acc' Hacc Hin H.
  apply bind_Ok in H. destruct H as [op [_ H]].
  destruct (truthy op).
  - apply bind_Ok in H. destruct H as [e [He H]]. injection H as <-.
    apply Forall_app. split; [exact Hacc |]. constructor; [| constructor].
    apply extract_endpoint_fields in He. destruct He as [Hid [Hp Hm]].
    exists method. rewrite Hid, Hp, Hm. auto.
  - injection H as <-. exact Hacc.
Qed.

Lemma extractEndpoints_shaped spec eps :
  extractEndpoints spec = Ok eps -> Forall id_shaped eps.
Proof.
  unfold extractEndpoints. destruct (negb (truthy spec)).
  - intros H. injection H as <-. constructor.
  - intros H. apply bind_Ok in H. destruct H as [paths [_ H]].
    apply bind_Ok in H. destruct H as [es [_ H]].
    revert H. apply foldM_invariant; [constructor |].
    intros acc [path pathItem] acc' Hacc _ H.
    apply bind_Ok in H. destruct H as [ps [Hps H]]. injection H as <-.
    apply Forall_app. split; [exact Hacc | eapply extract_path_item_shaped; eauto].
Qed.

(** C3 (amended): every record's [id] is its upper-cased method, an
    underscore, and its path with each non-alphanumeric character replaced
    by an underscore; two records of one document have the same [id] exactly
    when they have the same method and their paths sanitize to the same
    string.  So [id]s are pairwise distinct only when no two paths differ
    solely in non-alphanumeric characters. *)
Theorem extractEndpoints_id_characterisation :
  forall spec eps, extractEndpoints spec = Ok eps ->
  (forall e, In e eps -> ep_id e = ep_method e ++ "_" ++ sanitize (ep_path e)) /\
  (forall e1 e2, In e1 eps -> In e2 eps ->
     (ep_id e1 = ep_id e2 <-> ep_method e1 = ep_method e2 /\ sanitize (ep_path e1) = sanitize (ep_path e2))).
Proof.
  intros spec eps H. apply extractEndpoints_shaped in H.
  rewrite Forall_forall in H. split.
  - intros e He. destruct (H e He) as [m [_ [Hm Hid]]]. rewrite Hid, Hm. reflexivity.
  - intros e1 e2 He1 He2.
    destruct (H e1 He1) as [m1 [Hin1 [Hm1 Hid1]]].
    destruct (H e2 He2) as [m2 [Hin2 [Hm2 Hid2]]].
    rewrite Hid1, Hid2, Hm1, Hm2. unfold endpoint_id. split.
    + intros E. destruct (upper_method_prefix_inj _ _ _ _ Hin1 Hin2 E) as [-> ->]. auto.
    + intros [E1 E2]. rewrite E1, E2. reflexivity.
Qed.

Lemma extractEndpoints_id_characterisation_witness :
  exists eps, extractEndpoints collision_doc = Ok eps /\
  (forall e, In e eps -> ep_id e = ep_method e ++ "_" ++ sanitize (ep_path e)).
Proof.
  eexists. split; [vm_compute; reflexivity |].
  apply (extractEndpoints_id_characterisation collision_doc). vm_compute. reflexivity.
Defined.

(** ** Complexity score *)

Lemma get_obj fs k : get (JObj fs) k = Ok (field fs k).
Proof. reflexivity. Qed.

Lemma Qle_bool_Qeq x y z : x == y -> Qle_bool x z = Qle_bool y z.
Proof.
  intros E. destruct (Qle_bool y z) eqn:Hy.
  - apply Qle_bool_iff. apply Qle_bool_iff in Hy. rewrite E. exact Hy.
  - destruct (Qle_bool x z) eqn:Hx; [| reflexivity].
    apply Qle_bool_iff in Hx. rewrite E in Hx. apply Qle_bool_iff in Hx. congruence.
Qed.

Lemma length_gt_array l k :
  length_gt (JArr l) (Z.of_nat k) = Ok (k <? List.length l)%nat.
Proof.
  unfold length_gt. simpl. f_equal.
  destruct (Nat.ltb_spec k (List.length l)).
  - apply Z.ltb_lt. lia.
  - apply Z.ltb_ge. lia.
Qed.

Lemma responseCount_obj fs :
  object_or_absent (field fs "responses") ->
  responseCount (JObj fs) = Ok (List.length (object_keys (field fs "responses"))).
Proof.
  intros [Hr | [r Hr]]; unfold responseCount; rewrite get_obj, Hr; simpl;
    [reflexivity | rewrite length_map; reflexivity].
Qed.

Lemma flag_obj fs k n :
  array_or_absent (field fs k) ->
  (if truthy (field fs k) then length_gt (field fs k) (Z.of_nat n) else Ok false)
  = Ok (n <? List.length (array_elems (field fs k)))%nat.
Proof.
  intros [-> | [l ->]]; [reflexivity | apply length_gt_array].
Qed.

Lemma complexity_score_closed_form fs parameters hasRequestBody :
  object_or_absent (field fs "responses") -> array_or_absent (field fs "security") ->
  array_or_absent (field fs "tags") ->
  exists s, complexity_score (JObj fs) parameters hasRequestBody = Ok s /\
    s == complexity_formula (List.length parameters) hasRequestBody
           (List.length (object_keys (field fs "responses")))
           (0 <? List.length (array_elems (field fs "security")))%nat
           (1 <? List.length (array_elems (field fs "tags")))%nat.
Proof.
  intros Hr Hs Ht. unfold complexity_score.
  rewrite (responseCount_obj fs Hr). cbn [bind]. rewrite !get_obj. cbn [bind].
  pose proof (flag_obj fs "security" 0 Hs) as Fs. pose proof (flag_obj fs "tags" 1 Ht) as Ft.
  simpl Z.of_nat in Fs, Ft. rewrite Fs. cbn [bind]. rewrite Ft. cbn [bind].
  eexists. split; [reflexivity |].
  unfold complexity_formula.
  destruct hasRequestBody, (0 <? _)%nat, (1 <? _)%nat; lra.
Qed.

(** C4: for an operation whose [responses] is an object and whose
    [security] and [tags] are arrays (each possibly absent), the complexity
    score is 0.5 x parameterCount + 2 [request body] + 0.3 x responseCodeCount
    + 1 [some security requirement] + 0.5 [more than one tag]; the level is
    low when the score is at most 2, medium when at most 5, high otherwise;
    and six parameters with a request body and at least one response code
    are classified high.  The model computes with exact rationals; the
    JavaScript doubles agree on the classification, the scores being
    multiples of 0.1 far from the rounding error at the thresholds. *)
Theorem calculateComplexity_formula (fs : list (string * jv)) (parameters : list jv)
  (hasRequestBody : bool) :
  object_or_absent (field fs "responses") -> array_or_absent (field fs "security") ->
  array_or_absent (field fs "tags") ->
  let score := complexity_formula (List.length parameters) hasRequestBody
                 (List.length (object_keys (field fs "responses")))
                 (0 <? List.length (array_elems (field fs "security")))%nat
                 (1 <? List.length (array_elems (field fs "tags")))%nat in
  (exists s, complexity_score (JObj fs) parameters hasRequestBody = Ok s /\ s == score) /\
  calculateComplexity (JObj fs) parameters hasRequestBody =
    Ok (if Qle_bool score 2 then Low else if Qle_bool score 5 then Medium else High) /\
  (List.length parameters = 6%nat -> hasRequestBody = true ->
   (1 <= List.length (object_keys (field fs "responses")))%nat ->
   calculateComplexity (JObj fs) parameters hasRequestBody = Ok High).
Proof.
  intros Hr Hs Ht score.
  destruct (complexity_score_closed_form fs parameters hasRequestBody Hr Hs Ht) as [s [Hc Hq]].
  fold score in Hq.
  assert (Hcl : calculateComplexity (JObj fs) parameters hasRequestBody =
                Ok (if Qle_bool score 2 then Low else if Qle_bool score 5 then Medium else High)).
  { unfold calculateComplexity. rewrite Hc. cbn [bind]. unfold classify_complexity.
    rewrite (Qle_bool_Qeq s score 2 Hq), (Qle_bool_Qeq s score 5 Hq). reflexivity. }
  split; [exists s; split; assumption |]. split; [exact Hcl |].
  intros Hn Hb Hrc. rewrite Hcl.
  assert (Hge : 5 < score).
  { subst score. unfold complexity_formula. rewrite Hn, Hb.
    assert (H1 : inject_Z 1 <= inject_Z (Z.of_nat (List.length (object_keys (field fs "responses"))))).
    { rewrite <- Zle_Qle. lia. }
    change (inject_Z (Z.of_nat 6)) with (6 # 1). unfold inject_Z in H1 |- *.
    destruct (0 <? _)%nat, (1 <? _)%nat; lra. }
  destruct (Qle_bool score 2) eqn:E2; [apply Qle_bool_iff in E2; lra |].
  destruct (Qle_bool score 5) eqn:E5; [apply Qle_bool_iff in E5; lra |].
  reflexivity.
Qed.

Lemma calculateComplexity_formula_witness :
  object_or_absent (field scenario_a_operation "responses") /\
  array_or_absent (field scenario_a_operation "security") /\
  array_or_absent (field scenario_a_operation "tags") /\
  calculateComplexity (JObj scenario_a_operation)
    (repeat (JObj [("name", JStr "p"); ("in", JStr "query")]) 6) true = Ok High.
Proof.
  assert (Hr : object_or_absent (field scenario_a_operation "responses"))
    by (right; eexists; reflexivity).
  assert (Hs : array_or_absent (field scenario_a_operation "security")) by (left; reflexivity).
  assert (Ht : array_or_absent (field scenario_a_operation "tags")) by (left; reflexivity).
  split; [exact Hr |]. split; [exact Hs |]. split; [exact Ht |].
  apply (calculateComplexity_formula scenario_a_operation
           (repeat (JObj [("name", JStr "p"); ("in", JStr "query")]) 6) true Hr Hs Ht);
    vm_compute; reflexivity || (intros; discriminate) || constructor.
Defined.

(** ** Response-time estimate *)

Lemma opt_lower_includes_mentions v w :
  string_or_absent v -> opt_lower_includes v w = Ok (mentions v w).
Proof. intros [-> | [-> | [s ->]]]; reflexivity. Qed.

Lemma someM_named_existsb ps :
  Forall named_parameter ps ->
  someM (fun p => let* x := name_includes p "search" in
                  if x then Ok true else name_includes p "filter") ps
  = Ok (existsb (fun p => mentions (obj_field p "name") "search"
                          || mentions (obj_field p "name") "filter") ps).
Proof.
  induction 1 as [| p ps [pfs [s [-> Hn]]] _ IH]; [reflexivity |].
  simpl someM. unfold name_includes. rewrite get_obj, Hn. cbn [bind].
  simpl existsb. unfold obj_field, mentions. rewrite Hn.
  destruct (includes (toLowerCase s) "search"); [reflexivity |].
  cbn [bind]. destruct (includes (toLowerCase s) "filter"); [reflexivity |].
  exact IH.
Qed.

(** C5 (counterexample): an operation [{operationId: 'listPets'}] with a
    request body and no parameters is estimated medium, since only "get" is
    looked for in the operation id; the claim's formula gives -1 + 1 = 0,
    that is fast. *)
Lemma estimateResponseTime_listPets_not_decremented :
  estimateResponseTime (JObj [("operationId", JStr "listPets"); ("responses", JObj [])]) [] true
    = Ok MediumTime /\
  classify_response_time
    (spec_response_time_score (JObj [("operationId", JStr "listPets"); ("responses", JObj [])]) [] true)
    = Fast.
Proof. split; vm_compute; reflexivity. Qed.

(** C5 (amended): for an operation whose [operationId] and [summary] are
    strings or absent and whose parameters all carry a string [name], the
    response-time score starts at 0, is decremented by 1 when the operation
    id mentions "get" or the summary mentions "get" or "list", and adds 1
    for a request body, 1 when there are more than 5 parameters, and 1 when
    the summary or some parameter name mentions "search" or "filter"
    (mentioning is containment in the lower-cased text); the estimate is
    fast when the score is at most 0, medium when at most 1, slow
    otherwise. *)
Theorem estimateResponseTime_formula (fs : list (string * jv)) (parameters : list jv)
  (hasRequestBody : bool) :
  string_or_absent (field fs "operationId") -> string_or_absent (field fs "summary") ->
  Forall named_parameter parameters ->
  let opId := field fs "operationId" in
  let summary := field fs "summary" in
  let score :=
    ((if mentions opId "get" || mentions summary "get" || mentions summary "list" then -1 else 0)
     + (if hasRequestBody then 1 else 0)
     + (if (5 <? List.length parameters)%nat then 1 else 0)
     + (if mentions summary "search" || mentions summary "filter"
           || existsb (fun p => mentions (obj_field p "name") "search"
                                || mentions (obj_field p "name") "filter") parameters
        then 1 else 0))%Z in
  response_time_score (JObj fs) parameters hasRequestBody = Ok score /\
  estimateResponseTime (JObj fs) parameters hasRequestBody =
    Ok (if (score <=? 0)%Z then Fast else if (score <=? 1)%Z then MediumTime else Slow).
Proof.
  intros Ho Hs Hp opId summary score.
  assert (Hsc : response_time_score (JObj fs) parameters hasRequestBody = Ok score).
  { unfold response_time_score. rewrite !get_obj. cbn [bind].
    rewrite !(opt_lower_includes_mentions _ _ Ho), !(opt_lower_includes_mentions _ _ Hs).
    cbn [bind]. rewrite (someM_named_existsb parameters Hp).
    subst score opId summary.
    destruct (mentions (field fs "operationId") "get"), (mentions (field fs "summary") "get"),
      (mentions (field fs "summary") "list"), (mentions (field fs "summary") "search"),
      (mentions (field fs "summary") "filter"), hasRequestBody, (5 <? _)%nat, (existsb _ _);
      cbn [bind orb]; f_equal; lia. }
  split; [exact Hsc |].
  unfold estimateResponseTime. rewrite Hsc. reflexivity.
Qed.

Lemma estimateResponseTime_formula_witness :
  string_or_absent (field [("operationId", JStr "searchPets"); ("responses", JObj [])] "operationId") /\
  string_or_absent (field [("operationId", JStr "searchPets"); ("responses", JObj [])] "summary") /\
  Forall named_parameter [JObj [("name", JStr "filterBy"); ("in", JStr "query")]] /\
  estimateResponseTime (JObj [("operationId", JStr "searchPets"); ("responses", JObj [])])
    [JObj [("name", JStr "filterBy"); ("in", JStr "query")]] true = Ok Slow.
Proof.
  assert (Ho : string_or_absent (field [("operationId", JStr "searchPets"); ("responses", JObj [])] "operationId"))
    by (right; right; eexists; reflexivity).
  assert (Hs : string_or_absent (field [("operationId", JStr "searchPets"); ("responses", JObj [])] "summary"))
    by (left; reflexivity).
  assert (Hp : Forall named_parameter [JObj [("name", JStr "filterBy"); ("in", JStr "query")]])
    by (repeat constructor; do 2 eexists; split; reflexivity).
  split; [exact Ho |]. split; [exact Hs |]. split; [exact Hp |].
  exact (proj2 (estimateResponseTime_formula _ _ true Ho Hs Hp)).
Defined.

(** ** Form parameters *)

Lemma set_in_form_body props k v :
  set_in (form_body props) ["content"; "application/x-www-form-urlencoded"; "schema"; "properties"] k v
  = Ok (form_body (set_field props k v)).
Proof. reflexivity. Qed.

Lemma lookup_set_field fs k k' v :
  lookup (set_field fs k v) k' = if String.eqb k' k then Some v else lookup fs k'.
Proof.
  induction fs as [| [k0 v0] fs IH]; simpl.
  - destruct (String.eqb k' k); reflexivity.
  - destruct (String.eqb k k0) eqn:E; simpl.
    + apply String.eqb_eq in E; subst k0. destruct (String.eqb k' k); reflexivity.
    + rewrite IH. destruct (String.eqb k' k) eqn:E1, (String.eqb k' k0) eqn:E2; try reflexivity.
      apply String.eqb_eq in E1, E2. subst. rewrite String.eqb_refl in E. discriminate.
Qed.

Lemma keys_set_field fs k v :
  forall k', In k' (map fst (set_field fs k v)) <-> k' = k \/ In k' (map fst fs).
Proof.
  induction fs as [| [k0 v0] fs IH]; simpl; intros k'.
  - intuition congruence.
  - destruct (String.eqb k k0) eqn:E; simpl.
    + apply String.eqb_eq in E; subst k0. intuition congruence.
    + rewrite IH. intuition congruence.
Qed.

Lemma NoDup_set_field fs k v :
  NoDup (map fst fs) -> NoDup (map fst (set_field fs k v)).
Proof.
  induction fs as [| [k0 v0] fs IH]; simpl; intros H.
  - constructor; [intros [] | constructor].
  - inversion H as [| ? ? Hn Hd]; subst.
    destruct (String.eqb k k0) eqn:E; simpl.
    + constructor; assumption.
    + constructor; [| exact (IH Hd)].
      rewrite keys_set_field. intros [-> | Hin]; [| contradiction].
      rewrite String.eqb_refl in E. discriminate.
Qed.

Lemma lookup_in_keys fs k : lookup fs k <> None <-> In k (map fst fs).
Proof.
  induction fs as [| [k0 v0] fs IH]; simpl.
  - tauto.
  - destruct (String.eqb k k0) eqn:E.
    + apply String.eqb_eq in E; subst. split; [auto | discriminate].
    + rewrite IH. split; [auto | intros [-> | H]; [rewrite String.eqb_refl in E; discriminate | exact H]].
Qed.

Lemma form_request_body_empty : form_request_body = form_body [].
Proof. reflexivity. Qed.

Lemma elems_to_string_to_str xs ss :
  Forall (fun v => forall s, to_string v = Ok s -> s = to_str v) xs ->
  mapM (fun x => match x with JUndef | JNull => Ok "" | _ => to_string x end) xs = Ok ss ->
  ss = map (fun x => match x with JUndef | JNull => "" | _ => to_str x end) xs.
Proof.
  intros Hxs. revert ss. induction Hxs as [| x r Hx Hr IH]; intros ss H; cbn [mapM] in H.
  - injection H as <-. reflexivity.
  - apply bind_Ok in H. destruct H as [s1 [H1 H]]. apply bind_Ok in H. destruct H as [ss1 [H2 H]].
    injection H as <-. cbn [map]. rewrite (IH _ H2). f_equal.
    destruct x; try (injection H1 as <-; reflexivity); apply Hx; exact H1.
Qed.

(** A successful [String(v)] gives [to_str v]. *)
Lemma to_string_to_str v : forall s, to_string v = Ok s -> s = to_str v.
Proof.
  induction v as [| | b | n | s0 | xs Hxs | fs Hfs] using jv_ind_nested; intros s H;
    cbn [to_string] in H; try (injection H as <-; reflexivity).
  - apply bind_Ok in H. destruct H as [ss [H1 H]]. injection H as <-.
    cbn [to_str]. rewrite (elems_to_string_to_str xs ss Hxs H1). reflexivity.
  - destruct (existsb _ fs); [discriminate H | injection H as <-; reflexivity].
Qed.

Lemma param_step_no_body cps acc pfs :
  is_str (field pfs "in") "body" = false ->
  (is_form (JObj pfs) = false -> exists q, convertSwagger2Parameter (JObj pfs) = Ok q) ->
  (is_form (JObj pfs) = true -> exists k, to_string (obj_field (JObj pfs) "name") = Ok k) ->
  exists cps', convert_param_step (cps, rb_of acc) (JObj pfs)
               = Ok (cps', rb_of (form_fold acc (JObj pfs))).
Proof.
  intros Hb Ho Hk. unfold form_fold, is_form, form_key in *. unfold obj_field in *.
  unfold convert_param_step. rewrite get_obj. cbn [bind]. rewrite Hb.
  destruct (is_str (field pfs "in") "formData").
  - rewrite !get_obj. cbn [bind].
    destruct (Hk eq_refl) as [k Ek]. rewrite Ek. cbn [bind].
    rewrite <- (to_string_to_str _ _ Ek).
    destruct acc as [f |]; eexists; reflexivity.
  - destruct (Ho eq_refl) as [q Hq]. rewrite Hq. cbn [bind]. eexists; reflexivity.
Qed.

Lemma param_loop_no_body l : forall cps acc,
  Forall (fun p => exists pfs, p = JObj pfs) l ->
  Forall (fun p => is_str (obj_field p "in") "body" = false) l ->
  Forall (fun p => is_form p = false -> exists q, convertSwagger2Parameter p = Ok q) l ->
  Forall (fun p => is_form p = true -> exists k, to_string (obj_field p "name") = Ok k) l ->
  exists cps', foldM convert_param_step (cps, rb_of acc) l = Ok (cps', rb_of (fold_left form_fold l acc)).
Proof.
  induction l as [| p l IH]; intros cps acc Hobj Hnb Hok Hkey.
  - exists cps. reflexivity.
  - inversion Hobj as [| ? ? [pfs ->] Hobj']; subst.
    inversion Hnb as [| ? ? Hb Hnb']; subst.
    inversion Hok as [| ? ? Ho Hok']; subst.
    inversion Hkey as [| ? ? Hk Hkey']; subst.
    destruct (param_step_no_body cps acc pfs Hb Ho Hk) as [cps1 H1].
    cbn [foldM]. rewrite H1. cbn [bind].
    exact (IH cps1 (form_fold acc (JObj pfs)) Hobj' Hnb' Hok' Hkey').
Qed.

Lemma form_fold_lookup l : forall acc k,
  lookup (match fold_left form_fold l acc with Some f => f | None => [] end) k
  = fold_left (fun a p => if is_form p && String.eqb (form_key p) k then Some (form_value p) else a)
      l (lookup (match acc with Some f => f | None => [] end) k).
Proof.
  induction l as [| p l IH]; intros acc k; [reflexivity |].
  simpl. rewrite IH. f_equal. unfold form_fold.
  destruct (is_form p); simpl; [| reflexivity].
  rewrite lookup_set_field. rewrite String.eqb_sym. reflexivity.
Qed.

Lemma form_fold_keys l : forall acc k,
  In k (map fst (match fold_left form_fold l acc with Some f => f | None => [] end)) <->
  In k (map fst (match acc with Some f => f | None => [] end)) \/
  exists p, In p l /\ is_form p = true /\ form_key p = k.
Proof.
  induction l as [| p l IH]; intros acc k; simpl.
  - split; [tauto | intros [H | [? [[] _]]]; exact H].
  - rewrite IH. unfold form_fold. destruct (is_form p) eqn:Ef.
    + rewrite keys_set_field. split.
      * intros [[-> | H] | [q [Hq1 Hq2]]]; [right; exists p; auto | left; exact H | right; exists q; auto].
      * intros [H | [q [[-> | Hq] Hq2]]]; [left; right; exact H | left; left; symmetry; apply Hq2 |
                                           right; exists q; auto].
    + split.
      * intros [H | [q [Hq1 Hq2]]]; [left; exact H | right; exists q; auto].
      * intros [H | [q [[-> | Hq] [Hq2 Hq3]]]]; [left; exact H | congruence | right; exists q; auto].
Qed.

Lemma form_fold_NoDup l : forall acc,
  NoDup (map fst (match acc with Some f => f | None => [] end)) ->
  NoDup (map fst (match fold_left form_fold l acc with Some f => f | None => [] end)).
Proof.
  induction l as [| p l IH]; intros acc H; [exact H |].
  simpl. apply IH. unfold form_fold. destruct (is_form p); [| exact H].
  apply NoDup_set_field. exact H.
Qed.

Lemma form_fold_some l acc :
  (exists p, In p l /\ is_form p = true) -> exists f, fold_left form_fold l acc = Some f.
Proof.
  revert acc. induction l as [| p l IH]; intros acc [q [Hq Hf]]; [destruct Hq |].
  simpl. destruct Hq as [-> | Hq].
  - unfold form_fold at 2. rewrite Hf.
    clear IH Hf. generalize (set_field (match acc with Some f => f | None => [] end) (form_key q) (form_value q)).
    induction l as [| r l IH']; intros f; [eexists; reflexivity |].
    simpl. unfold form_fold at 2. destruct (is_form r); apply IH'.
  - apply IH. exists q. auto.
Qed.

Lemma foldM_total {A S} (f : S -> A -> res S) (l : list A) :
  (forall s x, In x l -> exists s', f s x = Ok s') -> forall s, exists r, foldM f s l = Ok r.
Proof.
  induction l as [| x l IH]; intros Hf s; [eexists; reflexivity |].
  destruct (Hf s x (or_introl eq_refl)) as [s1 H1]. cbn [foldM]. rewrite H1. cbn [bind].
  apply IH. intros s' y Hy. apply Hf. right. exact Hy.
Qed.

(** Converting the responses of an operation whose responses all convert. *)
Lemma convert_responses_total rfs :
  (forall code response, In (code, response) rfs -> exists r, convertSwagger2Response response = Ok r) ->
  exists out, foldM (fun acc '(code, response) =>
                let* r := convertSwagger2Response response in Ok (set_field acc code r)) [] rfs = Ok out.
Proof.
  intros H. apply foldM_total. intros s [code response] Hin.
  destruct (H code response Hin) as [r Hr]. rewrite Hr. eexists; reflexivity.
Qed.

(** C7 (counterexample): in an operation whose parameters list a formData
    entry and then a body entry, the conversion succeeds but the formData
    entry is not in the result: the body entry replaces the whole
    requestBody, which then has no application/x-www-form-urlencoded
    properties. *)
Lemma convertSwagger2Operation_body_formData_mix :
  match convertSwagger2Operation
          (JObj [("parameters", JArr [form_param; body_param]); ("responses", JObj [])]) with
  | Ok r => form_properties r = JUndef
  | Throw _ => False
  end.
Proof. vm_compute. reflexivity. Qed.

(** C7 (amended): for a Swagger 2.0 operation whose parameter list has
    formData entries and no body entry (its other entries and its responses
    converting, and [String(name)] not throwing on a formData name, as for
    a string name), conversion succeeds; the properties of the requestBody
    schema under application/x-www-form-urlencoded have one key per distinct
    formData name, exactly the names of the formData entries, and the value
    under a name is the [{type, description}] of the last formData entry of
    that name, later entries merging into the same properties. *)
Theorem convertSwagger2Operation_formData (fs : list (string * jv)) (ps : list jv) :
  field fs "parameters" = JArr ps ->
  Forall (fun p => exists pfs, p = JObj pfs) ps ->
  Forall (fun p => is_str (obj_field p "in") "body" = false) ps ->
  Forall (fun p => is_form p = false -> exists q, convertSwagger2Parameter p = Ok q) ps ->
  Forall (fun p => is_form p = true -> exists k, to_string (obj_field p "name") = Ok k) ps ->
  (exists p, In p ps /\ is_form p = true) ->
  object_or_absent (field fs "responses") ->
  (forall code response, In (code, response) (match field fs "responses" with JObj rfs => rfs | _ => [] end) ->
     exists r, convertSwagger2Response response = Ok r) ->
  exists r props,
    convertSwagger2Operation (JObj fs) = Ok r /\ form_properties r = JObj props /\
    NoDup (map fst props) /\
    (forall k, In k (map fst props) <-> exists p, In p ps /\ is_form p = true /\ form_key p = k) /\
    (forall k, lookup props k = last_form_value ps k).
Proof.
  intros Hps Hobj Hnb Hok Hkey Hform Hr Hresp.
  destruct (param_loop_no_body ps [] None Hobj Hnb Hok Hkey) as [cps Hloop].
  destruct (form_fold_some ps None Hform) as [props Hprops].
  rewrite Hprops in Hloop. simpl rb_of in Hloop.
  assert (Hrs : exists out,
    (if truthy (field fs "responses") then
       let* es := entries (field fs "responses") in
       foldM (fun acc '(code, response) =>
                let* r := convertSwagger2Response response in Ok (set_field acc code r)) [] es
     else Ok []) = Ok out).
  { destruct Hr as [Hr | [rfs Hr]]; rewrite Hr in *; [eexists; reflexivity |].
    cbn [truthy entries bind]. apply convert_responses_total. exact Hresp. }
  destruct Hrs as [out Hout].
  unfold convertSwagger2Operation. rewrite !get_obj. cbn [bind]. rewrite Hps.
  cbn [truthy forEach_array]. rewrite Hloop. cbn [bind]. rewrite Hout. cbn [bind].
  eexists; exists props. split; [reflexivity |]. split.
  { unfold form_properties. destruct (0 <? List.length cps)%nat; reflexivity. }
  split; [| split].
  - pose proof (form_fold_NoDup ps None (NoDup_nil _)) as H. rewrite Hprops in H. exact H.
  - intros k. pose proof (form_fold_keys ps None k) as H. rewrite Hprops in H. rewrite H.
    simpl. split; [intros [[] | H']; exact H' | intros H'; right; exact H'].
  - intros k. pose proof (form_fold_lookup ps None k) as H. rewrite Hprops in H. exact H.
Qed.

Lemma convertSwagger2Operation_formData_witness :
  exists r props, convertSwagger2Operation (JObj form_operation) = Ok r /\
    form_properties r = JObj props /\ NoDup (map fst props) /\
    (forall k, In k (map fst props) <->
       exists p, In p (match field form_operation "parameters" with JArr l => l | _ => [] end)
                 /\ is_form p = true /\ form_key p = k) /\
    (forall k, lookup props k =
       last_form_value (match field form_operation "parameters" with JArr l => l | _ => [] end) k).
Proof.
  apply (convertSwagger2Operation_formData form_operation).
  - reflexivity.
  - repeat constructor; eexists; reflexivity.
  - repeat constructor.
  - repeat constructor; try discriminate. intros _. eexists. vm_compute. reflexivity.
  - repeat constructor; intros Hf; vm_compute in Hf;
      first [discriminate Hf | eexists; vm_compute; reflexivity].
  - exists form_param. split; [left; reflexivity | reflexivity].
  - right. eexists. reflexivity.
  - intros code response [H | []]. injection H as <- <-. eexists. vm_compute. reflexivity.
Defined.

(** ** Swagger 2.0 conversion *)

Section FoldLookup.
Context {A : Type} (f : list (string * jv) -> A -> res (list (string * jv))) (key : A -> string).
Hypothesis f_frame : forall acc x acc' k,
  f acc x = Ok acc' -> key x <> k -> lookup acc' k = lookup acc k.

Lemma foldM_frame l : forall acc out k,
  foldM f acc l = Ok out -> ~ In k (map key l) -> lookup out k = lookup acc k.
Proof.
  induction l as [| y l IH]; simpl; intros acc out k H Hk.
  - injection H as <-. reflexivity.
  - inv_bind. rewrite (IH a out k H (fun h => Hk (or_intror h))).
    apply (f_frame acc y a k Ha). intros E. apply Hk. left. exact E.
Qed.

Lemma foldM_last l : forall acc out x,
  NoDup (map key l) -> In x l -> foldM f acc l = Ok out ->
  exists acc1 acc2, f acc1 x = Ok acc2 /\ lookup acc1 (key x) = lookup acc (key x) /\
                    lookup out (key x) = lookup acc2 (key x).
Proof.
  induction l as [| y l IH]; simpl; intros acc out x Hnd Hin H; [destruct Hin |].
  inversion Hnd as [| ? ? Hny Hnd']; subst. inv_bind.
  destruct Hin as [-> | Hin].
  - exists acc, a. split; [exact Ha | split; [reflexivity |]].
    exact (foldM_frame l a out (key x) H Hny).
  - destruct (IH a out x Hnd' Hin H) as [acc1 [acc2 [H1 [H2 H3]]]].
    exists acc1, acc2. split; [exact H1 | split; [| exact H3]].
    rewrite H2. apply (f_frame acc y a (key x) Ha).
    intros E. apply Hny. rewrite E. apply in_map. exact Hin.
Qed.
End FoldLookup.

Lemma set_field_frame (g : string -> jv -> res jv) acc (kv : string * jv) acc' k :
  (let '(k0, v) := kv in let* c := g k0 v in Ok (set_field acc k0 c)) = Ok acc' ->
  fst kv <> k -> lookup acc' k = lookup acc k.
Proof.
  destruct kv as [k0 v]; simpl. intros H Hne. inv_bind. injection H as <-.
  rewrite lookup_set_field. destruct (String.eqb k k0) eqn:E; [| reflexivity].
  apply String.eqb_eq in E. congruence.
Qed.

(** The loops [Object.entries(o).forEach(([k, v]) => out[k] = g(v))]. *)
Lemma keyed_fold_lookup (g : jv -> res jv) es out :
  NoDup (map fst es) ->
  foldM (fun acc '(k, v) => let* c := g v in Ok (set_field acc k c)) [] es = Ok out ->
  (forall k v, In (k, v) es -> exists c, g v = Ok c /\ lookup out k = Some c) /\
  (forall k, In k (map fst out) <-> In k (map fst es)).
Proof.
  intros Hnd H.
  assert (Hfr : forall acc (x : string * jv) acc' k,
            (let '(k0, v) := x in let* c := g v in Ok (set_field acc k0 c)) = Ok acc' ->
            fst x <> k -> lookup acc' k = lookup acc k)
    by (intros acc x acc' k; apply (set_field_frame (fun _ v => g v))).
  assert (Hl : forall k v, In (k, v) es -> exists c, g v = Ok c /\ lookup out k = Some c).
  { intros k v Hin.
    destruct (foldM_last _ fst Hfr es [] out (k, v) Hnd Hin H) as [acc1 [acc2 [H1 [_ H3]]]].
    simpl in H1, H3. inv_bind. injection H1 as <-. exists a. split; [exact Ha |].
    rewrite H3, lookup_set_field, String.eqb_refl. reflexivity. }
  split; [exact Hl |]. intros k. rewrite <- lookup_in_keys. split.
  - intros Hs. destruct (in_dec String.string_dec k (map fst es)) as [Hk | Hk]; [exact Hk |].
    exfalso. apply Hs. rewrite (foldM_frame _ fst Hfr es [] out k H Hk). reflexivity.
  - intros Hk. apply in_map_iff in Hk. destruct Hk as [[k' v] [Hk Hin]]. simpl in Hk. subst k'.
    destruct (Hl k v Hin) as [c [_ Hc]]. rewrite Hc. discriminate.
Qed.

Lemma swagger2_methods_NoDup : NoDup (map (fun m : string => m) swagger2_methods).
Proof.
  simpl. repeat (apply NoDup_cons; [simpl; intuition discriminate |]). apply NoDup_nil.
Qed.

Lemma swagger2_methods_not_parameters m :
  In m swagger2_methods -> String.eqb m "parameters" = false.
Proof. simpl. intros H; repeat destruct H as [<- | H]; try reflexivity; destruct H. Qed.

(** A converted path item holds, under each method of [swagger2_methods],
    the conversion of the operation there, and nothing when there is none. *)
Lemma convert_path_item_methods ifs c :
  convert_path_item (JObj ifs) = Ok c ->
  exists ops, c = JObj ops /\
  forall m, In m swagger2_methods ->
    (truthy (field ifs m) = true ->
       exists oc, convertSwagger2Operation (field ifs m) = Ok oc /\ lookup ops m = Some oc) /\
    (truthy (field ifs m) = false -> lookup ops m = None).
Proof.
  intros H. unfold convert_path_item in H. rewrite get_obj in H.
  apply bind_Ok in H. destruct H as [a [Ha H]]. cbn [bind] in H.
  set (f := fun acc method =>
              let* op := get (JObj ifs) method in
              if truthy op then let* c := convertSwagger2Operation op in Ok (set_field acc method c)
              else Ok acc) in *.
  assert (Hfr : forall acc x acc' k, f acc x = Ok acc' -> (fun m : string => m) x <> k ->
                                     lookup acc' k = lookup acc k).
  { intros acc x acc' k Hs Hne. unfold f in Hs. rewrite get_obj in Hs. cbn [bind] in Hs.
    destruct (truthy (field ifs x)); [| injection Hs as <-; reflexivity].
    inv_bind. injection Hs as <-. rewrite lookup_set_field.
    destruct (String.eqb k x) eqn:E; [apply String.eqb_eq in E; congruence | reflexivity]. }
  assert (Hops : forall m, In m swagger2_methods ->
    (truthy (field ifs m) = true ->
       exists oc, convertSwagger2Operation (field ifs m) = Ok oc /\ lookup a m = Some oc) /\
    (truthy (field ifs m) = false -> lookup a m = None)).
  { intros m Hm.
    destruct (foldM_last f (fun m => m) Hfr swagger2_methods [] a m swagger2_methods_NoDup Hm Ha)
      as [acc1 [acc2 [H1 [H2 H3]]]].
    unfold f in H1. rewrite get_obj in H1. cbn [bind] in H1. simpl in H2, H3.
    destruct (truthy (field ifs m)).
    - split; [| discriminate]. intros _. inv_bind. injection H1 as <-.
      eexists. split; [eassumption |]. rewrite H3, lookup_set_field, String.eqb_refl. reflexivity.
    - split; [discriminate |]. intros _. injection H1 as <-. rewrite H3, H2. reflexivity. }
  destruct (truthy (field ifs "parameters")).
  - destruct (field ifs "parameters"); try discriminate. inv_bind. injection H as <-.
    eexists; split; [reflexivity |]. intros m Hm.
    rewrite lookup_set_field, (swagger2_methods_not_parameters m Hm). exact (Hops m Hm).
  - injection H as <-. eexists; split; [reflexivity | exact Hops].
Qed.

Lemma convertSwagger2Response_description rs c :
  convertSwagger2Response (JObj rs) = Ok c ->
  obj_field c "description" = js_or (field rs "description") (JStr "Response").
Proof.
  unfold convertSwagger2Response. rewrite !get_obj. cbn [bind]. intros H.
  apply bind_Ok in H. destruct H as [conv [Hc H]]. cbn [bind] in H. injection H as <-.
  destruct (truthy (field rs "schema")).
  - inv_bind. injection Hc as <-. destruct (truthy (field rs "headers")); reflexivity.
  - injection Hc as <-. destruct (truthy (field rs "headers")); reflexivity.
Qed.

(** A converted operation keeps, under each response code, the response's
    description, or ["Response"] when it is falsy. *)
Lemma convertSwagger2Operation_descriptions ofs oc rfs :
  convertSwagger2Operation (JObj ofs) = Ok oc -> field ofs "responses" = JObj rfs ->
  NoDup (map fst rfs) ->
  forall code rs, In (code, JObj rs) rfs ->
    obj_field (obj_field (obj_field oc "responses") code) "description"
    = js_or (field rs "description") (JStr "Response").
Proof.
  intros H Hr Hnd code rs Hin. unfold convertSwagger2Operation in H. rewrite !get_obj in H.
  cbn [bind] in H. apply bind_Ok in H. destruct H as [tail [_ H]].
  rewrite Hr in H. cbn [truthy entries bind] in H.
  apply bind_Ok in H. destruct H as [conv [Hconv H]]. injection H as <-.
  destruct (keyed_fold_lookup convertSwagger2Response rfs conv Hnd Hconv) as [Hl _].
  destruct (Hl code (JObj rs) Hin) as [c [Hc Hlc]].
  match goal with |- obj_field (obj_field (obj_field ?o "responses") code) _ = _ =>
    replace (obj_field o "responses") with (JObj conv) by reflexivity end.
  change (obj_field (JObj conv) code) with (field conv code). unfold field at 1. rewrite Hlc.
  exact (convertSwagger2Response_description rs c Hc).
Qed.

Ltac invert_ok :=
  repeat match goal with
  | H : Ok _ = Ok _ |- _ => injection H as H; subst
  | H : Throw _ = Ok _ |- _ => discriminate H
  | H : get (JObj _) _ = Ok _ |- _ => rewrite get_obj in H
  | H : opt_get (JObj _) _ = Ok _ |- _ => cbn [opt_get] in H
  | H : bind _ _ = Ok _ |- _ => apply bind_Ok in H; destruct H as [? [? H]]
  | H : (if ?b then _ else _) = Ok _ |- _ => destruct b eqn:?
  end.

(** The converted document is tagged [openapi: '3.0.0'] and its paths are
    the conversions of the source's path items. *)
Lemma convertSwagger2ToOpenAPI3_paths dfs pfs C :
  convertSwagger2ToOpenAPI3 (JObj dfs) = Ok C -> field dfs "paths" = JObj pfs ->
  exists paths3,
    foldM (fun acc '(path, pathItem) =>
             let* c := convert_path_item pathItem in Ok (set_field acc path c)) [] pfs = Ok paths3 /\
    obj_field C "openapi" = JStr "3.0.0" /\ obj_field C "paths" = JObj paths3.
Proof.
  intros H Hp. unfold convertSwagger2ToOpenAPI3 in H. invert_ok.
  all: rewrite Hp in *; cbn [truthy entries] in *; try discriminate; invert_ok.
  all: eexists; split; [eassumption |]; destruct (truthy (field dfs "tags")); split; reflexivity.
Qed.

Lemma parseFromText_parsed jp yp st content D :
  match jp content with Some v => Some v | None => yp content end = Some D ->
  parseFromText jp yp st content =
    (if negb (truthy D) then (D, Throw (Error "Invalid specification format."))
     else match is_swagger2 D with
          | Throw e => (D, Throw e)
          | Ok true => match convertSwagger2ToOpenAPI3 D with
                       | Ok converted => (converted, Ok converted)
                       | Throw e => (D, Throw e)
                       end
          | Ok false => match get D "openapi" with
                        | Ok o => if truthy o then (D, Ok D)
                                  else (D, Throw (Error "Invalid OpenAPI specification. Missing openapi version."))
                        | Throw e => (D, Throw e)
                        end
          end).
Proof. intros H. unfold parseFromText. rewrite H. reflexivity. Qed.

Lemma convertSwagger2ToOpenAPI3_openapi dfs C :
  convertSwagger2ToOpenAPI3 (JObj dfs) = Ok C -> obj_field C "openapi" = JStr "3.0.0".
Proof.
  intros H. unfold convertSwagger2ToOpenAPI3 in H. invert_ok.
  all: destruct (truthy (field dfs "tags")); reflexivity.
Qed.

Lemma converted_paths_shape dfs pfs C :
  convertSwagger2ToOpenAPI3 (JObj dfs) = Ok C -> field dfs "paths" = JObj pfs ->
  NoDup (map fst pfs) -> paths_preserved pfs C.
Proof.
  intros H Hp Hnd. unfold paths_preserved.
  destruct (convertSwagger2ToOpenAPI3_paths dfs pfs C H Hp) as [paths3 [Hf [_ Hc]]].
  destruct (keyed_fold_lookup convert_path_item pfs paths3 Hnd Hf) as [Hl Hk].
  exists paths3. split; [exact Hc |]. split; [exact Hk |].
  intros path ifs Hin. destruct (Hl path (JObj ifs) Hin) as [c [Hcv Hlc]].
  destruct (convert_path_item_methods ifs c Hcv) as [ops [-> Hops]].
  exists ops. split; [rewrite Hc; unfold obj_field, field; rewrite Hlc; reflexivity |].
  intros m Hm. destruct (Hops m Hm) as [Ht Hf'].
  split.
  - split.
    + intros E. destruct (Ht E) as [oc [_ Ho]]. rewrite Ho. discriminate.
    + intros Hn. destruct (truthy (field ifs m)) eqn:E; [reflexivity | contradiction (Hn (Hf' eq_refl))].
  - intros ofs rfs Hm' Hr Hndr code rs Hinr.
    assert (E : truthy (field ifs m) = true) by (rewrite Hm'; reflexivity).
    destruct (Ht E) as [oc [Hoc Ho]]. rewrite Hm' in Hoc.
    change (obj_field (JObj ops) m) with (field ops m). unfold field at 1. rewrite Ho.
    exact (convertSwagger2Operation_descriptions ofs oc rfs Hoc Hr Hndr code rs Hinr).
Qed.

(** C8 (counterexample): a document carrying both [openapi: '3.1.0'] and
    [swagger: '2.0'] does not pass through unchanged (it is converted and
    comes out tagged 3.0.0), and an empty response description is not kept
    (it becomes ["Response"]). *)
Lemma parseFromText_openapi_and_swagger_converted :
  parseFromText (fun _ => Some (JObj dual_doc)) (fun _ => None) JNull "doc"
    <> (JObj dual_doc, Ok (JObj dual_doc)) /\
  match parseFromText (fun _ => Some (JObj (scenario_b_doc ""))) (fun _ => None) JNull "doc" with
  | (C, Ok _) =>
      obj_field (obj_field (obj_field (obj_field (obj_field (obj_field C "paths") "/x") "get")
        "responses") "200") "description" = JStr "Response"
  | _ => False
  end.
Proof. split; [vm_compute; discriminate | vm_compute; reflexivity]. Qed.

(** C8 (amended): let the text parse (as JSON, else as YAML) to an object.
    If its [swagger] is a string starting with "2." and the conversion does
    not throw, the parser's document and result are the converted document,
    tagged [openapi: '3.0.0'], with the same path keys, at each path the same
    methods among get, post, put, delete, patch, options and head, and each
    response's description kept when truthy (["Response"] otherwise).  If
    its [swagger] is falsy, or a string not starting with "2.", and its
    [openapi] truthy, the document passes unchanged.  If its [swagger] is
    so and its [openapi] falsy, parsing fails with the error "Invalid
    OpenAPI specification. Missing openapi version.". *)
Theorem parseFromText_discriminator (jp yp : string -> option jv) (st : jv) (content : string)
  (dfs : list (string * jv)) :
  match jp content with Some v => Some v | None => yp content end = Some (JObj dfs) ->
  (forall s C, field dfs "swagger" = JStr s -> startsWith s "2." = true ->
     convertSwagger2ToOpenAPI3 (JObj dfs) = Ok C ->
     parseFromText jp yp st content = (C, Ok C) /\ obj_field C "openapi" = JStr "3.0.0" /\
     (forall pfs, field dfs "paths" = JObj pfs -> NoDup (map fst pfs) -> paths_preserved pfs C)) /\
  ((truthy (field dfs "swagger") = false \/
    exists s, field dfs "swagger" = JStr s /\ startsWith s "2." = false) ->
   truthy (field dfs "openapi") = true ->
     parseFromText jp yp st content = (JObj dfs, Ok (JObj dfs))) /\
  ((truthy (field dfs "swagger") = false \/
    exists s, field dfs "swagger" = JStr s /\ startsWith s "2." = false) ->
   truthy (field dfs "openapi") = false ->
     snd (parseFromText jp yp st content)
     = Throw (Error "Invalid OpenAPI specification. Missing openapi version.")).
Proof.
  intros Hparse. rewrite (parseFromText_parsed jp yp st content (JObj dfs) Hparse).
  cbn [truthy negb]. unfold is_swagger2. rewrite !get_obj. cbn [bind].
  split; [| split].
  - intros s C Hs Hst HC. rewrite Hs. cbn [truthy].
    assert (Hne : String.eqb s "" = false).
    { destruct s; [discriminate | reflexivity]. }
    rewrite Hne. cbn [negb]. rewrite Hst, HC. split; [reflexivity |].
    split; [exact (convertSwagger2ToOpenAPI3_openapi dfs C HC) |].
    intros pfs Hp Hnd. exact (converted_paths_shape dfs pfs C HC Hp Hnd).
  - intros [Hs | [s [Hs Hst]]] Ho; rewrite Hs; [rewrite Ho; reflexivity |].
    cbn [truthy]. destruct (String.eqb s ""); cbn [negb]; rewrite ?Hst, Ho; reflexivity.
  - intros [Hs | [s [Hs Hst]]] Ho; rewrite Hs; [rewrite Ho; reflexivity |].
    cbn [truthy]. destruct (String.eqb s ""); cbn [negb]; rewrite ?Hst, Ho; reflexivity.
Qed.

Lemma parseFromText_discriminator_witness :
  let C := match convertSwagger2ToOpenAPI3 (JObj (scenario_b_doc "ok")) with
           | Ok c => c | Throw _ => JNull end in
  parseFromText (fun _ => Some (JObj (scenario_b_doc "ok"))) (fun _ => None) JNull "doc" = (C, Ok C) /\
  obj_field C "openapi" = JStr "3.0.0" /\
  paths_preserved (match field (scenario_b_doc "ok") "paths" with JObj pfs => pfs | _ => [] end) C /\
  obj_field (obj_field (obj_field (obj_field (obj_field (obj_field C "paths") "/x") "get")
    "responses") "200") "description" = JStr "ok".
Proof.
  intros C.
  assert (HC : convertSwagger2ToOpenAPI3 (JObj (scenario_b_doc "ok")) = Ok C) by reflexivity.
  destruct (proj1 (parseFromText_discriminator (fun _ => Some (JObj (scenario_b_doc "ok")))
              (fun _ => None) JNull "doc" (scenario_b_doc "ok") eq_refl) "2.0" C eq_refl eq_refl HC)
    as [H1 [H2 H3]].
  split; [exact H1 |]. split; [exact H2 |]. split.
  - apply H3; [reflexivity |]. repeat constructor; intros [].
  - reflexivity.
Defined.

(** ** Unused schemas *)

Lemma set_add_In n u x : In x (set_add n u) <-> x = n \/ In x u.
Proof.
  unfold set_add. destruct (existsb (String.eqb n) u) eqn:E.
  - apply existsb_exists in E. destruct E as [y [Hy Hn]]. apply String.eqb_eq in Hn. subst y.
    intuition congruence.
  - rewrite in_app_iff. simpl. intuition congruence.
Qed.

Lemma set_add_NoDup n u : NoDup u -> NoDup (set_add n u).
Proof.
  unfold set_add. intros H. destruct (existsb (String.eqb n) u) eqn:E; [exact H |].
  apply NoDup_app; [exact H | constructor; [intros [] | constructor] |].
  intros x Hx [-> | []]. assert (existsb (String.eqb x) u = true) by
    (apply existsb_exists; exists x; split; [exact Hx | apply String.eqb_refl]). congruence.
Qed.

Lemma set_add_mem n u : In n u -> set_add n u = u.
Proof.
  intros H. unfold set_add. replace (existsb (String.eqb n) u) with true; [reflexivity |].
  symmetry. apply existsb_exists. exists n. split; [exact H | apply String.eqb_refl].
Qed.

Lemma RefIn_arr xs x : RefIn (JArr xs) x <-> exists v, In v xs /\ RefIn v x.
Proof.
  split.
  - intros H. inversion H; subst. eauto.
  - intros [v [Hv H]]. exact (RefIn_elem xs v x Hv H).
Qed.

Lemma RefIn_obj fs x :
  RefIn (JObj fs) x <-> RefHere fs x \/ exists kv, In kv fs /\ RefIn (snd kv) x.
Proof.
  split.
  - intros H. inversion H; subst; [left; exists r; auto | right; eauto].
  - intros [[r [H1 [H2 [H3 ->]]]] | [kv [Hin H]]]; [apply RefIn_here | eapply RefIn_field]; eauto.
Qed.

(** [findRefs o] adds to the set exactly the targets of the references in [o]. *)
Lemma findRefs_correct o : findRefs_facts o.
Proof.
  induction o as [| | b | n | s | xs Hxs | fs Hfs] using jv_ind_nested; unfold findRefs_facts.
  1-5: intros u; split; [auto | split; [| reflexivity]];
       intros x; split; [auto | intros [H | H]; [exact H | inversion H]].
  - intros u. simpl findRefs. revert u.
    induction Hxs as [| y xs Hy Hxs IH]; intros u.
    + split; [auto | split; [| reflexivity]]. intros x. rewrite RefIn_arr.
      split; [auto | intros [H | [v [[] _]]]; exact H].
    + destruct (Hy u) as [Hy1 [Hy2 Hy3]]. destruct (IH (findRefs y u)) as [I1 [I2 I3]].
      split; [| split].
      * intros H. exact (I1 (Hy1 H)).
      * intros x. rewrite I2, Hy2, !RefIn_arr. simpl. split.
        -- intros [[H | H] | [v [Hv H]]]; [left; exact H | right; exists y; auto | right; exists v; auto].
        -- intros [H | [v [[-> | Hv] H]]]; [left; left; exact H | left; right; exact H |
                                            right; exists v; auto].
      * intros Hall. 
        assert (Ey : findRefs y u = u).
        { apply Hy3. intros x Hx. apply Hall. apply RefIn_arr. exists y. simpl; auto. }
        rewrite Ey in I3 |- *. apply I3. intros x Hx. apply Hall.
        apply RefIn_arr in Hx. destruct Hx as [v [Hv H]]. apply RefIn_arr. exists v. simpl; auto.
  - intros u. simpl findRefs.
    assert (Hu : forall u, (NoDup u ->
                 NoDup (match field fs "$ref" with
                        | JStr r => if negb (String.eqb r "") && negb (String.eqb (last_segment "/" r "") "")
                                    then set_add (last_segment "/" r "") u else u
                        | _ => u end)) /\
                 (forall x, In x (match field fs "$ref" with
                        | JStr r => if negb (String.eqb r "") && negb (String.eqb (last_segment "/" r "") "")
                                    then set_add (last_segment "/" r "") u else u
                        | _ => u end) <-> In x u \/ RefHere fs x) /\
                 ((forall x, RefHere fs x -> In x u) ->
                  match field fs "$ref" with
                  | JStr r => if negb (String.eqb r "") && negb (String.eqb (last_segment "/" r "") "")
                              then set_add (last_segment "/" r "") u else u
                  | _ => u end = u)).
    { intros u0. unfold RefHere. destruct (field fs "$ref") eqn:Er.
      all: try (split; [auto | split; [intros x; split; [auto | intros [H | [r [H _]]]; [exact H | discriminate]] |
                                       reflexivity]]).
      destruct (String.eqb s "") eqn:E1, (String.eqb (last_segment "/" s "") "") eqn:E2; simpl.
      all: try (split; [auto | split; [| reflexivity]]; intros x; split; [auto |];
                intros [H | [r [Hr [H1 [H2 ->]]]]]; [exact H | injection Hr as <-;
                  apply String.eqb_eq in E1 || apply String.eqb_eq in E2; contradiction]).
      split; [apply set_add_NoDup | split].
      - intros x. rewrite set_add_In. split.
        + intros [-> | H]; [right; exists s; repeat split; auto | left; exact H].
          * intros E. subst s. discriminate.
          * intros E. unfold ref_name in E. rewrite E in E2. discriminate.
        + intros [H | [r [Hr [_ [_ ->]]]]]; [right; exact H | injection Hr as <-; left; reflexivity].
      - intros Hall. apply set_add_mem. apply Hall. exists s. repeat split; auto.
        + intros E. subst s. discriminate.
        + intros E. unfold ref_name in E. rewrite E in E2. discriminate. }
    destruct (Hu u) as [U1 [U2 U3]].
    set (u1 := match field fs "$ref" with
               | JStr r => if negb (String.eqb r "") && negb (String.eqb (last_segment "/" r "") "")
                           then set_add (last_segment "/" r "") u else u
               | _ => u end) in *.
    assert (Hgo : forall l v, (forall kv, In kv l -> In kv fs) ->
      (NoDup v -> NoDup ((fix go (l : list (string * jv)) (u : list string) : list string :=
                  match l with [] => u | (_, v) :: r => go r (findRefs v u) end) l v)) /\
      (forall x, In x ((fix go (l : list (string * jv)) (u : list string) : list string :=
                  match l with [] => u | (_, v) :: r => go r (findRefs v u) end) l v)
                 <-> In x v \/ exists kv, In kv l /\ RefIn (snd kv) x) /\
      ((forall x, (exists kv, In kv l /\ RefIn (snd kv) x) -> In x v) ->
       (fix go (l : list (string * jv)) (u : list string) : list string :=
                  match l with [] => u | (_, v) :: r => go r (findRefs v u) end) l v = v)).
    { induction l as [| [k w] l IHl]; intros v Hsub.
      - split; [auto | split; [| reflexivity]]. intros x; split; [auto | intros [H | [kv [[] _]]]; exact H].
      - assert (Hw : findRefs_facts w).
        { rewrite Forall_forall in Hfs. exact (Hfs (k, w) (Hsub _ (or_introl eq_refl))). }
        destruct (Hw v) as [W1 [W2 W3]].
        destruct (IHl (findRefs w v) (fun kv H => Hsub kv (or_intror H))) as [I1 [I2 I3]].
        split; [| split].
        + intros H. exact (I1 (W1 H)).
        + intros x. rewrite I2, W2. simpl. split.
          * intros [[H | H] | [kv [Hkv H]]]; [left; exact H | right; exists (k, w); auto | right; exists kv; auto].
          * intros [H | [kv [[<- | Hkv] H]]]; [left; left; exact H | left; right; exact H | right; exists kv; auto].
        + intros Hall.
          assert (Ew : findRefs w v = v).
          { apply W3. intros x Hx. apply Hall. exists (k, w). simpl; auto. }
          rewrite Ew in I3 |- *. apply I3. intros x [kv [Hkv H]]. apply Hall. exists kv. simpl; auto. }
    destruct (Hgo fs u1 (fun kv H => H)) as [G1 [G2 G3]].
    split; [| split].
    + intros H. exact (G1 (U1 H)).
    + intros x. rewrite G2, U2, RefIn_obj. tauto.
    + intros Hall. rewrite G3.
      * apply U3. intros x Hx. apply Hall. apply RefIn_obj. left; exact Hx.
      * intros x Hx. apply U2. left. apply Hall. apply RefIn_obj. right; exact Hx.
Qed.

Lemma lookup_In fs k v : lookup fs k = Some v -> In (k, v) fs.
Proof.
  induction fs as [| [k0 v0] fs IH]; simpl; [discriminate |].
  destruct (String.eqb k k0) eqn:E; intros H.
  - apply String.eqb_eq in E. injection H as <-. subst. left. reflexivity.
  - right. exact (IH H).
Qed.

(** Every schema body lies inside [components]. *)
Lemma RefIn_schema cfs sfs n x :
  field cfs "schemas" = JObj sfs -> RefIn (field sfs n) x -> RefIn (JObj cfs) x.
Proof.
  intros Hs H. unfold field in Hs, H.
  destruct (lookup cfs "schemas") as [sv |] eqn:E1; [| discriminate]. subst sv.
  destruct (lookup sfs n) as [v |] eqn:E2; [| inversion H].
  apply (RefIn_field cfs ("schemas", JObj sfs) x (lookup_In _ _ _ E1)).
  exact (RefIn_field sfs (n, v) x (lookup_In _ _ _ E2) H).
Qed.

Lemma rescan_closed sfs used :
  (forall n x, RefIn (field sfs n) x -> In x used) -> rescan (JObj sfs) used = used.
Proof.
  intros Hc. unfold rescan. generalize used at 1 as l.
  induction l as [| n l IH]; [reflexivity |]. cbn [fold_left]. rewrite get_obj.
  destruct (truthy (field sfs n)); [| exact IH].
  destruct (findRefs_correct (field sfs n) used) as [_ [_ H]].
  rewrite H; [exact IH | intros x Hx; exact (Hc n x Hx)].
Qed.

Lemma indirect_loop_fixed fuel schemas prev used :
  rescan schemas used = used -> indirect_loop fuel schemas prev used = used.
Proof.
  intros H. revert prev. induction fuel as [| f IH]; intros prev; simpl; [reflexivity |].
  destruct (Nat.eqb (List.length used) prev); [reflexivity |]. rewrite H. apply IH.
Qed.

Lemma insert_sorted_perm x l : Permutation (insert_sorted x l) (x :: l).
Proof.
  induction l as [| y l IH]; simpl; [reflexivity |].
  destruct (String.leb x y); [reflexivity |].
  rewrite IH. apply perm_swap.
Qed.

Lemma sort_strings_perm l : Permutation (sort_strings l) l.
Proof.
  induction l as [| x l IH]; simpl; [reflexivity |].
  rewrite insert_sorted_perm. apply perm_skip. exact IH.
Qed.

Lemma used_schemas_refs dfs cfs sfs include :
  field dfs "components" = JObj cfs -> field cfs "schemas" = JObj sfs ->
  NoDup (used_schemas (JObj dfs) include) /\
  forall x, In x (used_schemas (JObj dfs) include) <-> RefIn (field dfs "paths") x \/ RefIn (JObj cfs) x.
Proof.
  intros Hc Hs. unfold used_schemas. rewrite get_obj. cbn [opt_get]. rewrite get_obj, Hc.
  cbn [opt_get truthy]. rewrite get_obj, Hs.
  destruct (findRefs_correct (field dfs "paths") []) as [P1 [P2 _]].
  destruct (findRefs_correct (JObj cfs) (findRefs (field dfs "paths") [])) as [C1 [C2 _]].
  assert (Hn : NoDup (findRefs (JObj cfs) (findRefs (field dfs "paths") [])))
    by (apply C1, P1; constructor).
  assert (Hm : forall x, In x (findRefs (JObj cfs) (findRefs (field dfs "paths") [])) <->
                         RefIn (field dfs "paths") x \/ RefIn (JObj cfs) x).
  { intros x. rewrite C2, P2. simpl. tauto. }
  destruct include; [| split; assumption].
  rewrite indirect_loop_fixed; [split; assumption |].
  apply rescan_closed. intros n x Hx. apply Hm. right. exact (RefIn_schema cfs sfs n x Hs Hx).
Qed.

Lemma Reachable_refs include paths cfs sfs x :
  field cfs "schemas" = JObj sfs ->
  Reachable include paths (JObj cfs) sfs x <-> RefIn paths x \/ RefIn (JObj cfs) x.
Proof.
  intros Hs. split.
  - induction 1 as [x H | x H | n x _ _ IH H]; [left; exact H | right; exact H |].
    right. exact (RefIn_schema cfs sfs n x Hs H).
  - intros [H | H]; [apply reach_paths | apply reach_components]; exact H.
Qed.

Lemma sort_strings_In x l : In x (sort_strings l) <-> In x l.
Proof.
  split; apply Permutation_in; [| apply Permutation_sym]; apply sort_strings_perm.
Qed.

Lemma existsb_eqb_In n l : existsb (String.eqb n) l = true <-> In n l.
Proof.
  rewrite existsb_exists. split.
  - intros [y [Hy E]]. apply String.eqb_eq in E. subst. exact Hy.
  - intros H. exists n. split; [exact H | apply String.eqb_refl].
Qed.

(** The unused-schema report: on a document whose [components.schemas] is
    an object, the unused schemas are exactly the schema names outside the
    reachable set (the [$ref] targets under [paths] and [components], closed
    under the references of each reachable schema when indirect references
    are included), the used schemas are that reachable set without
    duplicates, and the usage percentage is
    [Math.round((reachable / total) * 100)] computed on doubles, [null] when
    there are no schemas.  Every schema body lies inside [components], so
    the closure adds nothing and both settings of
    [includeIndirectReferences] give the same report. *)
Theorem findUnusedSchemas_reachable (dfs cfs sfs : list (string * jv)) (include : bool) :
  field dfs "components" = JObj cfs -> field cfs "schemas" = JObj sfs ->
  exists rep, findUnusedSchemas (JObj dfs) include = Some rep /\
    (forall n, In n (unusedSchemas rep) <->
               In n (map fst sfs) /\ ~ Reachable include (field dfs "paths") (JObj cfs) sfs n) /\
    (forall n, In n (usedSchemas rep) <-> Reachable include (field dfs "paths") (JObj cfs) sfs n) /\
    NoDup (usedSchemas rep) /\
    totalSchemas rep = List.length sfs /\
    unusedCount rep = List.length (unusedSchemas rep) /\
    usagePercentage rep =
      (if (List.length sfs =? 0)%nat then None
       else Some (math_round (fmul (fdiv (inject_Z (Z.of_nat (List.length (usedSchemas rep))))
                                          (inject_Z (Z.of_nat (List.length sfs))))
                                    (inject_Z 100)))).
Proof.
  intros Hc Hs.
  destruct (used_schemas_refs dfs cfs sfs include Hc Hs) as [Hnd Hin].
  unfold findUnusedSchemas. cbn [truthy negb opt_get]. rewrite get_obj, Hc.
  cbn [opt_get]. rewrite get_obj, Hs. cbn [truthy negb].
  unfold schema_keys. cbn [entries].
  eexists. split; [reflexivity |]. cbn [unusedSchemas usedSchemas totalSchemas unusedCount usagePercentage].
  split; [| split; [| split; [| split; [| split]]]].
  - intros n. rewrite (sort_strings_In n), filter_In, (Reachable_refs _ _ _ _ _ Hs), <- Hin.
    rewrite negb_true_iff, <- not_true_iff_false, existsb_eqb_In. tauto.
  - intros n. rewrite (sort_strings_In n), (Reachable_refs _ _ _ _ _ Hs), Hin. tauto.
  - exact (Permutation_NoDup (Permutation_sym (sort_strings_perm _)) Hnd).
  - apply length_map.
  - symmetry. apply Permutation_length. apply sort_strings_perm.
  - rewrite length_map. unfold usage_percentage.
    rewrite (Permutation_length (sort_strings_perm _)). reflexivity.
Qed.

(** C9 (code bug): the usage percentage is not reachable/total x 100
    rounded.  With 23 of 40 schemas reachable the ratio is 57.5%, which
    rounds to 58, but the handler computes [(23 / 40) * 100] on doubles,
    giving 57.49999999999999, and [Math.round] of that is 57. *)
Theorem findUnusedSchemas_percentage_rounding :
  match findUnusedSchemas (JObj pct_doc) true with
  | Some rep => totalSchemas rep = 40%nat /\ List.length (usedSchemas rep) = 23%nat /\
                unusedCount rep = 17%nat /\ usagePercentage rep = Some 57%Z
  | None => False
  end /\
  Qfloor (inject_Z 23 / inject_Z 40 * 100 + (1#2)) = 58%Z.
Proof. split; vm_compute; [repeat split | reflexivity]. Qed.

Lemma findUnusedSchemas_reachable_witness :
  (exists rep, findUnusedSchemas (JObj (scenario_e_doc true)) true = Some rep /\
     unusedSchemas rep = [] /\
     forall n, In n (usedSchemas rep) <->
       Reachable true (field (scenario_e_doc true) "paths") (JObj (scenario_e_components true))
         (scenario_e_schemas true) n) /\
  (exists rep, findUnusedSchemas (JObj (scenario_e_doc false)) false = Some rep /\
     unusedSchemas rep = ["B"] /\
     forall n, In n (unusedSchemas rep) <->
       In n ["A"; "B"] /\
       ~ Reachable false (field (scenario_e_doc false) "paths") (JObj (scenario_e_components false))
           (scenario_e_schemas false) n).
Proof.
  split.
  - destruct (findUnusedSchemas_reachable (scenario_e_doc true) (scenario_e_components true)
                (scenario_e_schemas true) true eq_refl eq_refl) as [rep [H1 [_ [H3 _]]]].
    exists rep. split; [exact H1 |]. split; [| exact H3].
    vm_compute in H1. injection H1 as <-. reflexivity.
  - destruct (findUnusedSchemas_reachable (scenario_e_doc false) (scenario_e_components false)
                (scenario_e_schemas false) false eq_refl eq_refl) as [rep [H1 [H2 _]]].
    exists rep. split; [exact H1 |]. split; [| exact H2].
    vm_compute in H1. injection H1 as <-. reflexivity.
Defined.

(** ** Body parameters *)

Lemma conv_field_with_lookup f fs k :
  conv_field_with f fs k = match lookup fs k with Some v => f v | None => Ok (JObj []) end.
Proof. induction fs as [| [k' v] r IH]; cbn [conv_field_with wf_field_with shape_field_with conv_props_with wf_props_with shape_props_with conv_allOf_with wf_allOf_with lookup]; [reflexivity |]. destruct (String.eqb k k'); auto. Qed.

Lemma wf_field_with_lookup f fs k :
  wf_field_with f fs k = match lookup fs k with Some v => f v | None => True end.
Proof. induction fs as [| [k' v] r IH]; cbn [conv_field_with wf_field_with shape_field_with conv_props_with wf_props_with shape_props_with conv_allOf_with wf_allOf_with lookup]; [reflexivity |]. destruct (String.eqb k k'); auto. Qed.

Lemma shape_field_with_lookup f fs k c :
  shape_field_with f fs k c = match lookup fs k with Some v => f v c | None => True end.
Proof. induction fs as [| [k' v] r IH]; cbn [conv_field_with wf_field_with shape_field_with conv_props_with wf_props_with shape_props_with conv_allOf_with wf_allOf_with lookup]; [reflexivity |]. destruct (String.eqb k k'); auto. Qed.

Lemma conv_props_with_lookup f fs :
  conv_props_with f fs =
  match lookup fs "properties" with
  | Some (JObj pfs) => conv_entries_with f [] pfs
  | Some (JArr xs) => conv_items_with f [] 0%nat xs
  | Some (JStr s) => Ok (map (fun kv => (fst kv, JObj (converted_base []))) (indexed (chars s) 0))
  | _ => Ok []
  end.
Proof.
  induction fs as [| [k' v] r IH]; cbn [conv_field_with wf_field_with shape_field_with conv_props_with wf_props_with shape_props_with conv_allOf_with wf_allOf_with lookup]; [reflexivity |].
  destruct (String.eqb "properties" k'); [destruct v; reflexivity | exact IH].
Qed.

Lemma wf_props_with_lookup f fs :
  wf_props_with f fs =
  match lookup fs "properties" with
  | Some (JObj pfs) => NoDup (map fst pfs) /\ wf_entries_with f pfs
  | Some _ => False
  | None => True
  end.
Proof.
  induction fs as [| [k' v] r IH]; cbn [conv_field_with wf_field_with shape_field_with conv_props_with wf_props_with shape_props_with conv_allOf_with wf_allOf_with lookup]; [reflexivity |].
  destruct (String.eqb "properties" k'); [destruct v; reflexivity | exact IH].
Qed.

Lemma shape_props_with_lookup f fs c :
  shape_props_with f fs c =
  match lookup fs "properties" with
  | Some (JObj pfs) => exists cps, c = JObj cps /\ map fst cps = map fst pfs /\ shape_entries_with f pfs cps
  | _ => True
  end.
Proof.
  induction fs as [| [k' v] r IH]; cbn [conv_field_with wf_field_with shape_field_with conv_props_with wf_props_with shape_props_with conv_allOf_with wf_allOf_with lookup]; [reflexivity |].
  destruct (String.eqb "properties" k'); [destruct v; reflexivity | exact IH].
Qed.

Lemma conv_allOf_with_lookup f fs :
  conv_allOf_with f fs =
  match lookup fs "allOf" with
  | Some (JArr xs) => let* cs := mapM f xs in Ok (JArr cs)
  | Some _ => Throw TypeError
  | None => Ok JUndef
  end.
Proof.
  induction fs as [| [k' v] r IH]; cbn [conv_field_with wf_field_with shape_field_with conv_props_with wf_props_with shape_props_with conv_allOf_with wf_allOf_with lookup]; [reflexivity |].
  destruct (String.eqb "allOf" k'); [destruct v; reflexivity | exact IH].
Qed.

Lemma wf_allOf_with_lookup f fs :
  wf_allOf_with f fs =
  match lookup fs "allOf" with
  | Some (JArr xs) => wf_list_with f xs
  | Some _ => False
  | None => True
  end.
Proof.
  induction fs as [| [k' v] r IH]; cbn [conv_field_with wf_field_with shape_field_with conv_props_with wf_props_with shape_props_with conv_allOf_with wf_allOf_with lookup]; [reflexivity |].
  destruct (String.eqb "allOf" k'); [destruct v; reflexivity | exact IH].
Qed.

Lemma set_field_new fs k v : ~ In k (map fst fs) -> set_field fs k v = app fs [(k, v)].
Proof.
  induction fs as [| [k' v'] r IH]; simpl; intros H; [reflexivity |].
  destruct (String.eqb k k') eqn:E.
  - apply String.eqb_eq in E. subst. exfalso. apply H. left. reflexivity.
  - f_equal. apply IH. intros H'. apply H. right. exact H'.
Qed.

Lemma lookup_app_single acc k c k' :
  lookup (app acc [(k, c)]) k' =
  match lookup acc k' with Some v => Some v | None => if String.eqb k' k then Some c else None end.
Proof.
  induction acc as [| [k0 v0] r IH]; simpl; [reflexivity |].
  destruct (String.eqb k' k0); [reflexivity | exact IH].
Qed.

Lemma lookup_None fs k : ~ In k (map fst fs) -> lookup fs k = None.
Proof.
  intros H. destruct (lookup fs k) eqn:E; [| reflexivity].
  exfalso. apply H. apply lookup_in_keys. rewrite E. discriminate.
Qed.

(** The [properties] loop on distinct keys: the converted properties have
    the same keys, in the same order, each holding the conversion of the
    property of that key. *)
Lemma conv_entries_spec (f : jv -> res jv) (Q : jv -> jv -> Prop) pfs : forall acc,
  NoDup (app (map fst acc) (map fst pfs)) ->
  (forall k v, In (k, v) pfs -> exists c, f v = Ok c /\ Q v c) ->
  exists out, conv_entries_with f acc pfs = Ok out /\
    map fst out = app (map fst acc) (map fst pfs) /\
    (forall k v, In (k, v) pfs -> Q v (field out k)) /\
    (forall k, ~ In k (map fst pfs) -> field out k = field acc k).
Proof.
  induction pfs as [| [k v] r IH]; intros acc Hnd Hc.
  - exists acc. simpl. rewrite app_nil_r. split; [reflexivity | split; [reflexivity | split; [intros ? ? [] | auto]]].
  - destruct (Hc k v (or_introl eq_refl)) as [c [Hfc HQ]].
    simpl in Hnd. pose proof (NoDup_remove_2 _ _ _ Hnd) as Hk. rewrite in_app_iff in Hk.
    assert (Hacc : set_field acc k c = app acc [(k, c)])
      by (apply set_field_new; intros H; apply Hk; left; exact H).
    assert (Hnd' : NoDup (app (map fst (app acc [(k, c)])) (map fst r)))
      by (rewrite map_app, <- app_assoc; exact Hnd).
    destruct (IH (app acc [(k, c)]) Hnd' (fun k0 v0 H => Hc k0 v0 (or_intror H)))
      as [out [H1 [H2 [H3 H4]]]].
    exists out. simpl. rewrite Hfc. cbn [bind]. rewrite Hacc. split; [exact H1 |].
    split; [rewrite H2, map_app, <- app_assoc; reflexivity |]. split.
    + intros k0 v0 [E | Hin].
      * injection E as <- <-. rewrite H4 by (intros H; apply Hk; right; exact H).
        unfold field. rewrite lookup_app_single, lookup_None, String.eqb_refl
          by (intros H; apply Hk; left; exact H).
        exact HQ.
      * exact (H3 k0 v0 Hin).
    + intros k0 Hk0. simpl in Hk0. rewrite H4 by (intros H; apply Hk0; right; exact H).
      unfold field. rewrite lookup_app_single.
      destruct (lookup acc k0); [reflexivity |].
      destruct (String.eqb k0 k) eqn:E; [| reflexivity].
      apply String.eqb_eq in E. subst. exfalso. apply Hk0. left. reflexivity.
Qed.

Lemma mapM_total (f : jv -> res jv) xs :
  (forall x, In x xs -> exists c, f x = Ok c) -> exists cs, mapM f xs = Ok cs.
Proof.
  induction xs as [| x xs IH]; intros H; simpl; [eexists; reflexivity |].
  destruct (H x (or_introl eq_refl)) as [c Hc]. rewrite Hc. cbn [bind].
  destruct (IH (fun y Hy => H y (or_intror Hy))) as [cs Hcs]. rewrite Hcs. eexists; reflexivity.
Qed.

Lemma jv_size_arr_In xs x : In x xs -> (jv_size x < jv_size (JArr xs))%nat.
Proof.
  induction xs as [| y xs IH]; simpl; [intros [] |]. intros [-> | H]; [lia |].
  specialize (IH H). simpl in IH. lia.
Qed.

Lemma jv_size_obj_In fs k x : In (k, x) fs -> (jv_size x < jv_size (JObj fs))%nat.
Proof.
  induction fs as [| [k' y] fs IH]; simpl; [intros [] |]. intros [E | H].
  - injection E as -> ->. lia.
  - specialize (IH H). simpl in IH. lia.
Qed.

Lemma wf_entries_with_In (f : jv -> Prop) pfs k v : wf_entries_with f pfs -> In (k, v) pfs -> f v.
Proof.
  induction pfs as [| [k' v'] r IH]; simpl; [intros _ [] |].
  intros [H1 H2] [E | H]; [injection E as -> ->; exact H1 | exact (IH H2 H)].
Qed.

Lemma wf_list_with_In (f : jv -> Prop) xs x : wf_list_with f xs -> In x xs -> f x.
Proof.
  induction xs as [| y r IH]; simpl; [intros _ [] |].
  intros [H1 H2] [-> | H]; [exact H1 | exact (IH H2 H)].
Qed.

Lemma shape_entries_of (f : jv -> jv -> Prop) pfs cps :
  (forall k v, In (k, v) pfs -> f v (field cps k)) -> shape_entries_with f pfs cps.
Proof.
  induction pfs as [| [k v] r IH]; simpl; intros H; [exact I |].
  split; [apply H; left; reflexivity | apply IH; intros k' v' H'; apply H; right; exact H'].
Qed.

Lemma field_lookup_truthy fs k :
  truthy (field fs k) = true -> exists v, lookup fs k = Some v /\ field fs k = v.
Proof. unfold field. destruct (lookup fs k); [eauto | discriminate]. Qed.

(** A well-formed schema converts, and its conversion has its structure. *)
Lemma convertSwagger2Schema_shape_aux n : forall s,
  (jv_size s < n)%nat -> wf_schema s -> exists c, convertSwagger2Schema s = Ok c /\ shape_ok s c.
Proof.
  induction n as [| n IHn]; intros s Hsz Hwf; [lia |].
  destruct s as [| | b | z | str | xs | fs].
  1, 2, 6: eexists; split; [reflexivity | simpl; repeat split].
  - destruct b; eexists; split; [reflexivity | simpl; repeat split | reflexivity | simpl; repeat split].
  - destruct z; eexists; (split; [reflexivity | simpl; repeat split]).
  - destruct str; eexists; (split; [reflexivity | simpl; repeat split]).
  - assert (IHc : forall k v, lookup fs k = Some v -> wf_schema v ->
                  exists c, convertSwagger2Schema v = Ok c /\ shape_ok v c).
    { intros k v Hl Hv. apply IHn; [| exact Hv].
      pose proof (jv_size_obj_In fs k v (lookup_In _ _ _ Hl)). lia. }
    cbn [convertSwagger2Schema]. cbn [wf_schema] in Hwf.
    destruct (truthy (field fs "$ref")) eqn:Er.
    + destruct Hwf as [r Hr]. rewrite Hr. cbn [convert_ref].
      eexists; split; [reflexivity |]. cbn [shape_ok]. rewrite Er. eexists; reflexivity.
    + destruct Hwf as [Wi [Wp Wa]].
      assert (Hitems : truthy (field fs "items") = true ->
                exists ci, conv_field_with convertSwagger2Schema fs "items" = Ok ci /\
                           shape_field_with shape_ok fs "items" ci).
      { intros Ht. rewrite wf_field_with_lookup in Wi.
        destruct (field_lookup_truthy fs "items" Ht) as [v [El _]]. rewrite El in Wi.
        destruct (IHc "items" v El Wi) as [c [H1 H2]]. exists c.
        rewrite conv_field_with_lookup, shape_field_with_lookup, El. auto. }
      assert (Hprops : truthy (field fs "properties") = true ->
                exists ps, conv_props_with convertSwagger2Schema fs = Ok ps /\
                           shape_props_with shape_ok fs (JObj ps)).
      { intros Ht. specialize (Wp Ht). rewrite wf_props_with_lookup in Wp.
        destruct (field_lookup_truthy fs "properties" Ht) as [pv [El _]]. rewrite El in Wp.
        destruct pv as [| | | | | | pfs]; try contradiction. destruct Wp as [Hnd Hwe].
        assert (Hc' : forall k v, In (k, v) pfs -> exists c, convertSwagger2Schema v = Ok c /\ shape_ok v c).
        { intros k v Hin. apply IHn; [| exact (wf_entries_with_In _ pfs k v Hwe Hin)].
          pose proof (jv_size_obj_In pfs k v Hin).
          pose proof (jv_size_obj_In fs "properties" (JObj pfs) (lookup_In _ _ _ El)). lia. }
        destruct (conv_entries_spec convertSwagger2Schema shape_ok pfs [] Hnd Hc')
          as [out [H1 [H2 [H3 _]]]].
        exists out. rewrite conv_props_with_lookup, shape_props_with_lookup, El.
        split; [exact H1 |]. exists out. split; [reflexivity |].
        split; [exact H2 | apply shape_entries_of; exact H3]. }
      assert (Hall : truthy (field fs "allOf") = true ->
                exists ca, conv_allOf_with convertSwagger2Schema fs = Ok ca).
      { intros Ht. specialize (Wa Ht). rewrite wf_allOf_with_lookup in Wa.
        rewrite conv_allOf_with_lookup.
        destruct (field_lookup_truthy fs "allOf" Ht) as [av [El _]]. rewrite El in Wa |- *.
        destruct av as [| | | | | axs |]; try contradiction.
        destruct (mapM_total convertSwagger2Schema axs) as [cs Hcs].
        { intros x Hx. destruct (IHn x) as [c [Hc _]]; [| exact (wf_list_with_In _ axs x Wa Hx) |].
          - pose proof (jv_size_arr_In axs x Hx).
            pose proof (jv_size_obj_In fs "allOf" (JArr axs) (lookup_In _ _ _ El)). lia.
          - exists c. exact Hc. }
        rewrite Hcs. eexists; reflexivity. }
      destruct (truthy (field fs "items")) eqn:Ei;
        [destruct (Hitems eq_refl) as [ci [Hci Hsi]]; rewrite Hci |]; cbn [bind];
      (destruct (truthy (field fs "properties")) eqn:Ep;
        [destruct (Hprops eq_refl) as [ps [Hps Hsp]]; rewrite Hps |]; cbn [bind]);
      (destruct (truthy (field fs "allOf")) eqn:Ea;
        [destruct (Hall eq_refl) as [ca Hca]; rewrite Hca |]; cbn [bind]);
      eexists; (split; [reflexivity |]); cbn [shape_ok]; rewrite Er;
      eexists; (split; [reflexivity |]);
      destruct (truthy (field fs "required")) eqn:Eq;
      repeat split; try discriminate; intros H; first [assumption | congruence].
Qed.

Lemma convertSwagger2Schema_shape s :
  wf_schema s -> exists c, convertSwagger2Schema s = Ok c /\ shape_ok s c.
Proof. apply (convertSwagger2Schema_shape_aux (S (jv_size s))). lia. Qed.

Lemma foldM_app {A S} (f : S -> A -> res S) s l1 l2 :
  foldM f s (app l1 l2) = let* s' := foldM f s l1 in foldM f s' l2.
Proof.
  revert s. induction l1 as [| x l1 IH]; intros s; [reflexivity |].
  cbn [app foldM]. destruct (f s x); [apply IH | reflexivity].
Qed.

(** Parameters that are neither body nor formData entries leave the
    requestBody alone. *)
Lemma param_loop_plain l : forall cps rb,
  Forall (fun p => exists pfs, p = JObj pfs) l ->
  Forall (fun p => is_str (obj_field p "in") "body" = false) l ->
  Forall (fun p => is_form p = false) l ->
  Forall (fun p => is_str (obj_field p "in") "body" = false -> exists q, convertSwagger2Parameter p = Ok q) l ->
  exists cps', foldM convert_param_step (cps, rb) l = Ok (cps', rb).
Proof.
  induction l as [| p l IH]; intros cps rb Hobj Hnb Hnf Hok; [exists cps; reflexivity |].
  inversion Hobj as [| ? ? [pfs ->] Hobj']; subst.
  inversion Hnb as [| ? ? Hb Hnb']; subst.
  inversion Hnf as [| ? ? Hf Hnf']; subst.
  inversion Hok as [| ? ? Ho Hok']; subst.
  destruct (Ho Hb) as [q Hq].
  unfold is_form, obj_field in Hf, Hb.
  cbn [foldM]. unfold convert_param_step at 1. rewrite get_obj. cbn [bind].
  rewrite Hb, Hf, Hq. cbn [bind].
  exact (IH _ rb Hobj' Hnb' Hnf' Hok').
Qed.

Lemma param_step_body cps rb bfs s :
  field bfs "in" = JStr "body" -> convertSwagger2Schema (field bfs "schema") = Ok s ->
  convert_param_step (cps, rb) (JObj bfs) =
  Ok (cps, JObj [("description", field bfs "description"); ("required", field bfs "required");
                 ("content", JObj [("application/json", JObj [("schema", s)])])]).
Proof.
  intros Hin Hs. unfold convert_param_step. rewrite !get_obj. cbn [bind]. rewrite Hin. cbn [is_str].
  rewrite String.eqb_refl. cbn [bind]. rewrite Hs. reflexivity.
Qed.

(** In a converted document, the operation under a path and a method is the
    conversion of the source's operation there. *)
Lemma converted_operation_at dfs pfs C path ifs m op oc :
  convertSwagger2ToOpenAPI3 (JObj dfs) = Ok C -> field dfs "paths" = JObj pfs ->
  NoDup (map fst pfs) -> In (path, JObj ifs) pfs -> In m swagger2_methods ->
  field ifs m = op -> truthy op = true -> convertSwagger2Operation op = Ok oc ->
  obj_field (obj_field (obj_field C "paths") path) m = oc.
Proof.
  intros H Hp Hnd Hin Hm Hop Ht Hoc.
  destruct (convertSwagger2ToOpenAPI3_paths dfs pfs C H Hp) as [paths3 [Hf [_ Hc]]].
  destruct (keyed_fold_lookup convert_path_item pfs paths3 Hnd Hf) as [Hl _].
  destruct (Hl path (JObj ifs) Hin) as [c [Hcv Hlc]].
  destruct (convert_path_item_methods ifs c Hcv) as [ops [-> Hops]].
  destruct (proj1 (Hops m Hm)) as [oc' [Hoc' Hlo]]; [rewrite Hop; exact Ht |].
  rewrite Hop, Hoc in Hoc'. injection Hoc' as <-.
  rewrite Hc. unfold obj_field at 2, field at 1. rewrite Hlc.
  unfold obj_field, field. rewrite Hlo. reflexivity.
Qed.


(** C6: a Swagger 2.0 operation whose parameters are objects, exactly one of
    them with [in: 'body'] and none with [in: 'formData'] (Swagger 2.0 does
    not allow both), whose body schema is well-formed and whose other
    parameters and responses convert, is converted with exactly one
    [requestBody] key, holding [{description, required, content:
    {'application/json': {schema: s}}}] where [s] is the conversion of the
    body parameter's schema and has its structure: type, required list and
    properties (same keys, related recursively) at every nesting level.  In
    a converted document, the operation under its path and method is this
    converted operation. *)
Theorem convertSwagger2Operation_body (ofs : list (string * jv)) (pre post : list jv)
  (bfs : list (string * jv)) :
  field ofs "parameters" = JArr (app pre (JObj bfs :: post)) ->
  field bfs "in" = JStr "body" ->
  Forall (fun p => exists pfs, p = JObj pfs) (app pre post) ->
  Forall (fun p => is_str (obj_field p "in") "body" = false) (app pre post) ->
  Forall (fun p => is_form p = false) (app pre post) ->
  Forall (fun p => is_str (obj_field p "in") "body" = false ->
                   exists q, convertSwagger2Parameter p = Ok q) (app pre post) ->
  wf_schema (field bfs "schema") ->
  object_or_absent (field ofs "responses") ->
  (forall code response, In (code, response) (match field ofs "responses" with JObj rfs => rfs | _ => [] end) ->
     exists r, convertSwagger2Response response = Ok r) ->
  exists rfs s,
    convertSwagger2Operation (JObj ofs) = Ok (JObj rfs) /\ NoDup (map fst rfs) /\
    field rfs "requestBody" = body_request_body bfs s /\
    convertSwagger2Schema (field bfs "schema") = Ok s /\ shape_ok (field bfs "schema") s /\
    (forall dfs pfs C path ifs m,
       convertSwagger2ToOpenAPI3 (JObj dfs) = Ok C -> field dfs "paths" = JObj pfs ->
       NoDup (map fst pfs) -> In (path, JObj ifs) pfs -> In m swagger2_methods ->
       field ifs m = JObj ofs ->
       obj_field (obj_field (obj_field C "paths") path) m = JObj rfs).
Proof.
  intros Hps Hin Hobj Hnb Hnf Hok Hwf Hr Hresp.
  destruct (convertSwagger2Schema_shape _ Hwf) as [s [Hs Hsh]].
  apply Forall_app in Hobj, Hnb, Hnf, Hok.
  destruct Hobj as [Ob1 Ob2], Hnb as [Nb1 Nb2], Hnf as [Nf1 Nf2], Hok as [Ok1 Ok2].
  destruct (param_loop_plain pre [] JNull Ob1 Nb1 Nf1 Ok1) as [cps1 H1].
  pose proof (param_step_body cps1 JNull bfs s Hin Hs) as H2.
  destruct (param_loop_plain post cps1 (body_request_body bfs s) Ob2 Nb2 Nf2 Ok2) as [cps2 H3].
  assert (Hloop : foldM convert_param_step ([], JNull) (app pre (JObj bfs :: post))
                  = Ok (cps2, body_request_body bfs s)).
  { rewrite foldM_app, H1. cbn [bind foldM]. rewrite H2. cbn [bind]. exact H3. }
  assert (Hrs : exists out,
    (if truthy (field ofs "responses") then
       let* es := entries (field ofs "responses") in
       foldM (fun acc '(code, response) =>
                let* r := convertSwagger2Response response in Ok (set_field acc code r)) [] es
     else Ok []) = Ok out).
  { destruct Hr as [Hr | [rfs Hr]]; rewrite Hr in *; [eexists; reflexivity |].
    cbn [truthy entries bind]. apply convert_responses_total. exact Hresp. }
  destruct Hrs as [out Hout].
  assert (Hconv : convertSwagger2Operation (JObj ofs) =
    Ok (JObj (app [("summary", field ofs "summary"); ("description", field ofs "description");
                   ("operationId", field ofs "operationId"); ("tags", field ofs "tags");
                   ("deprecated", field ofs "deprecated")]
              (("responses", JObj out) ::
               app (if (0 <? List.length cps2)%nat then [("parameters", JArr cps2)] else [])
                   [("requestBody", body_request_body bfs s)])))).
  { unfold convertSwagger2Operation. rewrite !get_obj. cbn [bind]. rewrite Hps.
    cbn [truthy forEach_array]. rewrite Hloop. cbn [bind]. rewrite Hout. reflexivity. }
  eexists; exists s. split; [exact Hconv |]. split; [| split; [| split; [exact Hs | split; [exact Hsh |]]]].
  - destruct (0 <? List.length cps2)%nat; simpl;
      repeat (apply NoDup_cons; [simpl; intuition discriminate |]); apply NoDup_nil.
  - destruct (0 <? List.length cps2)%nat; reflexivity.
  - intros dfs pfs C path ifs m HC Hp Hnd Hpi Hm Hop.
    exact (converted_operation_at dfs pfs C path ifs m (JObj ofs) _ HC Hp Hnd Hpi Hm Hop eq_refl Hconv).
Qed.

Lemma convertSwagger2Operation_body_witness :
  exists rfs s,
    convertSwagger2Operation (JObj body_operation) = Ok (JObj rfs) /\ NoDup (map fst rfs) /\
    field rfs "requestBody" = body_request_body body_param_fields s /\
    convertSwagger2Schema (field body_param_fields "schema") = Ok s /\
    shape_ok (field body_param_fields "schema") s /\
    (forall dfs pfs C path ifs m,
       convertSwagger2ToOpenAPI3 (JObj dfs) = Ok C -> field dfs "paths" = JObj pfs ->
       NoDup (map fst pfs) -> In (path, JObj ifs) pfs -> In m swagger2_methods ->
       field ifs m = JObj body_operation ->
       obj_field (obj_field (obj_field C "paths") path) m = JObj rfs).
Proof.
  apply (convertSwagger2Operation_body body_operation [query_param] [] body_param_fields).
  - reflexivity.
  - reflexivity.
  - repeat constructor; eexists; reflexivity.
  - repeat constructor.
  - repeat constructor.
  - repeat constructor. intros _. eexists. vm_compute. reflexivity.
  - vm_compute.
    repeat first [ exact I | intros ?; discriminate | intros _ | split
                 | eexists; reflexivity
                 | apply NoDup_cons; [simpl; intuition discriminate |] | apply NoDup_nil ].
  - right. eexists. reflexivity.
  - intros code response [H | []]. injection H as <- <-. eexists. vm_compute. reflexivity.
Defined.

(** C1 (code bug): a load whose text parses to a truthy document that is
    not Swagger 2.x and has a falsy [openapi] fails validation with the
    load error, and leaves [currentSpec] and [currentEndpoints] as they
    were, but the parser's [spec] (read by [getAllTags], [getAllMethods],
    ...) is the rejected document, since [parseFromText] assigns
    [this.spec] before it validates. *)
Theorem loadOpenAPISpec_missing_version_replaces_parser_spec
  (json_parse yaml_load : string -> option jv) (st : Session) (source : string) (spec o : jv) :
  (json_parse source = Some spec \/ (json_parse source = None /\ yaml_load source = Some spec)) ->
  truthy spec = true -> is_swagger2 spec = Ok false -> get spec "openapi" = Ok o -> truthy o = false ->
  loadOpenAPISpec json_parse yaml_load st source =
    ({| currentSpec := currentSpec st; currentEndpoints := currentEndpoints st; parser_spec := spec |},
     Throw (Error "Failed to load OpenAPI spec")).
Proof.
  intros Hp Ht Hs Ho Hf.
  unfold loadOpenAPISpec, parseFromText.
  assert (Hparsed : match json_parse source with Some v => Some v | None => yaml_load source end = Some spec).
  { destruct Hp as [-> | [-> ->]]; reflexivity. }
  rewrite Hparsed, Ht, Hs, Ho, Hf. reflexivity.
Qed.

Lemma loadOpenAPISpec_missing_version_replaces_parser_spec_witness :
  let '(st1, r1) := loadOpenAPISpec demo_json_parse demo_yaml_load initial_session "loaded" in
  r1 = Ok tt /\ getAllTags_collected (parser_spec st1) = Ok [JStr "pets"] /\
  loadOpenAPISpec demo_json_parse demo_yaml_load st1 "rejected" =
    ({| currentSpec := currentSpec st1; currentEndpoints := currentEndpoints st1;
        parser_spec := rejected_doc |}, Throw (Error "Failed to load OpenAPI spec")) /\
  getAllTags_collected rejected_doc = Ok [JStr "evil"].
Proof.
  vm_compute. split; [reflexivity | split; [reflexivity | split]].
  - apply (loadOpenAPISpec_missing_version_replaces_parser_spec demo_json_parse demo_yaml_load
             {| currentSpec := loaded_doc; currentEndpoints := []; parser_spec := loaded_doc |}
             "rejected" rejected_doc JUndef).
    + left. reflexivity.
    + reflexivity.
    + reflexivity.
    + reflexivity.
    + reflexivity.
  - reflexivity.
Defined.

(** ** Listings of the parser *)

Lemma leb_false_le a b : String.leb a b = false -> str_le b a.
Proof.
  intros H. unfold str_le. destruct (String.leb_total a b) as [E | E]; [congruence | exact E].
Qed.

Lemma insert_sorted_sorted x l : Sorted str_le l -> Sorted str_le (insert_sorted x l).
Proof.
  induction 1 as [| y l Hl IH Hhd]; simpl.
  - repeat constructor.
  - destruct (String.leb x y) eqn:E.
    + constructor; [constructor; auto | constructor; exact E].
    + constructor; [exact IH |].
      destruct l as [| z l]; simpl.
      * constructor. apply leb_false_le. exact E.
      * inversion Hhd; subst. destruct (String.leb x z); constructor; [apply leb_false_le; exact E | assumption].
Qed.

Lemma sort_strings_sorted l : Sorted str_le (sort_strings l).
Proof. induction l; simpl; [constructor | apply insert_sorted_sorted; assumption]. Qed.

Lemma sort_strings_NoDup l : NoDup l -> NoDup (sort_strings l).
Proof.
  intros H. apply (Permutation_NoDup (Permutation_sym (sort_strings_perm l))). exact H.
Qed.

(** A fold that adds to a duplicate-free set: what it adds, step by step. *)
Lemma foldM_set {A} (f : list string -> A -> res (list string)) (P : A -> string -> Prop) :
  (forall acc x acc', f acc x = Ok acc' ->
     (forall y, In y acc' <-> In y acc \/ P x y) /\ (NoDup acc -> NoDup acc')) ->
  forall l acc out, foldM f acc l = Ok out ->
    (forall y, In y out <-> In y acc \/ exists x, In x l /\ P x y) /\ (NoDup acc -> NoDup out).
Proof.
  intros Hf l. induction l as [| x l IH]; simpl; intros acc out H.
  - injection H as <-. split; [intros y; split; [auto | intros [H | [x [[] _]]]; exact H] | auto].
  - inv_bind. destruct (Hf _ _ _ Ha) as [Hin Hnd]. destruct (IH _ _ H) as [Hin' Hnd'].
    split; [| auto]. intros y. rewrite Hin', Hin. split.
    + intros [[H1 | H1] | [z [Hz H2]]].
      * left. exact H1.
      * right. exists x. split; [left; reflexivity | exact H1].
      * right. exists z. split; [right; exact Hz | exact H2].
    + intros [H1 | [z [[<- | Hz] H2]]].
      * left. left. exact H1.
      * left. right. exact H2.
      * right. exists z. split; [exact Hz | exact H2].
Qed.

Lemma fold_left_set_add_In (es : list (string * jv)) acc y :
  In y (fold_left (fun a kv => set_add (fst kv) a) es acc) <-> In y acc \/ In y (map fst es).
Proof.
  revert acc. induction es as [| [k v] es IH]; simpl; intros acc.
  - tauto.
  - rewrite IH, set_add_In. simpl. intuition congruence.
Qed.

Lemma fold_left_set_add_NoDup (es : list (string * jv)) acc :
  NoDup acc -> NoDup (fold_left (fun a kv => set_add (fst kv) a) es acc).
Proof.
  revert acc. induction es as [| [k v] es IH]; simpl; intros acc H; [exact H |].
  apply IH, set_add_NoDup, H.
Qed.

Lemma getAllMethods_listing spec paths items l :
  truthy spec = true -> get spec "paths" = Ok paths -> values paths = Ok items ->
  getAllMethods spec = Ok l ->
  Sorted str_le l /\ NoDup l /\
  (forall M, In M l <-> exists pathItem method operation,
     In pathItem items /\ In method endpoint_methods /\ get pathItem method = Ok operation /\
     truthy operation = true /\ M = toUpperCase method).
Proof.
  intros Ht Hp Hv H. unfold getAllMethods in H. rewrite Ht in H. cbn [negb bind] in H.
  rewrite Hp in H. cbn [bind] in H. rewrite Hv in H. cbn [bind] in H.
  inv_bind. injection H as <-.
  set (Pin := fun pathItem method M => exists operation, get pathItem method = Ok operation /\
                 truthy operation = true /\ M = toUpperCase method).
  assert (Hinner : forall pathItem acc acc',
    foldM (fun acc method => let* operation := get pathItem method in
             Ok (if truthy operation then set_add (toUpperCase method) acc else acc)) acc endpoint_methods = Ok acc' ->
    (forall y, In y acc' <-> In y acc \/ exists m, In m endpoint_methods /\ Pin pathItem m y) /\
    (NoDup acc -> NoDup acc')).
  { intros pathItem. apply (foldM_set _ (Pin pathItem)).
    intros acc m acc' Hs. apply bind_Ok in Hs. destruct Hs as [o0 [Ho0 Hs]]. injection Hs as <-. unfold Pin.
    destruct (truthy o0) eqn:Ea.
    - split; [| apply set_add_NoDup]. intros y. rewrite set_add_In. split.
      + intros [-> | Hy]; [right; eauto | left; exact Hy].
      + intros [Hy | [o [Ho [Eo ->]]]]; [right; exact Hy | left; reflexivity].
    - split; [| auto]. intros y. split; [auto |].
      intros [Hy | [o [Ho [Eo ->]]]]; [exact Hy | congruence]. }
  destruct (foldM_set _ (fun pathItem y => exists m, In m endpoint_methods /\ Pin pathItem m y)
              (fun acc pathItem acc' => Hinner pathItem acc acc') items [] a Ha) as [Hin Hnd].
  split; [apply sort_strings_sorted |]. split; [apply sort_strings_NoDup, Hnd, NoDup_nil |].
  intros M. rewrite sort_strings_In, Hin. unfold Pin. split.
  - intros [[] | [x [Hx [m [Hm [o [Ho [Eo ->]]]]]]]]. exists x, m, o. auto.
  - intros [x [m [o [Hx [Hm [Ho [Eo ->]]]]]]]. right. exists x. split; [exact Hx |]. exists m. eauto.
Qed.

(** [getAllMethods] lists, sorted and without duplicates, the upper-cased
    names among [get], [post], [put], [delete], [patch], [options], [head],
    [trace] under which some path item of the document has a truthy value. *)
Theorem getAllMethods_facts spec paths items l :
  truthy spec = true -> get spec "paths" = Ok paths -> values paths = Ok items ->
  getAllMethods spec = Ok l ->
  Sorted str_le l /\ NoDup l /\
  (forall M, In M l <-> exists pathItem method operation,
     In pathItem items /\ In method endpoint_methods /\ get pathItem method = Ok operation /\
     truthy operation = true /\ M = toUpperCase method).
Proof. apply getAllMethods_listing. Qed.

(** [getAllStatusCodes] lists, sorted and without duplicates, the keys of
    the truthy [responses] of the operations of the document (under the
    eight method names). *)
Theorem getAllStatusCodes_facts spec paths items l :
  truthy spec = true -> get spec "paths" = Ok paths -> values paths = Ok items ->
  getAllStatusCodes spec = Ok l ->
  Sorted str_le l /\ NoDup l /\
  (forall code, In code l <-> exists pathItem method operation responses es,
     In pathItem items /\ In method endpoint_methods /\ get pathItem method = Ok operation /\
     opt_get operation "responses" = Ok responses /\ truthy responses = true /\
     entries responses = Ok es /\ In code (map fst es)).
Proof.
  intros Ht Hp Hv H. unfold getAllStatusCodes in H. rewrite Ht in H. cbn [negb bind] in H.
  rewrite Hp in H. cbn [bind] in H. rewrite Hv in H. cbn [bind] in H.
  apply bind_Ok in H. destruct H as [a [Ha H]]. injection H as <-.
  set (Pin := fun pathItem method code => exists operation responses es,
                 get pathItem method = Ok operation /\ opt_get operation "responses" = Ok responses /\
                 truthy responses = true /\ entries responses = Ok es /\ In code (map fst es)).
  assert (Hinner : forall pathItem acc acc',
    foldM (fun acc method =>
             let* operation := get pathItem method in
             let* responses := opt_get operation "responses" in
             if truthy responses then
               let* es := entries responses in
               Ok (fold_left (fun a kv => set_add (fst kv) a) es acc)
             else Ok acc) acc endpoint_methods = Ok acc' ->
    (forall y, In y acc' <-> In y acc \/ exists m, In m endpoint_methods /\ Pin pathItem m y) /\
    (NoDup acc -> NoDup acc')).
  { intros pathItem. apply (foldM_set _ (Pin pathItem)).
    intros acc m acc' Hs. apply bind_Ok in Hs. destruct Hs as [o0 [Ho0 Hs]].
    apply bind_Ok in Hs. destruct Hs as [r0 [Hr0 Hs]]. unfold Pin.
    destruct (truthy r0) eqn:Er.
    - apply bind_Ok in Hs. destruct Hs as [es0 [Hes0 Hs]]. injection Hs as <-.
      split; [| apply fold_left_set_add_NoDup]. intros y. rewrite fold_left_set_add_In. split.
      + intros [Hy | Hy]; [left; exact Hy | right; exists o0, r0, es0; auto].
      + intros [Hy | [o [r [es [Ho [Hr [Etr [Hes Hy]]]]]]]]; [left; exact Hy |].
        right. rewrite Ho0 in Ho. injection Ho as <-. rewrite Hr0 in Hr. injection Hr as <-.
        rewrite Hes0 in Hes. injection Hes as <-. exact Hy.
    - injection Hs as <-. split; [| auto]. intros y. split; [auto |].
      intros [Hy | [o [r [es [Ho [Hr [Etr _]]]]]]]; [exact Hy |].
      rewrite Ho0 in Ho. injection Ho as <-. rewrite Hr0 in Hr. injection Hr as <-. congruence. }
  destruct (foldM_set _ (fun pathItem y => exists m, In m endpoint_methods /\ Pin pathItem m y)
              (fun acc pathItem acc' => Hinner pathItem acc acc') items [] a Ha) as [Hin Hnd].
  split; [apply sort_strings_sorted |]. split; [apply sort_strings_NoDup, Hnd, NoDup_nil |].
  intros c. rewrite sort_strings_In, Hin. unfold Pin. split.
  - intros [[] | [x [Hx [m [Hm [o [r [es [Ho [Hr [Etr [Hes Hc]]]]]]]]]]]]. exists x, m, o, r, es. auto 10.
  - intros [x [m [o [r [es [Hx [Hm [Ho [Hr [Etr [Hes Hc]]]]]]]]]]]. right. exists x. split; [exact Hx |].
    exists m. split; [exact Hm |]. exists o, r, es. auto.
Qed.

(** A fold that appends what each element yields ([acc.push(...)]). *)
Lemma foldM_app_In {A B} (g : A -> res (list B)) (Q : A -> B -> Prop) :
  (forall x ys, g x = Ok ys -> forall y, In y ys <-> Q x y) ->
  forall l acc out, foldM (fun acc x => let* ys := g x in Ok (app acc ys)) acc l = Ok out ->
    forall y, In y out <-> In y acc \/ exists x, In x l /\ Q x y.
Proof.
  intros Hg l. induction l as [| x l IH]; simpl; intros acc out H y.
  - injection H as <-. split; [auto | intros [Hy | [x [[] _]]]; exact Hy].
  - apply bind_Ok in H. destruct H as [acc1 [H1 H]]. apply bind_Ok in H1. destruct H1 as [ys [Hys H1]].
    injection H1 as <-. rewrite (IH _ _ H y), in_app_iff, (Hg _ _ Hys y). split.
    + intros [[Hy | Hy] | [z [Hz Hq]]]; [left; exact Hy | right; exists x; auto | right; exists z; auto].
    + intros [Hy | [z [[<- | Hz] Hq]]]; [left; left; exact Hy | left; right; exact Hq | right; exists z; auto].
Qed.

Lemma extract_path_item_methods path pathItem eps :
  extract_path_item path pathItem = Ok eps ->
  forall M, (exists e, In e eps /\ ep_method e = M) <->
            exists method operation, In method endpoint_methods /\ get pathItem method = Ok operation /\
                                     truthy operation = true /\ M = toUpperCase method.
Proof.
  unfold extract_path_item. intros H M.
  assert (Hgen : forall l acc out, foldM (fun acc method =>
           let* operation := get pathItem method in
           if truthy operation then
             let* e := extract_endpoint path pathItem operation method in Ok (app acc [e])
           else Ok acc) acc l = Ok out ->
    ((exists e, In e out /\ ep_method e = M) <->
     (exists e, In e acc /\ ep_method e = M) \/
     exists method operation, In method l /\ get pathItem method = Ok operation /\
                              truthy operation = true /\ M = toUpperCase method)).
  { induction l as [| m l IH]; simpl; intros acc out Hf.
    - injection Hf as <-. split; [auto | intros [Hy | [m [o [[] _]]]]; exact Hy].
    - apply bind_Ok in Hf. destruct Hf as [acc1 [H1 Hf]]. apply bind_Ok in H1. destruct H1 as [o [Ho H1]].
      rewrite (IH _ _ Hf). destruct (truthy o) eqn:Eo.
      + apply bind_Ok in H1. destruct H1 as [e [He H1]]. injection H1 as <-.
        destruct (extract_endpoint_fields _ _ _ _ _ He) as [_ [_ Hm]]. split.
        * intros [[e' [He' HM]] | [m' [o' [Hm' [Ho' [Et' HM]]]]]].
          -- apply in_app_iff in He'. destruct He' as [He' | [<- | []]].
             ++ left. eauto.
             ++ right. exists m, o. rewrite <- HM, Hm. auto.
          -- right. exists m', o'. auto.
        * intros [[e' [He' HM]] | [m' [o' [[<- | Hm'] [Ho' [Et' HM]]]]]].
          -- left. exists e'. rewrite in_app_iff. auto.
          -- left. exists e. rewrite in_app_iff. split; [right; left; reflexivity | rewrite Hm, HM; reflexivity].
          -- right. exists m', o'. auto.
      + injection H1 as <-. split.
        * intros [Hy | [m' [o' [Hm' Hr]]]]; [left; exact Hy | right; exists m', o'; auto].
        * intros [Hy | [m' [o' [[<- | Hm'] [Ho' [Et' HM]]]]]]; [left; exact Hy | congruence | right; exists m', o'; auto]. }
  rewrite (Hgen _ _ _ H). split; [intros [[e [[] _]] | Hr]; exact Hr | intros Hr; right; exact Hr].
Qed.

Lemma extractEndpoints_methods spec paths es eps :
  truthy spec = true -> get spec "paths" = Ok paths -> entries paths = Ok es ->
  extractEndpoints spec = Ok eps ->
  forall M, (exists e, In e eps /\ ep_method e = M) <->
            exists path pathItem method operation, In (path, pathItem) es /\ In method endpoint_methods /\
              get pathItem method = Ok operation /\ truthy operation = true /\ M = toUpperCase method.
Proof.
  intros Ht Hp He H M. unfold extractEndpoints in H. rewrite Ht, Hp in H. cbn [negb bind] in H.
  rewrite He in H. cbn [bind] in H.
  assert (Hgen : forall l acc out,
    foldM (fun acc '(path, pathItem) => let* eps := extract_path_item path pathItem in Ok (app acc eps)) acc l = Ok out ->
    ((exists e, In e out /\ ep_method e = M) <->
     (exists e, In e acc /\ ep_method e = M) \/
     exists path pathItem method operation, In (path, pathItem) l /\ In method endpoint_methods /\
       get pathItem method = Ok operation /\ truthy operation = true /\ M = toUpperCase method)).
  { induction l as [| [path pathItem] l IH]; simpl; intros acc out Hf.
    - injection Hf as <-. split; [auto | intros [Hy | [p [pi [m [o [[] _]]]]]]; exact Hy].
    - apply bind_Ok in Hf. destruct Hf as [acc1 [H1 Hf]]. apply bind_Ok in H1. destruct H1 as [ps [Hps H1]].
      injection H1 as <-. rewrite (IH _ _ Hf). pose proof (extract_path_item_methods _ _ _ Hps M) as Hpi.
      split.
      + intros [[e [He' HM]] | [p [pi [m [o [Hin Hr]]]]]].
        * apply in_app_iff in He'. destruct He' as [He' | He'].
          -- left. eauto.
          -- destruct (proj1 Hpi (ex_intro _ e (conj He' HM))) as [m [o Hr]].
             right. exists path, pathItem, m, o. auto.
        * right. exists p, pi, m, o. auto.
      + intros [[e [He' HM]] | [p [pi [m [o [[E | Hin] Hr]]]]]].
        * left. exists e. rewrite in_app_iff. auto.
        * injection E as <- <-. destruct (proj2 Hpi (ex_intro _ m (ex_intro _ o Hr))) as [e [He' HM]].
          left. exists e. rewrite in_app_iff. auto.
        * right. exists p, pi, m, o. auto. }
  rewrite (Hgen _ _ _ H). split; [intros [[e [[] _]] | Hr]; exact Hr | intros Hr; right; exact Hr].
Qed.

Lemma in_map_snd {A B} (l : list (A * B)) y : In y (map snd l) <-> exists x, In (x, y) l.
Proof.
  rewrite in_map_iff. split.
  - intros [[x y'] [<- H]]. exists x. exact H.
  - intros [x H]. exists (x, y). auto.
Qed.

(** [getAllMethods] lists exactly the methods of the records [extractEndpoints]
    builds from the same document. *)
Theorem getAllMethods_extractEndpoints spec eps l :
  extractEndpoints spec = Ok eps -> getAllMethods spec = Ok l ->
  forall M, In M l <-> exists e, In e eps /\ ep_method e = M.
Proof.
  intros He Hm M. destruct (truthy spec) eqn:Ht.
  - pose proof He as He0. unfold extractEndpoints in He0. rewrite Ht in He0. cbn [negb bind] in He0.
    apply bind_Ok in He0. destruct He0 as [paths [Hp He0]]. apply bind_Ok in He0. destruct He0 as [es [Hes _]].
    assert (Hv : values paths = Ok (map snd es)) by (unfold values; rewrite Hes; reflexivity).
    destruct (getAllMethods_listing _ _ _ _ Ht Hp Hv Hm) as [_ [_ HM]].
    rewrite HM, (extractEndpoints_methods _ _ _ _ Ht Hp Hes He M). split.
    + intros [pi [m [o [Hpi Hr]]]]. apply in_map_snd in Hpi. destruct Hpi as [p Hpi]. exists p, pi, m, o. auto.
    + intros [p [pi [m [o [Hpi Hr]]]]]. exists pi, m, o. split; [apply in_map_snd; exists p; exact Hpi | exact Hr].
  - unfold extractEndpoints in He. unfold getAllMethods in Hm. rewrite Ht in He, Hm. cbn in He, Hm.
    injection He as <-. injection Hm as <-. split; [intros [] | intros [e [[] _]]].
Qed.

(** A fold whose every step keeps the accumulated values and adds those of [Q x]. *)
Lemma foldM_members {A B} (f : list B -> A -> res (list B)) (Q : A -> B -> Prop) :
  (forall acc x out, f acc x = Ok out -> forall v, In v out <-> In v acc \/ Q x v) ->
  forall l acc out, foldM f acc l = Ok out ->
    forall v, In v out <-> In v acc \/ exists x, In x l /\ Q x v.
Proof.
  intros Hf l. induction l as [| x l IH]; simpl; intros acc out H v.
  - injection H as <-. split; [auto | intros [Hv | [x [[] _]]]; exact Hv].
  - apply bind_Ok in H. destruct H as [acc1 [H1 H]]. rewrite (IH _ _ H v), (Hf _ _ _ H1 v). split.
    + intros [[Hv | Hv] | [z [Hz Hq]]]; [left; exact Hv | right; exists x; auto | right; exists z; auto].
    + intros [Hv | [z [[<- | Hz] Hq]]]; [left; left; exact Hv | left; right; exact Hq | right; exists z; auto].
Qed.

Lemma foldM_push_all (ts acc : list jv) :
  foldM (fun acc tag => Ok (app acc [tag])) acc ts = Ok (app acc ts).
Proof.
  revert acc. induction ts as [| t ts IH]; simpl; intros acc; [rewrite app_nil_r; reflexivity |].
  rewrite IH, <- app_assoc. reflexivity.
Qed.

Lemma strict_eq_eq v w : strict_eq v w = true -> v = w.
Proof.
  destruct v, w; simpl; try discriminate; intros H; try reflexivity.
  - apply Bool.eqb_prop in H. subst. reflexivity.
  - apply Z.eqb_eq in H. subst. reflexivity.
  - apply String.eqb_eq in H. subst. reflexivity.
Qed.

Lemma set_add_jv_In v s w : In w (set_add_jv v s) <-> In w s \/ w = v.
Proof.
  unfold set_add_jv. destruct (existsb (strict_eq v) s) eqn:E.
  - apply existsb_exists in E. destruct E as [u [Hu Eu]]. apply strict_eq_eq in Eu. subst u.
    split; [auto | intros [H | ->]; auto].
  - rewrite in_app_iff. simpl. intuition congruence.
Qed.

Lemma set_add_jv_NoDup v s : NoDup (filter is_jstr s) -> NoDup (filter is_jstr (set_add_jv v s)).
Proof.
  unfold set_add_jv. destruct (existsb (strict_eq v) s) eqn:E; [auto |].
  intros H. rewrite filter_app. simpl. destruct (is_jstr v) eqn:Ev; [| rewrite app_nil_r; exact H].
  apply NoDup_app; [exact H | repeat constructor; intros [] |].
  intros x Hx [Evx | []]. subst x. apply filter_In in Hx. destruct Hx as [Hx _].
  destruct v; try discriminate. assert (existsb (strict_eq (JStr s0)) s = true) as E'.
  { apply existsb_exists. exists (JStr s0). split; [exact Hx | simpl; apply String.eqb_refl]. }
  congruence.
Qed.

Lemma dedup_jv_facts c acc :
  NoDup (filter is_jstr acc) ->
  NoDup (filter is_jstr (fold_left (fun s v => set_add_jv v s) c acc)) /\
  (forall w, In w (fold_left (fun s v => set_add_jv v s) c acc) <-> In w acc \/ In w c).
Proof.
  revert acc. induction c as [| v c IH]; simpl; intros acc H.
  - split; [exact H | tauto].
  - destruct (IH (set_add_jv v acc) (set_add_jv_NoDup v acc H)) as [H1 H2]. split; [exact H1 |].
    intros w. rewrite H2, set_add_jv_In. intuition congruence.
Qed.

Lemma Permutation_filter_ {A} (f : A -> bool) l l' : Permutation l l' -> Permutation (filter f l) (filter f l').
Proof.
  induction 1 as [| x l l' _ IH | x y l | l l' l'' _ IH1 _ IH2]; simpl.
  - constructor.
  - destruct (f x); [constructor |]; assumption.
  - destruct (f x), (f y); try constructor; reflexivity.
  - econstructor; eassumption.
Qed.

Lemma insert_by_string_perm x l : Permutation (insert_by_string x l) (x :: l).
Proof.
  induction l as [| y l IH]; simpl; [reflexivity |].
  destruct (String.leb (to_str x) (to_str y)); [reflexivity |].
  rewrite IH. apply perm_swap.
Qed.

Lemma partition_perm {A} (f : A -> bool) l : Permutation (app (filter (fun v => negb (f v)) l) (filter f l)) l.
Proof.
  induction l as [| x l IH]; simpl; [constructor |].
  destruct (f x); simpl.
  - rewrite <- Permutation_middle. constructor. exact IH.
  - constructor. exact IH.
Qed.

Lemma js_sort_perm l : Permutation (js_sort l) l.
Proof.
  unfold js_sort. rewrite <- (partition_perm is_undefined l) at 3. apply Permutation_app_tail.
  induction (filter (fun v => negb (is_undefined v)) l) as [| x r IH]; simpl; [constructor |].
  rewrite insert_by_string_perm. constructor. exact IH.
Qed.

Lemma insert_by_string_sorted x l : Sorted str_image_le l -> Sorted str_image_le (insert_by_string x l).
Proof.
  induction 1 as [| y l Hl IH Hhd]; simpl.
  - repeat constructor.
  - destruct (String.leb (to_str x) (to_str y)) eqn:E.
    + constructor; [constructor; auto | constructor; exact E].
    + constructor; [exact IH |].
      destruct l as [| z l]; simpl.
      * constructor. apply leb_false_le. exact E.
      * inversion Hhd; subst. destruct (String.leb (to_str x) (to_str z)); constructor;
          [apply leb_false_le; exact E | assumption].
Qed.

Lemma js_sort_shape l : exists l1 l2, js_sort l = app l1 l2 /\ Sorted str_image_le l1 /\
  Forall (fun v => v <> JUndef) l1 /\ Forall (fun v => v = JUndef) l2.
Proof.
  unfold js_sort. eexists _, _. split; [reflexivity |]. split; [| split].
  - induction (filter (fun v => negb (is_undefined v)) l); simpl; [constructor | apply insert_by_string_sorted; assumption].
  - assert (H : Forall (fun v => v <> JUndef) (filter (fun v => negb (is_undefined v)) l)).
    { apply Forall_forall. intros x Hx. apply filter_In in Hx. destruct Hx as [_ Hx]. destruct x; discriminate. }
    induction (filter (fun v => negb (is_undefined v)) l) as [| x r IH]; simpl; [constructor |].
    inversion H; subst. eapply Permutation_Forall; [symmetry; apply insert_by_string_perm |].
    constructor; [assumption | apply IH; assumption].
  - apply Forall_forall. intros x Hx. apply filter_In in Hx. destruct Hx as [_ Hx]. destruct x; try discriminate. reflexivity.
Qed.

Lemma foldM_ext {A S} (f g : S -> A -> res S) l acc :
  (forall acc x, f acc x = g acc x) -> foldM f acc l = foldM g acc l.
Proof.
  intros H. revert acc. induction l as [| x l IH]; simpl; intros acc; [reflexivity |].
  rewrite H. destruct (g acc x); simpl; [apply IH | reflexivity].
Qed.

Lemma getAllTags_collected_In spec c :
  truthy spec = true -> getAllTags_collected spec = Ok c ->
  forall v, In v c <->
    (exists ts tag, get spec "tags" = Ok (JArr ts) /\ In tag ts /\ get tag "name" = Ok v) \/
    (exists paths es path pathItem method operation ts,
       get spec "paths" = Ok paths /\ entries paths = Ok es /\ In (path, pathItem) es /\
       In method endpoint_methods /\ get pathItem method = Ok operation /\
       opt_get operation "tags" = Ok (JArr ts) /\ In v ts).
Proof.
  intros Ht H v. unfold getAllTags_collected in H. rewrite Ht in H. cbn [negb bind] in H.
  apply bind_Ok in H. destruct H as [st [Hst H]].
  apply bind_Ok in H. destruct H as [acc [Hacc H]].
  apply bind_Ok in H. destruct H as [paths [Hp H]].
  apply bind_Ok in H. destruct H as [es [Hes H]].
  (* the operation tags *)
  assert (Hinner : forall pathItem acc out,
    foldM (fun acc method =>
             let* operation := get pathItem method in
             let* tags := opt_get operation "tags" in
             if truthy tags then forEach_array tags (fun acc tag => Ok (app acc [tag])) acc
             else Ok acc) acc endpoint_methods = Ok out ->
    forall v, In v out <-> In v acc \/ exists method, In method endpoint_methods /\
      exists operation ts, get pathItem method = Ok operation /\ opt_get operation "tags" = Ok (JArr ts) /\ In v ts).
  { intros pathItem. apply foldM_members.
    intros acc0 m out Hs w. apply bind_Ok in Hs. destruct Hs as [o [Ho Hs]].
    apply bind_Ok in Hs. destruct Hs as [tg [Htg Hs]].
    destruct (truthy tg) eqn:Etg.
    - destruct tg; try discriminate Hs. simpl in Hs. rewrite foldM_push_all in Hs. injection Hs as <-.
      rewrite in_app_iff. split.
      + intros [Hw | Hw]; [left; exact Hw | right; exists o, xs; auto].
      + intros [Hw | [o' [ts [Ho' [Ht' Hw]]]]]; [left; exact Hw |].
        rewrite Ho in Ho'. injection Ho' as <-. rewrite Htg in Ht'. injection Ht' as <-. right. exact Hw.
    - injection Hs as <-. split; [auto |].
      intros [Hw | [o' [ts [Ho' [Ht' Hw]]]]]; [exact Hw |].
      rewrite Ho in Ho'. injection Ho' as <-. rewrite Htg in Ht'. injection Ht' as E. subst tg. discriminate Etg. }
  assert (Houter : forall w, In w c <-> In w acc \/ exists kv, In kv es /\ exists method, In method endpoint_methods /\
      exists operation ts, get (snd kv) method = Ok operation /\ opt_get operation "tags" = Ok (JArr ts) /\ In w ts).
  { revert H. apply foldM_members. intros acc0 [p pi] out Hf w. exact (Hinner pi acc0 out Hf w). }
  assert (Hspec : forall w, In w acc <-> exists ts tag, st = JArr ts /\ In tag ts /\ get tag "name" = Ok w).
  { intros w. destruct st; try (injection Hacc as <-; split; [intros [] | intros [ts [tag [E _]]]; discriminate E]);
      try discriminate Hacc.
    simpl in Hacc.
    assert (Hstep : forall acc1 tag out, (let* n := get tag "name" in Ok (app acc1 [n])) = Ok out ->
              forall w', In w' out <-> In w' acc1 \/ get tag "name" = Ok w').
    { intros acc1 tag out Ht' w'. apply bind_Ok in Ht'. destruct Ht' as [n [Hn Ht']]. injection Ht' as <-.
      rewrite in_app_iff. simpl. split.
      + intros [Hw | [<- | []]]; [left; exact Hw | right; exact Hn].
      + intros [Hw | Hw]; [left; exact Hw | right; left; congruence]. }
    rewrite (foldM_members _ _ Hstep xs [] acc Hacc w). split.
    + intros [[] | [tag [Htag Hn]]]. exists xs, tag. auto.
    + intros [ts [tag [E [Htag Hn]]]]. injection E as <-. right. exists tag. auto. }
  rewrite Houter, Hspec. split.
  - intros [[ts [tag [-> Hr]]] | [[path pi] [Hkv [m [Hm [o [ts Hr]]]]]]].
    + left. exists ts, tag. auto.
    + right. exists paths, es, path, pi, m, o, ts. simpl in Hr. intuition.
  - intros [[ts [tag [E Hr]]] | [paths' [es' [path [pi [m [o [ts [Hp' [Hes' [Hkv [Hm Hr]]]]]]]]]]]].
    + left. rewrite Hst in E. injection E as ->. exists ts, tag. auto.
    + right. rewrite Hp in Hp'. injection Hp' as <-. rewrite Hes in Hes'. injection Hes' as <-.
      exists (path, pi). split; [exact Hkv |]. exists m. split; [exact Hm |]. exists o, ts. exact Hr.
Qed.

(** [getAllTags] lists each tag name of the document's [tags] and each tag of
    an operation, every string once, the values other than [undefined] in
    string order, then [undefined] (a tag object without [name]) last. *)
Theorem getAllTags_members spec l :
  truthy spec = true -> getAllTags spec = Ok l ->
  (forall v, In v l <->
    (exists ts tag, get spec "tags" = Ok (JArr ts) /\ In tag ts /\ get tag "name" = Ok v) \/
    (exists paths es path pathItem method operation ts,
       get spec "paths" = Ok paths /\ entries paths = Ok es /\ In (path, pathItem) es /\
       In method endpoint_methods /\ get pathItem method = Ok operation /\
       opt_get operation "tags" = Ok (JArr ts) /\ In v ts)) /\
  NoDup (filter is_jstr l) /\
  exists l1 l2, l = app l1 l2 /\ Sorted str_image_le l1 /\
    Forall (fun v => v <> JUndef) l1 /\ Forall (fun v => v = JUndef) l2.
Proof.
  intros Ht H. unfold getAllTags in H. apply bind_Ok in H. destruct H as [c [Hc H]].
  destruct (sort_converts _); [injection H as <- | discriminate H].
  destruct (dedup_jv_facts c [] (NoDup_nil _)) as [Hnd Hin].
  split; [| split; [| apply js_sort_shape]].
  - intros v. split.
    + intros Hv. apply (Permutation_in _ (js_sort_perm _)) in Hv. apply Hin in Hv.
      destruct Hv as [[] | Hv]. apply (getAllTags_collected_In _ _ Ht Hc). exact Hv.
    + intros Hv. apply (Permutation_in _ (Permutation_sym (js_sort_perm _))). apply Hin. right.
      apply (getAllTags_collected_In _ _ Ht Hc). exact Hv.
  - eapply Permutation_NoDup; [apply Permutation_filter_, Permutation_sym, js_sort_perm | exact Hnd].
Qed.


(** ** Listings on an empty or path-less document *)

(** With no document the parser's listings are empty; a document without
    [paths] makes every one of them throw a [TypeError] ([Object.entries] /
    [Object.values] of [undefined]). *)
Theorem listings_without_paths spec :
  (truthy spec = false ->
     extractEndpoints spec = Ok [] /\ getAllMethods spec = Ok [] /\
     getAllStatusCodes spec = Ok [] /\ getAllTags spec = Ok []) /\
  (truthy spec = true -> get spec "tags" = Ok JUndef ->
     (get spec "paths" = Ok JUndef \/ get spec "paths" = Ok JNull) ->
     extractEndpoints spec = Throw TypeError /\ getAllMethods spec = Throw TypeError /\
     getAllStatusCodes spec = Throw TypeError /\ getAllTags spec = Throw TypeError).
Proof.
  split.
  - intros Ht. unfold extractEndpoints, getAllMethods, getAllStatusCodes, getAllTags, getAllTags_collected.
    rewrite Ht. repeat split; reflexivity.
  - intros Ht Htags Hp. unfold extractEndpoints, getAllMethods, getAllStatusCodes, getAllTags, getAllTags_collected.
    rewrite Ht. cbn [negb bind]. rewrite Htags. cbn [bind].
    destruct Hp as [Hp | Hp]; rewrite Hp; repeat split; reflexivity.
Qed.

(** ** Loading a document *)

(** Text that neither [JSON.parse] nor [yaml.load] accepts leaves the whole
    session unchanged. *)
Theorem loadOpenAPISpec_unparsable json_parse yaml_load st source :
  json_parse source = None -> yaml_load source = None ->
  loadOpenAPISpec json_parse yaml_load st source = (st, Throw (Error "Failed to load OpenAPI spec")).
Proof.
  intros Hj Hy. unfold loadOpenAPISpec, parseFromText. rewrite Hj, Hy. destruct st. reflexivity.
Qed.

Lemma loadOpenAPISpec_Ok_facts json_parse yaml_load st source st' :
  loadOpenAPISpec json_parse yaml_load st source = (st', Ok tt) ->
  currentSpec st' = parser_spec st' /\
  extractEndpoints (currentSpec st') = Ok (currentEndpoints st') /\
  exists parsed, (json_parse source = Some parsed \/ (json_parse source = None /\ yaml_load source = Some parsed)) /\
    (currentSpec st' = parsed \/ convertSwagger2ToOpenAPI3 parsed = Ok (currentSpec st')).
Proof.
  unfold loadOpenAPISpec, parseFromText.
  assert (Hp : forall parsed, match json_parse source with Some v => Some v | None => yaml_load source end = Some parsed ->
                 json_parse source = Some parsed \/ (json_parse source = None /\ yaml_load source = Some parsed)).
  { intros parsed. destruct (json_parse source); [intros H; left; exact H | intros H; right; auto]. }
  destruct (match json_parse source with Some v => Some v | None => yaml_load source end) as [parsed |] eqn:E;
    [| intros H; discriminate H].
  specialize (Hp parsed eq_refl).
  destruct (negb (truthy parsed)); [intros H; discriminate H |].
  destruct (is_swagger2 parsed) as [[|] | e]; [| | intros H; discriminate H].
  - destruct (convertSwagger2ToOpenAPI3 parsed) as [c | e] eqn:Ec; [| intros H; discriminate H].
    destruct (extractEndpoints c) as [eps | e] eqn:Ee; intros H; [| discriminate H].
    injection H as <-. simpl. split; [reflexivity | split; [exact Ee |]]. exists parsed. auto.
  - destruct (get parsed "openapi") as [o | e]; [| intros H; discriminate H].
    destruct (truthy o); [| intros H; discriminate H].
    destruct (extractEndpoints parsed) as [eps | e] eqn:Ee; intros H; [| discriminate H].
    injection H as <-. simpl. split; [reflexivity | split; [exact Ee |]]. exists parsed. auto.
Qed.

(** After a successful load the session is consistent: [currentSpec] is the
    parser's document, the parsed one or its Swagger 2.0 conversion, and
    [currentEndpoints] are the endpoints extracted from it. *)
Theorem loadOpenAPISpec_success json_parse yaml_load st source st' :
  loadOpenAPISpec json_parse yaml_load st source = (st', Ok tt) ->
  currentSpec st' = parser_spec st' /\
  extractEndpoints (currentSpec st') = Ok (currentEndpoints st') /\
  exists parsed, (json_parse source = Some parsed \/ (json_parse source = None /\ yaml_load source = Some parsed)) /\
    (currentSpec st' = parsed \/ convertSwagger2ToOpenAPI3 parsed = Ok (currentSpec st')).
Proof. apply loadOpenAPISpec_Ok_facts. Qed.

(** A document that passes validation but whose endpoints cannot be
    extracted (e.g. one without [paths]) fails the load after
    [currentSpec] has been replaced: the session then holds the new
    document with the previous document's endpoints. *)
Theorem loadOpenAPISpec_extraction_failure json_parse yaml_load st source spec o e :
  json_parse source = Some spec -> truthy spec = true -> is_swagger2 spec = Ok false ->
  get spec "openapi" = Ok o -> truthy o = true -> extractEndpoints spec = Throw e ->
  loadOpenAPISpec json_parse yaml_load st source =
    ({| currentSpec := spec; currentEndpoints := currentEndpoints st; parser_spec := spec |},
     Throw (Error "Failed to load OpenAPI spec")).
Proof.
  intros Hj Ht Hs Ho Hto He. unfold loadOpenAPISpec, parseFromText.
  rewrite Hj, Ht, Hs. cbn [negb]. rewrite Ho, Hto, He. reflexivity.
Qed.

(** ** Endpoint extraction *)

Lemma foldM_throw {A S} (f : S -> A -> res S) x l :
  In x l -> (forall acc, exists e, f acc x = Throw e) -> forall acc, exists e, foldM f acc l = Throw e.
Proof.
  intros Hx Hf. induction l as [| y l IH]; [destruct Hx |]. intros acc. simpl.
  destruct Hx as [-> | Hx].
  - destruct (Hf acc) as [e He]. rewrite He. exists e. reflexivity.
  - destruct (f acc y) as [acc' | e]; simpl; [apply IH; exact Hx | exists e; reflexivity].
Qed.

Lemma extractParameters_ok op_ps path_ps :
  (truthy op_ps = false \/ exists ps, op_ps = JArr ps /\ Forall (fun q => q <> JUndef /\ q <> JNull) ps) ->
  (truthy path_ps = false \/ exists ps, path_ps = JArr ps /\ Forall (fun q => q <> JUndef /\ q <> JNull) ps) ->
  exists a b, spread (js_or path_ps (JArr [])) = Ok a /\ spread (js_or op_ps (JArr [])) = Ok b /\
    Forall (fun q => q <> JUndef /\ q <> JNull) (app a b) /\
    extractParameters (js_or op_ps (JArr [])) (js_or path_ps (JArr [])) = Ok (app a b).
Proof.
  intros Ho Hp.
  assert (Hs : forall p, (truthy p = false \/ exists ps, p = JArr ps /\ Forall (fun q => q <> JUndef /\ q <> JNull) ps) ->
            exists a, spread (js_or p (JArr [])) = Ok a /\ Forall (fun q => q <> JUndef /\ q <> JNull) a).
  { intros p [Hf | [ps [-> Hps]]].
    - unfold js_or. rewrite Hf. exists []. split; [reflexivity | constructor].
    - exists ps. split; [reflexivity | exact Hps]. }
  destruct (Hs _ Hp) as [a [Ha Hfa]]. destruct (Hs _ Ho) as [b [Hb Hfb]].
  exists a, b. split; [exact Ha | split; [exact Hb |]].
  assert (Hab : Forall (fun q => q <> JUndef /\ q <> JNull) (app a b)) by (apply Forall_app; auto).
  split; [exact Hab |].
  unfold extractParameters. rewrite Ha, Hb. cbn [bind].
  induction (app a b) as [| q r IH]; [reflexivity |].
  inversion Hab as [| ? ? [Hu Hn] Hr]; subst. simpl.
  destruct q; try (exfalso; congruence); cbn [get bind]; rewrite (IH Hr); reflexivity.
Qed.

Lemma someM_in_ok (l : list jv) :
  Forall (fun q => q <> JUndef /\ q <> JNull) l ->
  exists b, someM (fun p => let* i := get p "in" in Ok (is_str i "query")) l = Ok b /\
    (b = true <-> exists p, In p l /\ get p "in" = Ok (JStr "query")).
Proof.
  induction l as [| q r IH]; intros H.
  - exists false. split; [reflexivity |]. split; [discriminate | intros [p [[] _]]].
  - inversion H as [| ? ? [Hu Hn] Hr]; subst. destruct (IH Hr) as [b [Hb Hiff]].
    assert (Hg : exists i, get q "in" = Ok i) by (destruct q; try congruence; eexists; reflexivity).
    destruct Hg as [i Hi]. simpl. rewrite Hi. cbn [bind].
    destruct (is_str i "query") eqn:Ei.
    + exists true. split; [reflexivity |]. split; [| reflexivity]. intros _. exists q. split; [left; reflexivity |].
      rewrite Hi. destruct i; try discriminate. apply String.eqb_eq in Ei. subst. reflexivity.
    + exists b. split; [exact Hb |]. rewrite Hiff. split.
      * intros [p [Hp Hq]]. exists p. auto.
      * intros [p [[<- | Hp] Hq]]; [| exists p; auto]. rewrite Hi in Hq. injection Hq as ->. discriminate.
Qed.

(** [extractEndpoints] throws when some operation has no [responses]
    ([extractResponses(undefined)] calls [Object.entries(undefined)]), even
    though the record's [responseTypes] default to [{}]. *)
Theorem extractEndpoints_missing_responses spec paths es path pathItem method operation r :
  truthy spec = true -> get spec "paths" = Ok paths -> entries paths = Ok es ->
  In (path, pathItem) es -> In method endpoint_methods -> get pathItem method = Ok operation ->
  truthy operation = true -> params_ok operation -> params_ok pathItem ->
  get operation "responses" = Ok r -> (r = JUndef \/ r = JNull) ->
  exists e, extractEndpoints spec = Throw e.
Proof.
  intros Ht Hp Hes Hin Hm Hop Hto [op_ps [Hops Hokop]] [path_ps [Hpps Hokpath]] Hr Hrn.
  assert (Hx : extract_endpoint path pathItem operation method = Throw TypeError).
  { destruct (extractParameters_ok _ _ Hokop Hokpath) as [a [b [_ [_ [Hab Hext]]]]].
    destruct (someM_in_ok _ Hab) as [q [Hq _]].
    assert (Hget : forall k, exists v, get operation k = Ok v)
      by (intros k; destruct operation; try discriminate Hto; unfold get;
          try destruct (String.eqb k "length"); eexists; reflexivity).
    destruct (Hget "requestBody") as [rb Hrb]. destruct (Hget "tags") as [tg Htg].
    destruct (Hget "summary") as [sm Hsm]. destruct (Hget "description") as [ds Hds].
    unfold extract_endpoint. rewrite Hops, Hpps. cbn [bind]. rewrite Hext. cbn [bind]. rewrite Hq. cbn [bind].
    rewrite Hrb. cbn [bind]. rewrite Hr. cbn [bind].
    destruct Hrn as [-> | ->]; cbn [js_or truthy entries bind]; rewrite Htg, Hsm, Hds; reflexivity. }
  unfold extractEndpoints. rewrite Ht, Hp. cbn [negb bind]. rewrite Hes. cbn [bind].
  apply (foldM_throw _ (path, pathItem)); [exact Hin |]. intros acc.
  assert (Hpi : exists e, extract_path_item path pathItem = Throw e).
  { unfold extract_path_item. apply (foldM_throw _ method); [exact Hm |]. intros acc'.
    rewrite Hop. cbn [bind]. rewrite Hto, Hx. exists TypeError. reflexivity. }
  destruct Hpi as [e He]. exists e. rewrite He. reflexivity.
Qed.

(** Operation-level parameters do not override path-level ones: the
    record's [parameters] are the path item's followed by the operation's,
    [hasQueryParams] tells whether one of them has [in: 'query'], and
    [hasRequestBody] whether the operation's [requestBody] is truthy. *)
Theorem extract_endpoint_parameters path pathItem operation method e op_ps path_ps rb :
  extract_endpoint path pathItem operation method = Ok e ->
  get operation "parameters" = Ok (JArr op_ps) -> get pathItem "parameters" = Ok (JArr path_ps) ->
  get operation "requestBody" = Ok rb ->
  ep_parameters e = app path_ps op_ps /\
  (ep_hasQueryParams e = true <-> exists p, In p (app path_ps op_ps) /\ get p "in" = Ok (JStr "query")) /\
  ep_requestBody e = rb /\ ep_hasRequestBody e = truthy rb.
Proof.
  intros H Hops Hpps Hrb. unfold extract_endpoint in H. rewrite Hops, Hpps in H. cbn [bind js_or truthy] in H.
  apply bind_Ok in H. destruct H as [ps [Hps H]].
  apply bind_Ok in H. destruct H as [hq [Hhq H]]. rewrite Hrb in H. cbn [bind] in H.
  repeat (apply bind_Ok in H; destruct H as [? [_ H]]; cbv beta zeta in H).
  injection H as <-. cbn.
  unfold extractParameters in Hps. cbn [spread bind] in Hps.
  assert (Hid : forall l out, mapM (fun param => let* _ := get param "$ref" in Ok param) l = Ok out -> out = l
                 /\ Forall (fun q => q <> JUndef /\ q <> JNull) l).
  { induction l as [| q r IH]; simpl; intros out Hm.
    - injection Hm as <-. auto.
    - apply bind_Ok in Hm. destruct Hm as [q' [Hq Hm]]. apply bind_Ok in Hq. destruct Hq as [_x [Hx Hq]].
      injection Hq as <-. apply bind_Ok in Hm. destruct Hm as [r' [Hr Hm]]. injection Hm as <-.
      destruct (IH _ Hr) as [-> Hf]. split; [reflexivity |]. constructor; [| exact Hf].
      split; intros ->; discriminate Hx. }
  destruct (Hid _ _ Hps) as [-> Hf]. split; [reflexivity |]. split; [| auto].
  destruct (someM_in_ok _ Hf) as [b [Hb Hiff]]. rewrite Hhq in Hb. injection Hb as ->. exact Hiff.
Qed.


(** ** [generateAnalytics] *)

Lemma incr_lookup d k k' :
  dist_lookup (incr d k) k' = (dist_lookup d k' + if String.eqb k' k then 1 else 0)%nat.
Proof.
  induction d as [| [k0 n] d IH]; cbn [incr dist_lookup].
  - destruct (String.eqb k' k); reflexivity.
  - destruct (String.eqb k k0) eqn:E; cbn [dist_lookup].
    + apply String.eqb_eq in E. subst k0.
      destruct (String.eqb k' k); lia.
    + rewrite IH. destruct (String.eqb k' k0) eqn:E0; [| reflexivity].
      apply String.eqb_eq in E0. subst k0.
      destruct (String.eqb k' k) eqn:E1; [| lia].
      apply String.eqb_eq in E1. subst k. rewrite String.eqb_refl in E. discriminate.
Qed.

Lemma incr_keys d k :
  map fst (incr d k) = if existsb (String.eqb k) (map fst d) then map fst d else app (map fst d) [k].
Proof.
  induction d as [| [k0 n] d IH]; cbn [incr map fst existsb]; [reflexivity |].
  destruct (String.eqb k k0) eqn:E; cbn [map fst orb].
  - apply String.eqb_eq in E. subst k0. reflexivity.
  - rewrite IH. destruct (existsb (String.eqb k) (map fst d)); reflexivity.
Qed.

Lemma incr_NoDup d k : NoDup (map fst d) -> NoDup (map fst (incr d k)).
Proof.
  rewrite incr_keys. destruct (existsb (String.eqb k) (map fst d)) eqn:E; [auto |].
  intros H. apply NoDup_app; [exact H | constructor; [intros [] | constructor] |].
  intros x Hx [-> | []]. assert (existsb (String.eqb x) (map fst d) = true) by
    (apply existsb_exists; exists x; split; [exact Hx | apply String.eqb_refl]). congruence.
Qed.

Lemma incr_sum d k : list_sum (map snd (incr d k)) = S (list_sum (map snd d)).
Proof.
  induction d as [| [k0 n] d IH]; cbn [incr map snd list_sum]; [reflexivity |].
  destruct (String.eqb k k0); cbn [map snd list_sum fold_right]; [lia |].
  change (fold_right Nat.add 0%nat (map snd (incr d k))) with (list_sum (map snd (incr d k))).
  rewrite IH. unfold list_sum. lia.
Qed.

Lemma analytics_step_Ok acc e acc' :
  analytics_step acc e = Ok acc' ->
  acc_methods acc' = incr (acc_methods acc) (ep_method e) /\
  acc_complexity acc' = incr (acc_complexity acc) (complexity_string (ep_complexity e)) /\
  (if truthy (ep_security e)
   then forEach_array (ep_security e) add_scheme_names (acc_schemes acc) = Ok (acc_schemes acc')
   else acc_schemes acc' = acc_schemes acc) /\
  acc_patterns acc' =
    match pathSegments_of (ep_path e) with
    | seg0 :: _ => set_add (replace_path_params (ep_path e)) (set_add ("/" ++ seg0) (acc_patterns acc))
    | [] => acc_patterns acc
    end /\
  acc_deprecated acc' = (acc_deprecated acc + if truthy (ep_deprecated e) then 1 else 0)%nat /\
  acc_parameters acc' = (acc_parameters acc + List.length (ep_parameters e))%nat.
Proof.
  unfold analytics_step. intros H.
  apply bind_Ok in H. destruct H as [u [_ H]].
  apply bind_Ok in H. destruct H as [sch [Hs H]].
  injection H as <-. cbn [acc_methods acc_complexity acc_schemes acc_patterns acc_deprecated acc_parameters].
  repeat split.
  - destruct (truthy (ep_security e)); [exact Hs | injection Hs as <-; reflexivity].
  - destruct (truthy (ep_deprecated e)); lia.
Qed.

Lemma analytics_fold_counts eps : forall acc out,
  foldM analytics_step acc eps = Ok out ->
  (forall k, dist_lookup (acc_methods out) k =
     (dist_lookup (acc_methods acc) k + List.length (filter (fun e => String.eqb k (ep_method e)) eps))%nat) /\
  (forall k, dist_lookup (acc_complexity out) k =
     (dist_lookup (acc_complexity acc) k
      + List.length (filter (fun e => String.eqb k (complexity_string (ep_complexity e))) eps))%nat) /\
  (NoDup (map fst (acc_methods acc)) -> NoDup (map fst (acc_methods out))) /\
  (NoDup (map fst (acc_complexity acc)) -> NoDup (map fst (acc_complexity out))) /\
  list_sum (map snd (acc_methods out)) = (list_sum (map snd (acc_methods acc)) + List.length eps)%nat /\
  list_sum (map snd (acc_complexity out)) = (list_sum (map snd (acc_complexity acc)) + List.length eps)%nat /\
  acc_deprecated out = (acc_deprecated acc + List.length (filter (fun e => truthy (ep_deprecated e)) eps))%nat /\
  acc_parameters out = (acc_parameters acc + list_sum (map (fun e => List.length (ep_parameters e)) eps))%nat.
Proof.
  induction eps as [| e eps IH]; cbn [foldM]; intros acc out H.
  - injection H as <-. cbn [filter List.length map list_sum fold_right].
    repeat split; intros; try lia; assumption.
  - apply bind_Ok in H. destruct H as [acc1 [H1 H]].
    destruct (analytics_step_Ok _ _ _ H1) as (Hm & Hc & _ & _ & Hd & Hp).
    destruct (IH _ _ H) as (IHm & IHc & IHnm & IHnc & IHsm & IHsc & IHd & IHp).
    cbn [filter List.length map].
    repeat split.
    + intros k. rewrite IHm, Hm, incr_lookup.
      destruct (String.eqb k (ep_method e)); cbn [List.length]; lia.
    + intros k. rewrite IHc, Hc, incr_lookup.
      destruct (String.eqb k (complexity_string (ep_complexity e))); cbn [List.length]; lia.
    + intros Hn. apply IHnm. rewrite Hm. apply incr_NoDup, Hn.
    + intros Hn. apply IHnc. rewrite Hc. apply incr_NoDup, Hn.
    + rewrite IHsm, Hm, incr_sum. lia.
    + rewrite IHsc, Hc, incr_sum. lia.
    + rewrite IHd, Hd. destruct (truthy (ep_deprecated e)); cbn [List.length]; lia.
    + rewrite IHp, Hp. cbn [list_sum fold_right]. unfold list_sum. lia.
Qed.

Lemma add_scheme_names_step acc sec acc' :
  add_scheme_names acc sec = Ok acc' ->
  (forall y, In y acc' <-> In y acc \/ exists es, entries sec = Ok es /\ In y (map fst es)) /\
  (NoDup acc -> NoDup acc').
Proof.
  unfold add_scheme_names. intros H. apply bind_Ok in H. destruct H as [es [Hes H]].
  injection H as <-. split.
  - intros y. rewrite fold_left_set_add_In. split.
    + intros [Hy | Hy]; [left; exact Hy | right; exists es; auto].
    + intros [Hy | [es' [Hes' Hy]]]; [left; exact Hy | right; congruence].
  - apply fold_left_set_add_NoDup.
Qed.

Lemma analytics_fold_sets eps : forall acc out,
  foldM analytics_step acc eps = Ok out ->
  (NoDup (acc_schemes acc) -> NoDup (acc_schemes out)) /\
  (forall s, In s (acc_schemes out) <-> In s (acc_schemes acc) \/ exists e, In e eps /\ names_scheme e s) /\
  (NoDup (acc_patterns acc) -> NoDup (acc_patterns out)) /\
  (forall p, In p (acc_patterns out) <-> In p (acc_patterns acc) \/ exists e, In e eps /\ path_pattern_of e p).
Proof.
  induction eps as [| e eps IH]; cbn [foldM]; intros acc out H.
  - injection H as <-. repeat split; auto.
    + intros [Hs | [e [[] _]]]; exact Hs.
    + intros [Hs | [e [[] _]]]; exact Hs.
  - apply bind_Ok in H. destruct H as [acc1 [H1 H]].
    destruct (analytics_step_Ok _ _ _ H1) as (_ & _ & Hs & Hp & _ & _).
    destruct (IH _ _ H) as (IHns & IHs & IHnp & IHp).
    (* the names added by this endpoint *)
    assert (Hstep : (forall s, In s (acc_schemes acc1) <-> In s (acc_schemes acc) \/ names_scheme e s) /\
                    (NoDup (acc_schemes acc) -> NoDup (acc_schemes acc1))).
    { destruct (truthy (ep_security e)) eqn:Et.
      - destruct (ep_security e) as [| | | | | reqs |] eqn:Ese; cbn [forEach_array] in Hs;
          try discriminate Hs; [].
        destruct (foldM_set add_scheme_names
                    (fun sec y => exists es, entries sec = Ok es /\ In y (map fst es))
                    add_scheme_names_step reqs _ _ Hs) as [Hin Hnd].
        split; [| exact Hnd]. intros s. rewrite Hin. unfold names_scheme. rewrite Ese. split.
        + intros [Hs' | [sec [Hsec [es [Hes Hy]]]]]; [left; exact Hs' |].
          right. exists reqs, sec, es. auto.
        + intros [Hs' | [reqs' [sec [es [Hr [Hsec [Hes Hy]]]]]]]; [left; exact Hs' |].
          injection Hr as <-. right. exists sec. split; [exact Hsec | exists es; auto].
      - rewrite Hs. split; [| auto]. intros s. split; [auto |].
        intros [Hs' | [reqs [sec [es [Hr _]]]]]; [exact Hs' |].
        rewrite Hr in Et. discriminate Et. }
    assert (Hpstep : (forall p, In p (acc_patterns acc1) <-> In p (acc_patterns acc) \/ path_pattern_of e p) /\
                     (NoDup (acc_patterns acc) -> NoDup (acc_patterns acc1))).
    { rewrite Hp. unfold path_pattern_of. destruct (pathSegments_of (ep_path e)) as [| seg0 rest].
      - split; [| auto]. intros p. split; [auto |].
        intros [Hp' | [seg0 [rest [Hr _]]]]; [exact Hp' | discriminate Hr].
      - split; [| intros Hn; apply set_add_NoDup, set_add_NoDup, Hn].
        intros p. rewrite !set_add_In. split.
        + intros [-> | [-> | Hp']]; [right | right | left; exact Hp'];
            exists seg0, rest; auto.
        + intros [Hp' | [seg1 [rest1 [Hr [-> | ->]]]]]; [auto | |].
          * injection Hr as <- <-. auto.
          * auto. }
    destruct Hstep as [Hsin Hsnd]. destruct Hpstep as [Hpin Hpnd].
    split; [intros Hn; apply IHns, Hsnd, Hn |].
    split.
    { intros s. rewrite IHs, Hsin. split.
      - intros [[Hs' | Hn] | [e' [He' Hn]]]; [left; exact Hs' | right; exists e; split; [left; reflexivity | exact Hn] | right; exists e'; split; [right; exact He' | exact Hn]].
      - intros [Hs' | [e' [[<- | He'] Hn]]]; [left; left; exact Hs' | left; right; exact Hn | right; exists e'; split; [exact He' | exact Hn]]. }
    split; [intros Hn; apply IHnp, Hpnd, Hn |].
    intros p. rewrite IHp, Hpin. split.
    + intros [[Hp' | Hn] | [e' [He' Hn]]]; [left; exact Hp' | right; exists e; split; [left; reflexivity | exact Hn] | right; exists e'; split; [right; exact He' | exact Hn]].
    + intros [Hp' | [e' [[<- | He'] Hn]]]; [left; left; exact Hp' | left; right; exact Hn | right; exists e'; split; [exact He' | exact Hn]].
Qed.

Lemma foldM_step_Ok {A S} (f : S -> A -> res S) l : forall s out x,
  foldM f s l = Ok out -> In x l -> exists s1 s2, f s1 x = Ok s2.
Proof.
  induction l as [| y l IH]; cbn [foldM]; intros s out x H Hx; [destruct Hx |].
  apply bind_Ok in H. destruct H as [s1 [H1 H]].
  destruct Hx as [<- | Hx]; [exists s, s1; exact H1 | exact (IH _ _ _ H Hx)].
Qed.

Lemma foldM_error {A S} (f : S -> A -> res S) E :
  (forall s x err, f s x = Throw err -> err = E) ->
  forall l s err, foldM f s l = Throw err -> err = E.
Proof.
  intros Hf l. induction l as [| x l IH]; cbn [foldM]; intros s err H; [discriminate H |].
  destruct (f s x) as [s1 | err1] eqn:E1; cbn [bind] in H; [exact (IH _ _ H) |].
  injection H as <-. exact (Hf _ _ _ E1).
Qed.

Lemma forEach_array_error {S} (f : S -> jv -> res S) xs s err :
  (forall s x err, f s x = Throw err -> err = TypeError) ->
  forEach_array xs f s = Throw err -> err = TypeError.
Proof.
  intros Hf. destruct xs; cbn [forEach_array]; try (intros H; injection H as <-; reflexivity).
  apply foldM_error, Hf.
Qed.

(** [String(v)] only throws a [TypeError]. *)
Lemma to_string_error v : forall err, to_string v = Throw err -> err = TypeError.
Proof.
  induction v as [| | b | n | s0 | xs Hxs | fs Hfs] using jv_ind_nested; intros err H;
    cbn [to_string] in H; try discriminate H.
  - destruct (mapM _ xs) as [ss | err1] eqn:E; cbn [bind] in H; [discriminate H |].
    injection H as <-. revert err1 E. induction Hxs as [| x r Hx Hr IH]; intros err1 E; cbn [mapM] in E.
    + discriminate E.
    + destruct (match x with JUndef | JNull => Ok "" | _ => to_string x end) as [s1 | err2] eqn:E1;
        cbn [bind] in E.
      * destruct (mapM _ r) as [ss | err3] eqn:E2; cbn [bind] in E; [discriminate E |].
        injection E as <-. exact (IH _ eq_refl).
      * injection E as <-. destruct x; try discriminate E1; exact (Hx _ E1).
  - destruct (existsb _ fs); [injection H as <-; reflexivity | discriminate H].
Qed.

Lemma analytics_step_error acc e err : analytics_step acc e = Throw err -> err = TypeError.
Proof.
  unfold analytics_step.
  destruct (forEach_array (ep_tags e) (fun u tag => let* _ := to_string tag in Ok u) tt)
    as [u | err1] eqn:Et; cbn [bind].
  - destruct (truthy (ep_security e)).
    + destruct (forEach_array (ep_security e) add_scheme_names (acc_schemes acc)) as [s | err2] eqn:Es;
        cbn [bind]; [discriminate |].
      intros H. injection H as <-. revert Es. apply forEach_array_error.
      unfold add_scheme_names. intros s0 sec err3.
      destruct sec; cbn [entries bind]; intros H; first [discriminate H | injection H as <-; reflexivity].
    + cbn [bind]. discriminate.
  - intros H. injection H as <-. revert Et. apply forEach_array_error.
    intros s x err2 H. destruct (to_string x) as [s1 | err3] eqn:E; cbn [bind] in H; [discriminate H |].
    injection H as <-. exact (to_string_error _ _ E).
Qed.

(** ** Extra properties of [generateAnalytics] *)

(** The method and complexity distributions count the endpoints: [d[k]] is
    the number of endpoints with method (complexity level) [k], every key
    appears once, and the counts add up to [totalEndpoints], the number of
    endpoints. *)
Theorem generateAnalytics_distributions eps a :
  generateAnalytics eps = Ok a ->
  totalEndpoints a = List.length eps /\
  (forall m, dist_lookup (methodDistribution a) m = List.length (filter (fun e => String.eqb m (ep_method e)) eps)) /\
  NoDup (map fst (methodDistribution a)) /\
  list_sum (map snd (methodDistribution a)) = totalEndpoints a /\
  (forall c, dist_lookup (complexityDistribution a) c =
     List.length (filter (fun e => String.eqb c (complexity_string (ep_complexity e))) eps)) /\
  NoDup (map fst (complexityDistribution a)) /\
  list_sum (map snd (complexityDistribution a)) = totalEndpoints a.
Proof.
  unfold generateAnalytics. intros H. apply bind_Ok in H. destruct H as [acc [Hf H]].
  injection H as <-. cbn [totalEndpoints methodDistribution complexityDistribution].
  destruct (analytics_fold_counts _ _ _ Hf) as (Hm & Hc & Hnm & Hnc & Hsm & Hsc & _ & _).
  cbn [analytics_init acc_methods acc_complexity dist_lookup map list_sum fold_right] in *.
  repeat split.
  - intros m. rewrite Hm. reflexivity.
  - apply Hnm. constructor.
  - rewrite Hsm. reflexivity.
  - intros c. rewrite Hc. reflexivity.
  - apply Hnc. constructor.
  - rewrite Hsc. reflexivity.
Qed.

(** [deprecatedCount] is the number of endpoints whose [deprecated] flag is
    truthy, and [averageParametersPerEndpoint] is the total number of
    parameters divided, as doubles, by the number of endpoints; with no
    endpoints the average is 0. *)
Theorem generateAnalytics_counts eps a :
  generateAnalytics eps = Ok a ->
  deprecatedCount a = List.length (filter (fun e => truthy (ep_deprecated e)) eps) /\
  (deprecatedCount a <= totalEndpoints a)%nat /\
  (eps = [] -> averageParametersPerEndpoint a = 0%Q) /\
  (eps <> [] ->
   averageParametersPerEndpoint a =
     fdiv (inject_Z (Z.of_nat (list_sum (map (fun e => List.length (ep_parameters e)) eps))))
          (inject_Z (Z.of_nat (List.length eps)))).
Proof.
  unfold generateAnalytics. intros H. apply bind_Ok in H. destruct H as [acc [Hf H]].
  injection H as <-. cbn [totalEndpoints deprecatedCount averageParametersPerEndpoint].
  destruct (analytics_fold_counts _ _ _ Hf) as (_ & _ & _ & _ & _ & _ & Hd & Hp).
  cbn [analytics_init acc_deprecated acc_parameters] in Hd, Hp.
  split; [exact Hd |]. split; [rewrite Hd; apply filter_length_le |]. split.
  - intros ->. reflexivity.
  - intros Hne. destruct eps as [| e0 eps0]; [congruence |].
    cbn [List.length Nat.ltb Nat.leb]. rewrite Hp. reflexivity.
Qed.

(** [securitySchemes] lists, once each, the scheme names used by the
    security requirements of the endpoints; [pathPatterns] is at most 20
    distinct patterns, the first of the base paths ["/" ++ first segment]
    and the paths with every [{...}] replaced by [{id}], in insertion
    order. *)
Theorem generateAnalytics_sets eps a :
  generateAnalytics eps = Ok a ->
  NoDup (securitySchemes a) /\
  (forall s, In s (securitySchemes a) <-> exists e, In e eps /\ names_scheme e s) /\
  (List.length (pathPatterns a) <= 20)%nat /\ NoDup (pathPatterns a) /\
  exists P, pathPatterns a = firstn 20 P /\ NoDup P /\
    (forall p, In p P <-> exists e, In e eps /\ path_pattern_of e p).
Proof.
  unfold generateAnalytics. intros H. apply bind_Ok in H. destruct H as [acc [Hf H]].
  injection H as H.
  assert (E1 : securitySchemes a = acc_schemes acc) by (rewrite <- H; reflexivity).
  assert (E2 : pathPatterns a = firstn 20 (acc_patterns acc)) by (rewrite <- H; reflexivity).
  rewrite E1, E2. clear H E1 E2.
  destruct (analytics_fold_sets _ _ _ Hf) as (Hns & Hs & Hnp & Hp).
  cbn [analytics_init acc_schemes acc_patterns In] in Hns, Hs, Hnp, Hp.
  assert (Hnp' : NoDup (acc_patterns acc)) by (apply Hnp; constructor).
  split; [apply Hns; constructor |]. split.
  { intros s. rewrite Hs. split; [intros [[] | Hx]; exact Hx | intros Hx; right; exact Hx]. }
  split; [apply firstn_le_length |].
  split.
  { rewrite <- (firstn_skipn 20 (acc_patterns acc)) in Hnp'. apply NoDup_app_remove_r in Hnp'. exact Hnp'. }
  exists (acc_patterns acc). split; [reflexivity |]. split; [exact Hnp' |].
  intros p. rewrite Hp. split; [intros [[] | Hx]; exact Hx | intros Hx; right; exact Hx].
Qed.

(** [generateAnalytics] throws a [TypeError] when some endpoint's [tags]
    is not an array, or its [security] is truthy but not an array. *)
Theorem generateAnalytics_type_error eps e :
  In e eps ->
  (forall ts, ep_tags e <> JArr ts) \/
  (truthy (ep_security e) = true /\ forall reqs, ep_security e <> JArr reqs) ->
  generateAnalytics eps = Throw TypeError.
Proof.
  intros He Hbad. unfold generateAnalytics.
  destruct (foldM analytics_step analytics_init eps) as [acc | err] eqn:Hf; cbn [bind].
  - exfalso. destruct (foldM_step_Ok _ _ _ _ _ Hf He) as [s1 [s2 Hs]].
    unfold analytics_step in Hs. apply bind_Ok in Hs. destruct Hs as [u [Ht Hs]].
    apply bind_Ok in Hs. destruct Hs as [sch [Hsec _]].
    destruct Hbad as [Hbad | [Htr Hbad]].
    + destruct (ep_tags e) as [| | b | n | str | ts | fs]; cbn [forEach_array] in Ht; try discriminate Ht.
      apply (Hbad ts). reflexivity.
    + rewrite Htr in Hsec.
      destruct (ep_security e) as [| | b | n | str | reqs | fs]; cbn [forEach_array] in Hsec; try discriminate Hsec.
      apply (Hbad reqs). reflexivity.
  - f_equal. exact (foldM_error _ _ analytics_step_error _ _ _ Hf).
Qed.


(** ** [searchEndpoints] *)

Lemma ok_true_iff r : ok_true r = true <-> r = Ok true.
Proof. destruct r as [[|] | e]; cbn; split; congruence. Qed.

Lemma filterM_filter {A} (p : A -> res bool) l : forall l',
  filterM p l = Ok l' -> l' = filter (fun x => ok_true (p x)) l.
Proof.
  induction l as [| x l IH]; cbn [filterM filter]; intros l' H; [injection H as <-; reflexivity |].
  apply bind_Ok in H. destruct H as [b [Hb H]]. apply bind_Ok in H. destruct H as [r' [Hr H]].
  injection H as <-. rewrite Hb, (IH _ Hr). destruct b; reflexivity.
Qed.

Lemma filter_filter_and {A} (k1 k2 : A -> bool) l :
  filter k2 (filter k1 l) = filter (fun x => k1 x && k2 x) l.
Proof.
  induction l as [| x l IH]; cbn [filter]; [reflexivity |].
  destruct (k1 x); cbn [andb filter]; [destruct (k2 x); rewrite IH; reflexivity | exact IH].
Qed.

(** One more filter on a list that is already a filtered copy of [eps]. *)
Lemma filter_stage {A} (eps F : list A) (P C : A -> Prop) (k : A -> bool) :
  (exists keep, F = filter keep eps) -> (forall e, In e F <-> In e eps /\ P e) ->
  (forall e, k e = true <-> C e) ->
  (exists keep, filter k F = filter keep eps) /\ (forall e, In e (filter k F) <-> In e eps /\ (P e /\ C e)).
Proof.
  intros [keep ->] HF Hk. split.
  - exists (fun x => keep x && k x). apply filter_filter_and.
  - intros e. rewrite filter_In, HF, Hk. tauto.
Qed.

Lemma tags_match_true ts e :
  ok_true (tags_match ts e) = true <-> exists l t, ep_tags e = JArr l /\ In (JStr t) l /\ In t ts.
Proof.
  unfold tags_match. destruct (ep_tags e) as [| | | | | l |]; cbn [ok_true];
    try (split; [discriminate | intros (l & t & Hl & _); discriminate Hl]).
  destruct (existsb _ l) eqn:E; split; try discriminate; try (intros; reflexivity).
  - intros _. apply existsb_exists in E. destruct E as [tag [Htag Ht]].
    destruct tag; try discriminate Ht. apply existsb_eqb_In in Ht. exists l, s. auto.
  - intros (l' & t & Hl & Ht & Hts). injection Hl as <-.
    assert (existsb (fun tag => match tag with JStr t => existsb (String.eqb t) ts | _ => false end) l = true)
      by (apply existsb_exists; exists (JStr t); split; [exact Ht | apply existsb_eqb_In, Hts]).
    congruence.
Qed.

Lemma strict_eq_bool v d : strict_eq v (JBool d) = true <-> v = JBool d.
Proof.
  destruct v; cbn [strict_eq]; split; try discriminate; try (intros H; discriminate H).
  - intros H. apply Bool.eqb_prop in H. subst. reflexivity.
  - intros H. injection H as ->. apply Bool.eqb_reflx.
Qed.

Lemma filter_all_true {A} (l : list A) : filter (fun _ => true) l = l.
Proof. induction l as [| x l IH]; cbn [filter]; [reflexivity | rewrite IH; reflexivity]. Qed.

Lemma skip_stage {A} (F : list A) (C : A -> Prop) :
  (forall e, C e) -> exists k, F = filter k F /\ forall e, k e = true <-> C e.
Proof.
  intros HC. exists (fun _ => true). split; [symmetry; apply filter_all_true | intros e; split; auto].
Qed.

Lemma filterM_stage {A} (p : A -> res bool) (F F' : list A) (C : A -> Prop) :
  filterM p F = Ok F' -> (forall e, p e = Ok true <-> C e) ->
  exists k, F' = filter k F /\ forall e, k e = true <-> C e.
Proof.
  intros H HC. apply filterM_filter in H. eexists. split; [exact H |].
  intros e. rewrite ok_true_iff. apply HC.
Qed.

Lemma Ok_bool_true b : (Ok b : res bool) = Ok true <-> b = true.
Proof. split; [intros H; injection H as ->; reflexivity | intros ->; reflexivity]. Qed.

(** ** Extra properties of [searchEndpoints] *)

(** With nothing loaded the search throws ["No OpenAPI specification
    loaded. ..."].  Otherwise the endpoints it finds are those of the loaded
    list, in their order, that pass all the filters given; it reports how
    many there are and shows the first 20 of them. *)
Theorem searchEndpoints_results st args n rs :
  searchEndpoints st args = Ok (n, rs) ->
  currentEndpoints st <> [] /\
  exists F, n = List.length F /\ rs = firstn 20 F /\
    (exists keep, F = filter keep (currentEndpoints st)) /\
    (forall e, In e F <-> In e (currentEndpoints st) /\ search_selects args e).
Proof.
  intros H. unfold searchEndpoints in H.
  destruct (Nat.eqb (List.length (currentEndpoints st)) 0) eqn:E0; [discriminate H |].
  split; [intros Hn; rewrite Hn in E0; discriminate E0 |].
  set (eps := currentEndpoints st) in *.
  assert (I0 : (exists keep, eps = filter keep eps) /\ (forall e, In e eps <-> In e eps /\ True)).
  { split; [exists (fun _ => true); symmetry; apply filter_all_true | intros e; tauto]. }
  (* query *)
  apply bind_Ok in H. destruct H as [F1 [H1 H]].
  assert (K1 : exists k, F1 = filter k eps /\ forall e, k e = true <->
            (forall q, sa_query args = Some q -> q <> "" -> query_match (toLowerCase q) e = Ok true)).
  { revert H1. destruct (sa_query args) as [q |]; intros H1.
    - destruct (String.eqb q "") eqn:Eqe; cbn [negb] in H1.
      + injection H1 as <-. apply skip_stage. intros e q' Hq' Hne. injection Hq' as <-.
        apply String.eqb_eq in Eqe. contradiction.
      + apply (filterM_stage _ _ _ _ H1). intros e. split.
        * intros Hm q' Hq' _. injection Hq' as <-. exact Hm.
        * intros Hc. apply Hc; [reflexivity |]. intros ->. discriminate Eqe.
    - injection H1 as <-. apply skip_stage. intros e q' Hq'. discriminate Hq'. }
  destruct K1 as [k1 [-> Hk1]]. pose proof (filter_stage _ _ _ _ _ (proj1 I0) (proj2 I0) Hk1) as I1.
  (* methods *)
  apply bind_Ok in H. destruct H as [F2 [H2 H]].
  assert (K2 : exists k, F2 = filter k (filter k1 eps) /\ forall e, k e = true <->
            (forall ms, sa_methods args = Some ms -> ms <> [] -> In (ep_method e) ms)).
  { revert H2. destruct (sa_methods args) as [[| m ms] |]; intros H2.
    - injection H2 as <-. apply skip_stage. intros e ms' Hms Hne. injection Hms as <-. contradiction.
    - apply (filterM_stage _ _ _ _ H2). intros e. rewrite Ok_bool_true, existsb_eqb_In. split.
      + intros Hm ms' Hms _. injection Hms as <-. exact Hm.
      + intros Hc. apply Hc; [reflexivity | discriminate].
    - injection H2 as <-. apply skip_stage. intros e ms' Hms. discriminate Hms. }
  destruct K2 as [k2 [-> Hk2]]. pose proof (filter_stage _ _ _ _ _ (proj1 I1) (proj2 I1) Hk2) as I2.
  (* tags *)
  apply bind_Ok in H. destruct H as [F3 [H3 H]].
  assert (K3 : exists k, F3 = filter k (filter k2 (filter k1 eps)) /\ forall e, k e = true <->
            (forall ts, sa_tags args = Some ts -> ts <> [] ->
               exists l t, ep_tags e = JArr l /\ In (JStr t) l /\ In t ts)).
  { revert H3. destruct (sa_tags args) as [[| t0 ts] |]; intros H3.
    - injection H3 as <-. apply skip_stage. intros e ts' Hts Hne. injection Hts as <-. contradiction.
    - apply (filterM_stage _ _ _ _ H3). intros e. rewrite <- ok_true_iff, tags_match_true. split.
      + intros Hm ts' Hts _. injection Hts as <-. exact Hm.
      + intros Hc. apply Hc; [reflexivity | discriminate].
    - injection H3 as <-. apply skip_stage. intros e ts' Hts. discriminate Hts. }
  destruct K3 as [k3 [-> Hk3]]. pose proof (filter_stage _ _ _ _ _ (proj1 I2) (proj2 I2) Hk3) as I3.
  (* complexity *)
  apply bind_Ok in H. destruct H as [F4 [H4 H]].
  assert (K4 : exists k, F4 = filter k (filter k3 (filter k2 (filter k1 eps))) /\ forall e, k e = true <->
            (forall cs, sa_complexity args = Some cs -> cs <> [] -> In (complexity_string (ep_complexity e)) cs)).
  { revert H4. destruct (sa_complexity args) as [[| c0 cs] |]; intros H4.
    - injection H4 as <-. apply skip_stage. intros e cs' Hcs Hne. injection Hcs as <-. contradiction.
    - apply (filterM_stage _ _ _ _ H4). intros e. rewrite Ok_bool_true, existsb_eqb_In. split.
      + intros Hm cs' Hcs _. injection Hcs as <-. exact Hm.
      + intros Hc. apply Hc; [reflexivity | discriminate].
    - injection H4 as <-. apply skip_stage. intros e cs' Hcs. discriminate Hcs. }
  destruct K4 as [k4 [-> Hk4]]. pose proof (filter_stage _ _ _ _ _ (proj1 I3) (proj2 I3) Hk4) as I4.
  (* deprecated *)
  apply bind_Ok in H. destruct H as [F5 [H5 H]].
  assert (K5 : exists k, F5 = filter k (filter k4 (filter k3 (filter k2 (filter k1 eps)))) /\
            forall e, k e = true <-> (forall d, sa_deprecated args = Some d -> ep_deprecated e = JBool d)).
  { revert H5. destruct (sa_deprecated args) as [d |]; intros H5.
    - apply (filterM_stage _ _ _ _ H5). intros e. rewrite Ok_bool_true, strict_eq_bool. split.
      + intros Hm d' Hd. injection Hd as <-. exact Hm.
      + intros Hc. apply Hc. reflexivity.
    - injection H5 as <-. apply skip_stage. intros e d' Hd. discriminate Hd. }
  destruct K5 as [k5 [-> Hk5]]. pose proof (filter_stage _ _ _ _ _ (proj1 I4) (proj2 I4) Hk5) as I5.
  (* hasParameters *)
  apply bind_Ok in H. destruct H as [F6 [H6 H]].
  assert (K6 : exists k, F6 = filter k (filter k5 (filter k4 (filter k3 (filter k2 (filter k1 eps))))) /\
            forall e, k e = true <->
              (forall h, sa_hasParameters args = Some h -> ((0 < List.length (ep_parameters e))%nat <-> h = true))).
  { revert H6. destruct (sa_hasParameters args) as [h |]; intros H6.
    - apply (filterM_stage _ _ _ _ H6). intros e. rewrite Ok_bool_true, Bool.eqb_true_iff. split.
      + intros Hm h' Hh. injection Hh as <-. rewrite <- Hm, Nat.ltb_lt. reflexivity.
      + intros Hc. specialize (Hc h eq_refl). rewrite <- Nat.ltb_lt in Hc.
        destruct h, (0 <? List.length (ep_parameters e))%nat; intuition congruence.
    - injection H6 as <-. apply skip_stage. intros e h' Hh. discriminate Hh. }
  destruct K6 as [k6 [-> Hk6]]. pose proof (filter_stage _ _ _ _ _ (proj1 I5) (proj2 I5) Hk6) as I6.
  (* hasRequestBody *)
  apply bind_Ok in H. destruct H as [F7 [H7 H]].
  assert (K7 : exists k, F7 = filter k (filter k6 (filter k5 (filter k4 (filter k3 (filter k2 (filter k1 eps)))))) /\
            forall e, k e = true <-> (forall h, sa_hasRequestBody args = Some h -> truthy (ep_requestBody e) = h)).
  { revert H7. destruct (sa_hasRequestBody args) as [h |]; intros H7.
    - apply (filterM_stage _ _ _ _ H7). intros e. rewrite Ok_bool_true, Bool.eqb_true_iff. split.
      + intros Hm h' Hh. injection Hh as <-. exact Hm.
      + intros Hc. apply Hc. reflexivity.
    - injection H7 as <-. apply skip_stage. intros e h' Hh. discriminate Hh. }
  destruct K7 as [k7 [-> Hk7]]. destruct (filter_stage _ _ _ _ _ (proj1 I6) (proj2 I6) Hk7) as [Hkeep Hin].
  (* the results *)
  apply bind_Ok in H. destruct H as [u [_ H]]. injection H as <- <-.
  eexists. split; [reflexivity |]. split; [reflexivity |]. split; [exact Hkeep |].
  intros e. rewrite Hin. unfold search_selects. tauto.
Qed.

Lemma join_printable ts sep : Forall printable ts -> exists s, join (JArr ts) sep = Ok s.
Proof.
  intros H. unfold join.
  assert (K : exists ss, mapM (fun x => match x with JUndef | JNull => Ok "" | _ => to_string x end) ts = Ok ss).
  { induction H as [| x r [s1 Hx] Hr [ss IH]]; cbn [mapM]; [eexists; reflexivity |].
    rewrite IH. destruct x; cbn [bind]; try (eexists; reflexivity); rewrite Hx; eexists; reflexivity. }
  destruct K as [ss K]. rewrite K. eexists. reflexivity.
Qed.

Lemma render_result_ok e : renderable e -> render_result e = Ok tt.
Proof.
  intros [[s1 Hs] [[ts [Ht Hts]] [s2 Hd]]]. unfold render_result.
  assert (K1 : exists s, to_string (js_or (ep_summary e) (JStr "No summary")) = Ok s).
  { unfold js_or. destruct (truthy (ep_summary e)); [exists s1; exact Hs | eexists; reflexivity]. }
  destruct K1 as [s3 K1]. rewrite K1. cbn [bind]. rewrite Ht.
  destruct (join_printable ts ", " Hts) as [s4 K2]. rewrite K2. cbn [bind].
  destruct (truthy (ep_description e)); [rewrite Hd |]; reflexivity.
Qed.

Lemma mapM_render_ok l :
  (forall e, In e l -> renderable e) -> exists u, mapM render_result l = Ok u.
Proof.
  induction l as [| e l IH]; intros Hl; cbn [mapM]; [eexists; reflexivity |].
  rewrite (render_result_ok e (Hl e (or_introl eq_refl))). cbn [bind].
  destruct IH as [u Hu]; [intros x Hx; apply Hl; right; exact Hx |]. rewrite Hu. cbn [bind].
  eexists. reflexivity.
Qed.

Lemma searchEndpoints_all_listed st :
  (currentEndpoints st = [] -> forall args, searchEndpoints st args = Throw no_spec_loaded) /\
  (currentEndpoints st <> [] ->
   (forall e, In e (firstn 20 (currentEndpoints st)) -> renderable e) ->
   searchEndpoints st no_filters =
     Ok (List.length (currentEndpoints st), firstn 20 (currentEndpoints st))).
Proof.
  split.
  - intros Hn args. unfold searchEndpoints. rewrite Hn. reflexivity.
  - intros Hn Ht. unfold searchEndpoints.
    destruct (Nat.eqb (List.length (currentEndpoints st)) 0) eqn:E0.
    { apply Nat.eqb_eq, length_zero_iff_nil in E0. contradiction. }
    cbn [no_filters sa_query sa_methods sa_tags sa_complexity sa_deprecated sa_hasParameters
         sa_hasRequestBody bind].
    destruct (mapM_render_ok _ Ht) as [u Hu]. rewrite Hu. reflexivity.
Qed.

(** With nothing loaded every search throws ["No OpenAPI specification
    loaded. ..."]; without filters, the search reports all the loaded
    endpoints and shows the first 20, provided the text of each shown one
    can be built: its tags are an array, and its summary, description and
    tags convert to strings (none is an object with an own [toString] key). *)
Theorem searchEndpoints_no_filters st :
  (currentEndpoints st = [] -> forall args, searchEndpoints st args = Throw no_spec_loaded) /\
  (currentEndpoints st <> [] ->
   (forall e, In e (firstn 20 (currentEndpoints st)) -> renderable e) ->
   searchEndpoints st no_filters =
     Ok (List.length (currentEndpoints st), firstn 20 (currentEndpoints st))).
Proof. apply searchEndpoints_all_listed. Qed.


Lemma filterM_total_Ok {A} (p : A -> res bool) l : forall l',
  filterM p l = Ok l' -> forall x, In x l -> exists b, p x = Ok b.
Proof.
  induction l as [| y l IH]; cbn [filterM]; intros l' H x Hx; [destruct Hx |].
  apply bind_Ok in H. destruct H as [b [Hb H]]. apply bind_Ok in H. destruct H as [r' [Hr _]].
  destruct Hx as [<- | Hx]; [exists b; exact Hb | exact (IH _ Hr _ Hx)].
Qed.


(** ** Schema dependencies *)

Lemma fold_set_add_facts (l acc : list string) :
  (forall x, In x (fold_left (fun acc x => set_add x acc) l acc) <-> In x acc \/ In x l) /\
  (NoDup acc -> NoDup (fold_left (fun acc x => set_add x acc) l acc)).
Proof.
  revert acc. induction l as [| y l IH]; cbn [fold_left]; intros acc.
  - split; [intros x; cbn [In]; tauto | auto].
  - destruct (IH (set_add y acc)) as [I1 I2]. split.
    + intros x. rewrite I1, set_add_In. cbn [In]. intuition congruence.
    + intros H. apply I2, set_add_NoDup, H.
Qed.

Lemma dedup_In l x : In x (dedup l) <-> In x l.
Proof. unfold dedup. rewrite (proj1 (fold_set_add_facts l [])). cbn [In]. tauto. Qed.

Lemma dedup_NoDup l : NoDup (dedup l).
Proof. unfold dedup. apply (proj2 (fold_set_add_facts l [])). constructor. Qed.

Lemma own_ref_In fs x : In x (own_ref fs) <-> RefHere fs x.
Proof.
  unfold own_ref, RefHere. destruct (field fs "$ref") eqn:Er;
    try (split; [intros [] | intros [r [H _]]; discriminate H]).
  destruct (String.eqb s "") eqn:E1, (String.eqb (ref_name s) "") eqn:E2; cbn [negb andb In].
  1-3: split; [intros [] | intros [r [Hr [H1 [H2 _]]]]; injection Hr as <-];
       first [apply String.eqb_eq in E1; contradiction | apply String.eqb_eq in E2; contradiction].
  split.
  - intros [<- | []]. exists s. repeat split; try reflexivity.
    + intros ->. discriminate E1.
    + intros E. rewrite E in E2. discriminate E2.
  - intros [r [Hr [_ [_ ->]]]]. injection Hr as <-. left. reflexivity.
Qed.

(** [extractDirectRefs] returns, once each, exactly the names designated by
    the non-empty [$ref] strings found anywhere inside the value. *)
Theorem extractDirectRefs_spec o :
  NoDup (extractDirectRefs o) /\ (forall x, In x (extractDirectRefs o) <-> RefIn o x).
Proof.
  induction o as [| | b | n | s | xs Hxs | fs Hfs] using jv_ind_nested.
  1-5: split; [constructor | intros x; split; [intros [] | intros H; inversion H]].
  - cbn [extractDirectRefs]. split; [apply dedup_NoDup |]. intros x. rewrite dedup_In, RefIn_arr.
    induction Hxs as [| y xs [_ Hy] _ IH]; cbn [In].
    + split; [intros [] | intros [v [[] _]]].
    + rewrite in_app_iff, IH, Hy. split.
      * intros [H | [v [Hv H]]]; [exists y; auto | exists v; auto].
      * intros [v [[<- | Hv] H]]; [left; exact H | right; exists v; auto].
  - cbn [extractDirectRefs]. split; [apply dedup_NoDup |]. intros x.
    rewrite dedup_In, in_app_iff, own_ref_In, RefIn_obj. apply or_iff_compat_l.
    induction Hfs as [| [k v] fs [_ Hv] _ IH]; cbn [In].
    + split; [intros [] | intros [kv [[] _]]].
    + rewrite in_app_iff, IH, Hv. cbn [snd]. split.
      * intros [H | [kv [Hkv H]]]; [exists (k, v); auto | exists kv; auto].
      * intros [kv [[<- | Hkv] H]]; [left; exact H | right; exists kv; auto].
Qed.

Lemma mapM_Forall2 {A B} (g : A -> res B) l : forall ys,
  mapM g l = Ok ys -> Forall2 (fun x y => g x = Ok y) l ys.
Proof.
  induction l as [| x l IH]; cbn [mapM]; intros ys H; [injection H as <-; constructor |].
  apply bind_Ok in H. destruct H as [y [Hy H]]. apply bind_Ok in H. destruct H as [r [Hr H]].
  injection H as <-. constructor; [exact Hy | exact (IH _ Hr)].
Qed.

Lemma buildDependencyTree_fuel_ok schemas fuel : forall visited name t,
  buildDependencyTree_fuel schemas fuel visited name = Ok t ->
  dep_tree_name t = name /\ dep_tree_ok schemas visited t /\ (dep_tree_height t <= fuel)%nat.
Proof.
  induction fuel as [| f IH]; intros visited name t H; cbn [buildDependencyTree_fuel] in H.
  - injection H as <-. cbn [dep_tree_name dep_tree_ok dep_tree_height]. auto.
  - destruct (existsb (String.eqb name) visited) eqn:Ec.
    { injection H as <-. cbn [dep_tree_name dep_tree_ok dep_tree_height]. rewrite Ec. repeat split; lia. }
    apply bind_Ok in H. destruct H as [s [Hs H]].
    destruct (truthy s) eqn:Ets; cbn [negb] in H.
    2: { injection H as <-. cbn [dep_tree_name dep_tree_ok dep_tree_height]. rewrite Ec. repeat split; lia. }
    apply bind_Ok in H. destruct H as [ds [Hds H]]. injection H as <-.
    apply mapM_Forall2 in Hds.
    cbn [dep_tree_name dep_tree_ok dep_tree_height]. split; [reflexivity |]. split; [split |].
    + intros Hin. assert (existsb (String.eqb name) visited = true)
        by (apply existsb_exists; exists name; split; [exact Hin | apply String.eqb_refl]). congruence.
    + split.
      * exists s. split; [exact Hs | split; [exact Ets |]].
        clear -Hds IH. induction Hds as [| r d rs ds Hd _ IHds]; [reflexivity |].
        cbn [map]. rewrite IHds. destruct (IH _ _ _ Hd) as [Hn _]. rewrite Hn. reflexivity.
      * clear -Hds IH. induction Hds as [| r d rs ds Hd _ IHds]; [exact I |].
        split; [exact (proj1 (proj2 (IH _ _ _ Hd))) | exact IHds].
    + apply le_n_S. clear -Hds IH. induction Hds as [| r d rs ds Hd _ IHds]; [lia |].
      destruct (IH _ _ _ Hd) as [_ [_ Hh]]. lia.
Qed.

(** [buildDependencyTree] returns a tree rooted at the schema asked for,
    no deeper than [maxDepth]: a node's name is never one of the names
    above it (so a cycle ends in a leaf), a leaf is marked circular exactly
    when its name is above it, and a node's children are named by the
    direct references of its schema, in order. *)
Theorem buildDependencyTree_spec schemaName schemas maxDepth t :
  buildDependencyTree schemaName schemas maxDepth = Ok t ->
  dep_tree_name t = schemaName /\ dep_tree_ok schemas [] t /\ (dep_tree_height t <= Z.to_nat maxDepth)%nat.
Proof. apply buildDependencyTree_fuel_ok. Qed.


(** ** [findSchemaDependencies] *)

Lemma DepReach_mono schemas o o' y :
  (forall x, RefIn o x -> RefIn o' x) -> DepReach schemas o y -> DepReach schemas o' y.
Proof.
  intros Hm H. induction H as [x Hx | n t x _ IH Ht Hx].
  - apply dep_direct, Hm, Hx.
  - exact (dep_step _ _ _ _ _ IH Ht Hx).
Qed.

Lemma DepReach_trans schemas o n t y :
  DepReach schemas o n -> get schemas n = Ok t -> DepReach schemas t y -> DepReach schemas o y.
Proof.
  intros Hn Ht H. induction H as [x Hx | m u x _ IH Hu Hx].
  - exact (dep_step _ _ _ _ _ Hn Ht Hx).
  - exact (dep_step _ _ _ _ _ IH Hu Hx).
Qed.

Lemma findRefs_visited_arr schemas f xs visited :
  findRefs_visited schemas (S f) (JArr xs) visited =
  let* p := foldM (push_refs (findRefs_visited schemas (S f))) ([], visited) xs in Ok (dedup (fst p), snd p).
Proof. reflexivity. Qed.

Lemma findRefs_visited_obj schemas f fs visited :
  findRefs_visited schemas (S f) (JObj fs) visited =
  let* p :=
    match field fs "$ref" with
    | JStr r =>
        let refName := ref_name r in
        if negb (String.eqb r "") && negb (String.eqb refName "")
           && negb (existsb (String.eqb refName) visited) then
          let visited := set_add refName visited in
          let* target := get schemas refName in
          if truthy target then
            let* q := findRefs_visited schemas f target visited in
            Ok (refName :: fst q, snd q)
          else Ok ([refName], visited)
        else Ok ([], visited)
    | _ => Ok ([], visited)
    end in
  let* p := foldM (push_refs (fun kv => findRefs_visited schemas (S f) (snd kv))) p fs in
  Ok (dedup (fst p), snd p).
Proof. reflexivity. Qed.

Lemma push_refs_foldM {A} (g : A -> list string -> res (list string * list string)) (R D : A -> string -> Prop) l :
  (forall x, In x l -> forall vis p, g x vis = Ok p ->
     (forall y, In y (fst p) -> R x y) /\ (forall y, In y (snd p) <-> In y vis \/ In y (fst p)) /\
     (forall y, D x y -> In y (snd p))) ->
  forall acc out vis0, (forall y, In y (snd acc) <-> In y vis0 \/ In y (fst acc)) ->
  foldM (push_refs g) acc l = Ok out ->
  (forall y, In y (snd out) <-> In y vis0 \/ In y (fst out)) /\
  (forall y, In y (fst out) -> In y (fst acc) \/ exists x, In x l /\ R x y) /\
  (forall y, In y (snd acc) -> In y (snd out)) /\
  (forall x y, In x l -> D x y -> In y (snd out)).
Proof.
  intros Hg. induction l as [| x l IH]; cbn [foldM]; intros acc out vis0 Hacc H.
  - injection H as <-. split; [exact Hacc |]. split; [auto |]. split; [auto | intros x y []].
  - apply bind_Ok in H. destruct H as [acc1 [H1 H]].
    unfold push_refs in H1. apply bind_Ok in H1. destruct H1 as [p [Hp H1]]. injection H1 as <-.
    destruct (Hg x (or_introl eq_refl) _ _ Hp) as [HR [HS HD]].
    assert (Hacc1 : forall y, In y (snd (app (fst acc) (fst p), snd p)) <->
                              In y vis0 \/ In y (fst (app (fst acc) (fst p), snd p))).
    { intros y. cbn [fst snd]. rewrite HS, Hacc, in_app_iff. tauto. }
    destruct (IH (fun z Hz => Hg z (or_intror Hz)) _ _ _ Hacc1 H) as [I1 [I2 [I3 I4]]].
    cbn [fst snd] in I2, I3. split; [exact I1 |]. split; [| split].
    + intros y Hy. destruct (I2 y Hy) as [Hy' | [z [Hz Hr]]].
      * apply in_app_iff in Hy'. destruct Hy' as [Hy' | Hy']; [left; exact Hy' | right; exists x; split; [left; reflexivity | apply HR, Hy']].
      * right. exists z. split; [right; exact Hz | exact Hr].
    + intros y Hy. apply I3, HS. left. exact Hy.
    + intros z y [<- | Hz] Hd; [apply I3, HD, Hd | exact (I4 z y Hz Hd)].
Qed.

Lemma findRefs_visited_facts schemas fuel : forall obj visited p,
  findRefs_visited schemas fuel obj visited = Ok p ->
  NoDup (fst p) /\ (forall y, In y (fst p) -> DepReach schemas obj y) /\
  (forall y, In y (snd p) <-> In y visited \/ In y (fst p)) /\
  ((1 <= fuel)%nat -> forall y, RefIn obj y -> In y (snd p)).
Proof.
  induction fuel as [| f IHf].
  { intros obj visited p H. cbn [findRefs_visited] in H. injection H as <-. cbn [fst snd].
    split; [constructor |]. split; [intros y [] |]. split; [intros y; cbn [In]; tauto | intros Hl; lia]. }
  intros obj. induction obj as [| | b | n | s | xs Hxs | fs Hfs] using jv_ind_nested.
  1-5: intros visited p H; cbn in H; injection H as <-; cbn [fst snd];
       split; [constructor |]; split; [intros y [] |];
       split; [intros y; cbn [In]; tauto | intros _ y Hy; inversion Hy].
  - intros visited p H. rewrite findRefs_visited_arr in H.
    apply bind_Ok in H. destruct H as [p1 [H1 H]]. injection H as <-. cbn [fst snd].
    rewrite Forall_forall in Hxs.
    destruct (push_refs_foldM (findRefs_visited schemas (S f)) (fun x y => DepReach schemas x y)
                (fun x y => RefIn x y) xs) with (acc := (@nil string, visited)) (out := p1) (vis0 := visited)
      as [I1 [I2 [_ I4]]].
    { intros x Hx vis q Hq. destruct (Hxs x Hx vis q Hq) as [_ [Q2 [Q3 Q4]]].
      split; [exact Q2 | split; [exact Q3 | apply Q4; lia]]. }
    { intros y. cbn [fst snd In]. tauto. }
    { exact H1. }
    split; [apply dedup_NoDup |]. split; [| split].
    + intros y Hy. rewrite dedup_In in Hy. destruct (I2 y Hy) as [[] | [x [Hx Hr]]].
      apply (DepReach_mono _ x); [| exact Hr]. intros z Hz. exact (RefIn_elem _ _ _ Hx Hz).
    + intros y. rewrite dedup_In. apply I1.
    + intros _ y Hy. apply RefIn_arr in Hy. destruct Hy as [v [Hv Hy]]. exact (I4 v y Hv Hy).
  - intros visited p H. rewrite findRefs_visited_obj in H.
    apply bind_Ok in H. destruct H as [p0 [H0 H]].
    apply bind_Ok in H. destruct H as [p1 [H1 H]]. injection H as <-. cbn [fst snd].
    assert (Own : (forall y, In y (fst p0) -> DepReach schemas (JObj fs) y) /\
                  (forall y, In y (snd p0) <-> In y visited \/ In y (fst p0)) /\
                  (forall y, RefHere fs y -> In y (snd p0))).
    { unfold RefHere. destruct (field fs "$ref") as [| | | | r | |] eqn:Er;
        try (injection H0 as <-; cbn [fst snd];
             split; [intros y [] | split; [intros y; cbn [In]; tauto | intros y [r [Hr _]]; discriminate Hr]]).
      destruct (String.eqb r "") eqn:E1, (String.eqb (ref_name r) "") eqn:E2; cbn [negb andb] in H0;
        rewrite ?E1, ?E2 in H0; cbn [negb andb] in H0;
        try (injection H0 as <-; cbn [fst snd];
             split; [intros y [] | split; [intros y; cbn [In]; tauto |]];
             intros y [r' [Hr [Hne [Hne' _]]]]; injection Hr as <-;
             first [apply String.eqb_eq in E1; contradiction | apply String.eqb_eq in E2; contradiction]).
      assert (Hhere : DepReach schemas (JObj fs) (ref_name r)).
      { apply dep_direct. apply RefIn_here; [exact Er | apply String.eqb_neq, E1 | apply String.eqb_neq, E2]. }
      destruct (existsb (String.eqb (ref_name r)) visited) eqn:E3; rewrite ?E3 in H0; cbn [negb] in H0.
      - injection H0 as <-. cbn [fst snd]. split; [intros y [] | split; [intros y; cbn [In]; tauto |]].
        intros y [r' [Hr [_ [_ ->]]]]. injection Hr as <-.
        apply existsb_exists in E3. destruct E3 as [z [Hz Ez]]. apply String.eqb_eq in Ez. subst z. exact Hz.
      - apply bind_Ok in H0. destruct H0 as [target [Ht H0]].
        destruct (truthy target).
        + apply bind_Ok in H0. destruct H0 as [q [Hq H0]]. injection H0 as <-. cbn [fst snd].
          destruct (IHf _ _ _ Hq) as [_ [Q2 [Q3 _]]].
          split; [| split].
          * intros y [<- | Hy]; [exact Hhere | exact (DepReach_trans _ _ _ _ _ Hhere Ht (Q2 y Hy))].
          * intros y. rewrite Q3, set_add_In. cbn [In]. intuition congruence.
          * intros y [r' [Hr [_ [_ ->]]]]. injection Hr as <-. apply Q3. left. apply set_add_In. left. reflexivity.
        + injection H0 as <-. cbn [fst snd]. split; [| split].
          * intros y [<- | []]. exact Hhere.
          * intros y. rewrite set_add_In. cbn [In]. intuition congruence.
          * intros y [r' [Hr [_ [_ ->]]]]. injection Hr as <-. apply set_add_In. left. reflexivity. }
    destruct Own as [O1 [O2 O3]].
    rewrite Forall_forall in Hfs.
    destruct (push_refs_foldM (fun kv => findRefs_visited schemas (S f) (snd kv))
                (fun kv y => DepReach schemas (snd kv) y) (fun kv y => RefIn (snd kv) y) fs)
      with (acc := p0) (out := p1) (vis0 := visited) as [I1 [I2 [I3 I4]]].
    { intros kv Hkv vis q Hq. destruct (Hfs kv Hkv vis q Hq) as [_ [Q2 [Q3 Q4]]].
      split; [exact Q2 | split; [exact Q3 | apply Q4; lia]]. }
    { exact O2. }
    { exact H1. }
    split; [apply dedup_NoDup |]. split; [| split].
    + intros y Hy. rewrite dedup_In in Hy. destruct (I2 y Hy) as [Hy0 | [kv [Hkv Hr]]]; [exact (O1 y Hy0) |].
      apply (DepReach_mono _ (snd kv)); [| exact Hr]. intros z Hz. exact (RefIn_field _ _ _ Hkv Hz).
    + intros y. rewrite dedup_In. apply I1.
    + intros _ y Hy. apply RefIn_obj in Hy. destruct Hy as [Hy | [kv [Hkv Hy]]].
      * apply I3, O3, Hy.
      * exact (I4 kv y Hkv Hy).
Qed.

(** [findSchemaDependencies] reports ["No OpenAPI specification or schemas
    loaded."] when there is no specification or its [components.schemas]
    is falsy, and ["Schema '<name>' not found."] when the schema is falsy. *)
Theorem findSchemaDependencies_errors currentSpec schemaName direction depth :
  (truthy currentSpec = false ->
   findSchemaDependencies currentSpec schemaName direction depth =
     Ok (DepsError "No OpenAPI specification or schemas loaded.")) /\
  (forall components schemas, truthy currentSpec = true ->
   get currentSpec "components" = Ok components -> opt_get components "schemas" = Ok schemas ->
   (truthy schemas = false ->
    findSchemaDependencies currentSpec schemaName direction depth =
      Ok (DepsError "No OpenAPI specification or schemas loaded.")) /\
   (forall schema, truthy schemas = true -> get schemas schemaName = Ok schema -> truthy schema = false ->
    findSchemaDependencies currentSpec schemaName direction depth =
      Ok (DepsError ("Schema '" ++ schemaName ++ "' not found.")))).
Proof.
  unfold findSchemaDependencies. split.
  - intros Hf. rewrite Hf. reflexivity.
  - intros components schemas Ht Hc Hs. rewrite Ht, Hc. cbn [bind]. rewrite Hs. cbn [bind negb orb].
    split.
    + intros Hf. rewrite Hf. reflexivity.
    + intros schema Hst Hsch Hf. rewrite Hst. cbn [negb orb]. rewrite Hsch. cbn [bind]. rewrite Hf. reflexivity.
Qed.

(** When the schema is found: the dependencies are listed once each, each
    is reached from the schema through references, and with [depth >= 1]
    every direct reference of the schema is among them; every dependent is
    another schema that reaches [schemaName] through references, and with
    [depth >= 1] every other schema referring to [schemaName] directly is a
    dependent; the tree is the one [buildDependencyTree] builds.
    [direction] ['dependents'] leaves out the dependencies and the tree,
    ['dependencies'] the dependents. *)
Theorem findSchemaDependencies_found currentSpec schemaName direction depth components schemas schema
    deps dents tree :
  get currentSpec "components" = Ok components -> opt_get components "schemas" = Ok schemas ->
  get schemas schemaName = Ok schema ->
  findSchemaDependencies currentSpec schemaName direction depth = Ok (DepsFound deps dents tree) ->
  NoDup deps /\ (forall x, In x deps -> DepReach schemas schema x) /\
  ((1 <= depth)%Z -> direction <> "dependents" -> forall x, RefIn schema x -> In x deps) /\
  (forall n, In n dents -> n <> schemaName /\
     exists es t, entries schemas = Ok es /\ In (n, t) es /\ DepReach schemas t schemaName) /\
  ((1 <= depth)%Z -> direction <> "dependencies" ->
     forall es n t, entries schemas = Ok es -> In (n, t) es -> n <> schemaName -> RefIn t schemaName ->
     In n dents) /\
  (direction <> "dependents" -> exists t, tree = Some t /\ buildDependencyTree schemaName schemas depth = Ok t) /\
  (direction = "dependents" -> deps = [] /\ tree = None) /\
  (direction = "dependencies" -> dents = []).
Proof.
  intros Hc Hs Hsch H. unfold findSchemaDependencies in H.
  destruct (truthy currentSpec) eqn:Ht; cbn [negb orb] in H; [| discriminate H].
  rewrite Hc in H. cbn [bind] in H. rewrite Hs in H. cbn [bind] in H.
  destruct (truthy schemas) eqn:Hts; cbn [negb orb] in H; [| discriminate H].
  rewrite Hsch in H. cbn [bind] in H.
  destruct (truthy schema) eqn:Htsch; cbn [negb] in H; [| discriminate H].
  apply bind_Ok in H. destruct H as [deps' [Hdeps H]].
  apply bind_Ok in H. destruct H as [dents' [Hdents H]].
  apply bind_Ok in H. destruct H as [tree' [Htree H]].
  injection H as <- <- <-.
  assert (Hone : (1 <= depth)%Z -> (1 <= Z.to_nat depth)%nat) by lia.
  (* dependencies *)
  assert (D : NoDup deps' /\ (forall x, In x deps' -> DepReach schemas schema x) /\
              ((1 <= depth)%Z -> direction <> "dependents" -> forall x, RefIn schema x -> In x deps') /\
              (direction = "dependents" -> deps' = [])).
  { destruct (String.eqb direction "dependents") eqn:Ed.
    - injection Hdeps as <-. apply String.eqb_eq in Ed.
      split; [constructor | split; [intros x [] | split; [intros _ Hne; contradiction | auto]]].
    - apply bind_Ok in Hdeps. destruct Hdeps as [p [Hp Hdeps]]. injection Hdeps as <-.
      destruct (findRefs_visited_facts _ _ _ _ _ Hp) as [P1 [P2 [P3 P4]]].
      split; [exact P1 | split; [exact P2 | split]].
      + intros Hd _ x Hx. destruct (proj1 (P3 x) (P4 (Hone Hd) x Hx)) as [[] | Q]. exact Q.
      + intros E. rewrite E, String.eqb_refl in Ed. discriminate Ed. }
  destruct D as [D1 [D2 [D3 D4]]].
  (* dependents *)
  assert (R : (forall n, In n dents' -> n <> schemaName /\
                 exists es t, entries schemas = Ok es /\ In (n, t) es /\ DepReach schemas t schemaName) /\
              ((1 <= depth)%Z -> direction <> "dependencies" ->
                 forall es n t, entries schemas = Ok es -> In (n, t) es -> n <> schemaName ->
                 RefIn t schemaName -> In n dents') /\
              (direction = "dependencies" -> dents' = [])).
  { destruct (String.eqb direction "dependencies") eqn:Ed.
    - injection Hdents as <-. apply String.eqb_eq in Ed.
      split; [intros n [] | split; [intros _ Hne; contradiction | auto]].
    - apply bind_Ok in Hdents. destruct Hdents as [es [Hes Hdents]].
      apply bind_Ok in Hdents. destruct Hdents as [kept [Hkept Hdents]]. injection Hdents as <-.
      pose proof (filterM_filter _ _ _ Hkept) as Ek.
      pose proof (filterM_total_Ok _ _ _ Hkept) as Tk.
      split; [| split].
      + intros n Hn. apply in_map_iff in Hn. destruct Hn as [[n' t] [En Hin]]. cbn [fst] in En. subst n'.
        rewrite Ek, filter_In in Hin. destruct Hin as [Hin Hok]. rewrite filter_In in Hin.
        destruct Hin as [Hin Hne]. cbn [fst] in Hne.
        split; [intros E; subst n; rewrite String.eqb_refl in Hne; discriminate Hne |].
        exists es, t. split; [exact Hes | split; [exact Hin |]].
        apply ok_true_iff in Hok. apply bind_Ok in Hok. destruct Hok as [p [Hp Hok]]. injection Hok as Hok.
        apply existsb_eqb_In in Hok. exact (proj1 (proj2 (findRefs_visited_facts _ _ _ _ _ Hp)) _ Hok).
      + intros Hd _ es' n t Hes' Hin Hne Hr. rewrite Hes in Hes'. injection Hes' as <-.
        apply in_map_iff. exists (n, t). split; [reflexivity |].
        assert (Hin' : In (n, t) (filter (fun kv => negb (String.eqb (fst kv) schemaName)) es)).
        { apply filter_In. split; [exact Hin |]. cbn [fst]. apply negb_true_iff, String.eqb_neq, Hne. }
        rewrite Ek, filter_In. split; [exact Hin' |].
        destruct (Tk _ Hin') as [b Hb]. rewrite Hb. cbn [ok_true].
        apply bind_Ok in Hb. destruct Hb as [p [Hp Hb]]. injection Hb as <-.
        destruct (findRefs_visited_facts _ _ _ _ _ Hp) as [_ [_ [P3 P4]]].
        destruct (proj1 (P3 schemaName) (P4 (Hone Hd) schemaName Hr)) as [[] | Q].
        apply existsb_eqb_In in Q. cbn [ok_true]. rewrite Q. reflexivity.
      + intros E. rewrite E, String.eqb_refl in Ed. discriminate Ed. }
  destruct R as [R1 [R2 R3]].
  split; [exact D1 |]. split; [exact D2 |]. split; [exact D3 |]. split; [exact R1 |]. split; [exact R2 |].
  destruct (String.eqb direction "dependents") eqn:Ed; cbn [negb] in Htree.
  - apply String.eqb_eq in Ed. injection Htree as <-.
    split; [intros Hne; contradiction |]. split; [intros _; split; [apply D4, Ed | reflexivity] | exact R3].
  - apply bind_Ok in Htree. destruct Htree as [t [Ht' Htree]]. injection Htree as <-.
    split; [exists t; auto |]. split; [| exact R3].
    intros E. rewrite E, String.eqb_refl in Ed. discriminate Ed.
Qed.


(** ** What every extracted endpoint carries *)

(** [operation.tags?.join(', ')] in [generateBusinessContext] only passes
    for absent tags and arrays. *)
Lemma generateBusinessContext_tags operation t s :
  get operation "tags" = Ok t -> generateBusinessContext operation = Ok s ->
  t = JUndef \/ t = JNull \/ exists l, t = JArr l.
Proof.
  intros Ht H. unfold generateBusinessContext in H. rewrite Ht in H. cbn [bind] in H.
  destruct t as [| | b | n | str | ts | fs]; auto;
    cbn [join bind] in H; try discriminate H; eauto.
Qed.

Lemma extract_endpoint_tags path pathItem operation method e :
  extract_endpoint path pathItem operation method = Ok e -> exists ts, ep_tags e = JArr ts.
Proof.
  unfold extract_endpoint. intros H.
  repeat (apply bind_Ok in H; destruct H as [? [? H]]; cbv beta zeta in H).
  injection H as <-. cbn [ep_tags].
  match goal with
  | Ht : get operation "tags" = Ok ?t, Hb : generateBusinessContext operation = Ok _ |- _ =>
      destruct (generateBusinessContext_tags _ _ _ Ht Hb) as [-> | [-> | [l ->]]]
  end; [exists []; reflexivity | exists []; reflexivity | exists l; reflexivity].
Qed.

Lemma extractEndpoints_Forall (P : EndpointData -> Prop) spec eps :
  (forall path pathItem operation method e, extract_endpoint path pathItem operation method = Ok e -> P e) ->
  extractEndpoints spec = Ok eps -> Forall P eps.
Proof.
  intros HP. unfold extractEndpoints. destruct (negb (truthy spec)).
  - intros H. injection H as <-. constructor.
  - intros H. apply bind_Ok in H. destruct H as [paths [_ H]].
    apply bind_Ok in H. destruct H as [es [_ H]].
    revert H. apply foldM_invariant; [constructor |].
    intros acc [path pathItem] acc' Hacc _ H.
    apply bind_Ok in H. destruct H as [ps [Hps H]]. injection H as <-.
    apply Forall_app. split; [exact Hacc |].
    revert Hps. unfold extract_path_item. apply foldM_invariant; [constructor |].
    intros acc2 method acc2' Hacc2 _ H.
    apply bind_Ok in H. destruct H as [op [_ H]].
    destruct (truthy op).
    + apply bind_Ok in H. destruct H as [e [He H]]. injection H as <-.
      apply Forall_app. split; [exact Hacc2 | constructor; [eapply HP; exact He | constructor]].
    + injection H as <-. exact Hacc2.
Qed.

(** Every endpoint record [extractEndpoints] builds has an array as its
    [tags]: the operation's [tags] when they are an array, [[]] when they
    are absent; any other [tags] value makes the extraction throw (in
    [generateBusinessContext], [tags?.join]). *)
Theorem extractEndpoints_tags_arrays spec eps :
  extractEndpoints spec = Ok eps -> forall e, In e eps -> exists ts, ep_tags e = JArr ts.
Proof.
  intros H. apply Forall_forall. revert H. apply extractEndpoints_Forall.
  exact extract_endpoint_tags.
Qed.



(** ** Witnesses *)

Lemma getAllMethods_facts_witness :
  getAllMethods users_doc = Ok ["GET"; "POST"] /\ Sorted str_le ["GET"; "POST"] /\ NoDup ["GET"; "POST"].
Proof.
  assert (H : getAllMethods users_doc = Ok ["GET"; "POST"]) by (vm_compute; reflexivity).
  destruct (getAllMethods_facts users_doc users_paths users_path_items _
              ltac:(vm_compute; reflexivity) ltac:(vm_compute; reflexivity) ltac:(vm_compute; reflexivity) H)
    as [S [N _]].
  split; [exact H | split; [exact S | exact N]].
Defined.

Lemma getAllStatusCodes_facts_witness :
  getAllStatusCodes users_doc = Ok ["200"; "201"; "400"; "404"] /\ NoDup ["200"; "201"; "400"; "404"].
Proof.
  assert (H : getAllStatusCodes users_doc = Ok ["200"; "201"; "400"; "404"]) by (vm_compute; reflexivity).
  destruct (getAllStatusCodes_facts users_doc users_paths users_path_items _
              ltac:(vm_compute; reflexivity) ltac:(vm_compute; reflexivity) ltac:(vm_compute; reflexivity) H)
    as [_ [N _]].
  split; [exact H | exact N].
Defined.

Lemma getAllMethods_extractEndpoints_witness :
  exists e, In e users_endpoints /\ ep_method e = "POST".
Proof.
  apply (proj1 (getAllMethods_extractEndpoints users_doc users_endpoints ["GET"; "POST"]
                  ltac:(vm_compute; reflexivity) ltac:(vm_compute; reflexivity) "POST")).
  right. left. reflexivity.
Defined.

Lemma getAllTags_members_witness :
  getAllTags users_doc = Ok [JStr "admin"; JStr "users"] /\ NoDup (filter is_jstr [JStr "admin"; JStr "users"]).
Proof.
  assert (H : getAllTags users_doc = Ok [JStr "admin"; JStr "users"]) by (vm_compute; reflexivity).
  destruct (getAllTags_members users_doc _ ltac:(vm_compute; reflexivity) H) as [_ [N _]].
  split; [exact H | exact N].
Defined.

Lemma listings_without_paths_witness :
  extractEndpoints JNull = Ok [] /\ getAllTags bare_doc = Throw TypeError.
Proof.
  split.
  - apply (proj1 (listings_without_paths JNull) eq_refl).
  - apply (proj2 (listings_without_paths bare_doc) ltac:(vm_compute; reflexivity) ltac:(vm_compute; reflexivity)).
    left. vm_compute. reflexivity.
Defined.

Lemma loadOpenAPISpec_unparsable_witness :
  loadOpenAPISpec parses_to_nothing parses_to_nothing users_session "not a document" =
    (users_session, Throw (Error "Failed to load OpenAPI spec")).
Proof. apply loadOpenAPISpec_unparsable; reflexivity. Defined.

Lemma loadOpenAPISpec_success_witness :
  exists st', loadOpenAPISpec (parses_to users_doc) parses_to_nothing initial_session "users" = (st', Ok tt) /\
    extractEndpoints (currentSpec st') = Ok (currentEndpoints st').
Proof.
  exists users_session.
  assert (H : loadOpenAPISpec (parses_to users_doc) parses_to_nothing initial_session "users" =
              (users_session, Ok tt)) by (vm_compute; reflexivity).
  split; [exact H |].
  exact (proj1 (proj2 (loadOpenAPISpec_success _ _ _ _ _ H))).
Defined.

Lemma loadOpenAPISpec_extraction_failure_witness :
  loadOpenAPISpec (parses_to bare_doc) parses_to_nothing users_session "bare" =
    ({| currentSpec := bare_doc; currentEndpoints := users_endpoints; parser_spec := bare_doc |},
     Throw (Error "Failed to load OpenAPI spec")).
Proof.
  apply (loadOpenAPISpec_extraction_failure (parses_to bare_doc) parses_to_nothing users_session "bare"
           bare_doc (JStr "3.0.0") TypeError);
    vm_compute; reflexivity.
Defined.

Lemma extractEndpoints_missing_responses_witness :
  exists e, extractEndpoints no_responses_doc = Throw e.
Proof.
  apply (extractEndpoints_missing_responses no_responses_doc (obj_field no_responses_doc "paths")
           (match entries (obj_field no_responses_doc "paths") with Ok l => l | Throw _ => [] end)
           "/x" (obj_field (obj_field no_responses_doc "paths") "/x") "get"
           (obj_field (obj_field (obj_field no_responses_doc "paths") "/x") "get") JUndef);
    try (vm_compute; reflexivity).
  - vm_compute. left. reflexivity.
  - vm_compute. left. reflexivity.
  - exists JUndef. split; [vm_compute; reflexivity | left; reflexivity].
  - exists JUndef. split; [vm_compute; reflexivity | left; reflexivity].
  - left. reflexivity.
Defined.

Lemma extract_endpoint_parameters_witness :
  exists e, extract_endpoint posts_path posts_item posts_get "get" = Ok e /\
    ep_parameters e = [JObj [("name", JStr "userId"); ("in", JStr "path")];
                       JObj [("name", JStr "postId"); ("in", JStr "path")];
                       JObj [("name", JStr "limit"); ("in", JStr "query")]] /\
    ep_hasQueryParams e = true.
Proof.
  destruct (extract_endpoint posts_path posts_item posts_get "get") as [e | err] eqn:E;
    [| vm_compute in E; discriminate E].
  destruct (extract_endpoint_parameters posts_path posts_item posts_get "get" e
              [JObj [("name", JStr "postId"); ("in", JStr "path")]; JObj [("name", JStr "limit"); ("in", JStr "query")]]
              [JObj [("name", JStr "userId"); ("in", JStr "path")]] JUndef E
              ltac:(vm_compute; reflexivity) ltac:(vm_compute; reflexivity) ltac:(vm_compute; reflexivity))
    as [P [Q _]].
  exists e. split; [reflexivity | split; [exact P |]].
  apply Q. exists (JObj [("name", JStr "limit"); ("in", JStr "query")]).
  split; [right; right; left; reflexivity | reflexivity].
Defined.

Lemma extractEndpoints_tags_arrays_witness :
  Forall (fun e => exists ts, ep_tags e = JArr ts) users_endpoints.
Proof.
  apply Forall_forall. intros e He.
  apply (extractEndpoints_tags_arrays users_doc users_endpoints); [vm_compute; reflexivity | exact He].
Defined.

Lemma generateAnalytics_distributions_witness :
  generateAnalytics users_endpoints = Ok users_analytics /\
  dist_lookup (methodDistribution users_analytics) "GET" = 2%nat.
Proof.
  assert (H : generateAnalytics users_endpoints = Ok users_analytics) by (vm_compute; reflexivity).
  destruct (generateAnalytics_distributions _ _ H) as [_ [M _]].
  split; [exact H | rewrite M; vm_compute; reflexivity].
Defined.

Lemma generateAnalytics_counts_witness :
  generateAnalytics users_endpoints = Ok users_analytics /\ deprecatedCount users_analytics = 1%nat /\
  (averageParametersPerEndpoint users_analytics == 1)%Q.
Proof.
  assert (H : generateAnalytics users_endpoints = Ok users_analytics) by (vm_compute; reflexivity).
  destruct (generateAnalytics_counts _ _ H) as [D [_ [_ A]]].
  split; [exact H | split; [rewrite D; vm_compute; reflexivity |]].
  assert (Hn : users_endpoints <> []) by (vm_compute; discriminate).
  rewrite (A Hn). vm_compute. reflexivity.
Defined.

Lemma generateAnalytics_sets_witness :
  generateAnalytics users_endpoints = Ok users_analytics /\ In "apiKey" (securitySchemes users_analytics).
Proof.
  assert (H : generateAnalytics users_endpoints = Ok users_analytics) by (vm_compute; reflexivity).
  destruct (generateAnalytics_sets _ _ H) as [_ [S _]].
  split; [exact H |]. apply S.
  destruct users_endpoints as [| e0 rest] eqn:E; [vm_compute in E; discriminate E |].
  exists e0. split; [left; reflexivity |].
  vm_compute in E. injection E as E0 _.
  exists [JObj [("oauth", JArr [JStr "read"])]; JObj [("apiKey", JArr [])]], (JObj [("apiKey", JArr [])]),
         [("apiKey", JArr [])].
  split; [rewrite <- E0; reflexivity | split; [right; left; reflexivity | split; [reflexivity | left; reflexivity]]].
Defined.

Lemma generateAnalytics_type_error_witness :
  generateAnalytics security_object_endpoints = Throw TypeError.
Proof.
  destruct security_object_endpoints as [| e0 rest] eqn:E; [vm_compute in E; discriminate E |].
  vm_compute in E. injection E as E0 _.
  apply (generateAnalytics_type_error (e0 :: rest) e0); [left; reflexivity |].
  right. split; [rewrite <- E0; reflexivity | intros reqs; rewrite <- E0; discriminate].
Defined.

Lemma searchEndpoints_results_witness :
  exists n rs, searchEndpoints users_session post_get_search = Ok (n, rs) /\ n = 1%nat /\
    currentEndpoints users_session <> [].
Proof.
  destruct (searchEndpoints users_session post_get_search) as [[n rs] | err] eqn:E;
    [| vm_compute in E; discriminate E].
  exists n, rs. split; [reflexivity |].
  split; [vm_compute in E; injection E as <- _; reflexivity |].
  exact (proj1 (searchEndpoints_results _ _ _ _ E)).
Defined.

Lemma searchEndpoints_no_filters_witness :
  searchEndpoints users_session no_filters =
    Ok (List.length (currentEndpoints users_session), firstn 20 (currentEndpoints users_session)).
Proof.
  apply (proj2 (searchEndpoints_no_filters users_session)); [vm_compute; discriminate |].
  intros e He. vm_compute in He.
  destruct He as [<- | [<- | [<- | []]]];
    (split; [| split]; [eexists; reflexivity | eexists; split; [reflexivity | repeat constructor; eexists; reflexivity] |
                        eexists; reflexivity]).
Defined.

Lemma buildDependencyTree_spec_witness :
  buildDependencyTree "Pet" pet_schemas 5 = Ok pet_tree /\ dep_tree_ok pet_schemas [] pet_tree.
Proof.
  assert (H : buildDependencyTree "Pet" pet_schemas 5 = Ok pet_tree) by (vm_compute; reflexivity).
  destruct (buildDependencyTree_spec _ _ _ _ H) as [_ [O _]].
  split; [exact H | exact O].
Defined.

Lemma findSchemaDependencies_errors_witness :
  findSchemaDependencies pet_doc "Nope" "both" 5 = Ok (DepsError "Schema 'Nope' not found.").
Proof.
  destruct (findSchemaDependencies_errors pet_doc "Nope" "both" 5) as [_ E].
  destruct (E pet_components pet_schemas ltac:(vm_compute; reflexivity) ltac:(vm_compute; reflexivity)
              ltac:(vm_compute; reflexivity)) as [_ F].
  apply (F JUndef); vm_compute; reflexivity.
Defined.

Lemma findSchemaDependencies_found_witness :
  findSchemaDependencies pet_doc "Pet" "both" 5 = Ok (DepsFound ["User"; "Pet"; "Tag"] ["User"] (Some pet_tree)) /\
  (forall x, In x ["User"; "Pet"; "Tag"] -> DepReach pet_schemas pet_schema x).
Proof.
  assert (H : findSchemaDependencies pet_doc "Pet" "both" 5 =
              Ok (DepsFound ["User"; "Pet"; "Tag"] ["User"] (Some pet_tree))) by (vm_compute; reflexivity).
  destruct (findSchemaDependencies_found pet_doc "Pet" "both" 5 pet_components pet_schemas pet_schema _ _ _
              ltac:(vm_compute; reflexivity) ltac:(vm_compute; reflexivity) ltac:(vm_compute; reflexivity) H)
    as [_ [R _]].
  split; [exact H | exact R].
Defined.

